(** * Entropy model of the hyperprior: a shallow embedding of
      [src/network/hyperprior.py]

    The Python module estimates the rate of a learned image codec: a
    factorized density for the hyperlatents, a conditional density for the
    latents (Gaussian/logistic or a discretized logistic mixture), the
    quantizers and the bits-per-pixel estimator.

    Conventions of the embedding.
    - Tensor entries are real numbers ([R]): rounding error of the
      floating-point backend is not represented.  A dense tensor is its
      [shape] together with the function from a multi-index to the entry.
    - Only forward values are modelled; [detach] is therefore the identity
      and the custom autograd functions are their forward rule.
    - A raised Python exception is a value of [exn]; fallible functions
      return [result].  Functions that draw random numbers thread the state
      of the generator ([rng]) explicitly.
    - The bit counts of the estimator are [fscalar]s: a division by zero
      yields [nan] or [inf] there, which are told apart from finite values.
    - Inside tensors, [torch.log] is the real logarithm and [/] the real
      division; they are meaningful on positive arguments and non-zero
      divisors, and no statement below reads them elsewhere. *)

From Stdlib Require Import String Reals Lra Lia ZArith Bool List.
From Stdlib Require Import Zfloor DecimalString DecimalNat.
Import ListNotations.
Local Open Scope R_scope.

(** ** Exceptions and fallible computations *)

Inductive exn : Type :=
| NotImplementedError
| AssertionError (msg : string)
| ValueError (msg : string)
| AttributeError (name : string)
| IndexError
| ZeroDivisionError
| RuntimeError (msg : string).

(** The two errors by which a constructor rejects its configuration. *)
Definition is_config_error (e : exn) : bool :=
  match e with
  | ValueError _ | AssertionError _ => true
  | _ => false
  end.

Definition result (A : Type) : Type := (exn + A)%type.

Definition ok {A} (a : A) : result A := inr a.
Definition raise {A} (e : exn) : result A := inl e.

Definition rbind {A B} (m : result A) (k : A -> result B) : result B :=
  match m with
  | inl e => inl e
  | inr a => k a
  end.

Declare Scope result_scope.
Delimit Scope result_scope with result.
Notation "x <- m ;; k" := (rbind m (fun x => k))
  (at level 61, m at next level, right associativity) : result_scope.
Notation "' p <- m ;; k" := (rbind m (fun x => match x with p => k end))
  (at level 61, p pattern, m at next level, right associativity) : result_scope.

(** ** Dense tensors *)

Record tensor : Type := Tensor { shape : list nat; item : list nat -> R }.

Definition numel (s : list nat) : nat := fold_right Nat.mul 1%nat s.

(** All multi-indices of a shape, in row-major order. *)
Fixpoint indices (s : list nat) : list (list nat) :=
  match s with
  | [] => [[]]
  | d :: s' => flat_map (fun i => map (cons i) (indices s')) (seq 0 d)
  end.

Definition entries (t : tensor) : list R := map (item t) (indices (shape t)).

Definition valid_index (s i : list nat) : Prop := Forall2 lt i s.

(** Two tensors hold the same value: same shape, same entry at every index
    of that shape. *)
Definition same_value (a b : tensor) : Prop :=
  shape a = shape b /\ forall i, valid_index (shape a) i -> item a i = item b i.

Definition same_result (a b : result tensor) : Prop :=
  match a, b with
  | inl e1, inl e2 => e1 = e2
  | inr t1, inr t2 => same_value t1 t2
  | _, _ => False
  end.

(** Row-major position of an index and its inverse. *)
Definition ravel (s i : list nat) : nat :=
  fold_left (fun acc dk => (acc * fst dk + snd dk)%nat) (combine s i) 0%nat.

Definition unravel (s : list nat) (n : nat) : list nat :=
  snd (fold_right (fun d qi => (fst qi / d, (fst qi mod d) :: snd qi)%nat)
                  (n, []) s).

Definition insert_at (d k : nat) (i : list nat) : list nat :=
  firstn d i ++ k :: skipn d i.

Definition replace_at (d k : nat) (i : list nat) : list nat :=
  firstn d i ++ k :: skipn (S d) i.

Definition remove_at {A} (d : nat) (s : list A) : list A :=
  firstn d s ++ skipn (S d) s.

Definition Rsum (f : nat -> R) (n : nat) : R :=
  fold_right Rplus 0 (map f (seq 0 n)).

(** *** Broadcasting (shapes are aligned on their trailing dimension) *)

Fixpoint broadcast_rev (a b : list nat) : option (list nat) :=
  match a, b with
  | [], _ => Some b
  | _, [] => Some a
  | x :: a', y :: b' =>
      match broadcast_rev a' b' with
      | None => None
      | Some r =>
          if (x =? y)%nat then Some (x :: r)
          else if (x =? 1)%nat then Some (y :: r)
          else if (y =? 1)%nat then Some (x :: r)
          else None
      end
  end.

Definition broadcast_shapes (a b : list nat) : option (list nat) :=
  option_map (@rev nat) (broadcast_rev (rev a) (rev b)).

(** The index read in an operand of shape [s] for the output index [i]. *)
Definition expand_index (s i : list nat) : list nat :=
  map (fun dk => if (fst dk =? 1)%nat then 0%nat else snd dk)
      (combine s (skipn (length i - length s) i)).

Definition shape_error {A} : result A :=
  raise (RuntimeError "shape mismatch").

Definition map2 (f : R -> R -> R) (a b : tensor) : result tensor :=
  match broadcast_shapes (shape a) (shape b) with
  | Some s =>
      ok (Tensor s (fun i => f (item a (expand_index (shape a) i))
                              (item b (expand_index (shape b) i))))
  | None => shape_error
  end.

Definition tmap (f : R -> R) (t : tensor) : tensor :=
  Tensor (shape t) (fun i => f (item t i)).

(** Python's operators on tensors, and on a tensor and a number. *)
Definition tadd := map2 Rplus.
Definition tsub := map2 Rminus.
Definition tmul := map2 Rmult.
Definition tdiv := map2 Rdiv.
Definition tadds (t : tensor) (c : R) : tensor := tmap (fun v => v + c) t.
Definition tsubs (t : tensor) (c : R) : tensor := tmap (fun v => v - c) t.
Definition radds (c : R) (t : tensor) : tensor := tmap (fun v => c + v) t.
Definition rsubs (c : R) (t : tensor) : tensor := tmap (fun v => c - v) t.
Definition tneg : tensor -> tensor := tmap Ropp.

(** [t.detach()]: the same values, cut from the gradient graph. *)
Definition detach (t : tensor) : tensor := t.

(** [t.reshape(dims)], with at most one dimension given as [-1]. *)
Definition infer_shape (n : nat) (dims : list Z) : option (list nat) :=
  let known := filter (fun d => negb (d =? -1)%Z) dims in
  let p := fold_right Z.mul 1%Z known in
  if existsb (fun d => (d <? 0)%Z) known then None
  else match (length dims - length known)%nat with
       | O => if (p =? Z.of_nat n)%Z then Some (map Z.to_nat dims) else None
       | S O =>
           if (p =? 0)%Z then None
           else if (Z.of_nat n mod p =? 0)%Z
                then Some (map (fun d => if (d =? -1)%Z
                                         then Z.to_nat (Z.of_nat n / p)
                                         else Z.to_nat d) dims)
                else None
       | _ => None
       end.

Definition reshape (t : tensor) (dims : list Z) : result tensor :=
  match infer_shape (numel (shape t)) dims with
  | Some s => ok (Tensor s (fun i => item t (unravel (shape t) (ravel s i))))
  | None => shape_error
  end.

(** [t.permute(dims)]: dimension [j] of the result is dimension [dims[j]]
    of [t]. *)
Fixpoint index_of (d : nat) (l : list nat) : nat :=
  match l with
  | [] => O
  | x :: l' => if (x =? d)%nat then O else S (index_of d l')
  end.

Definition permute (t : tensor) (dims : list nat) : result tensor :=
  let r := length (shape t) in
  if ((length dims =? r)%nat
      && forallb (fun d => existsb (Nat.eqb d) dims) (seq 0 r))%bool
  then ok (Tensor (map (fun d => nth d (shape t) O) dims)
                  (fun i => item t (map (fun d => nth (index_of d dims) i O)
                                        (seq 0 r))))
  else shape_error.

(** [t[:, j, ...]] *)
Definition select1 (t : tensor) (j : nat) : result tensor :=
  match shape t with
  | _ :: d :: _ =>
      if (j <? d)%nat
      then ok (Tensor (remove_at 1 (shape t)) (fun i => item t (insert_at 1 j i)))
      else raise IndexError
  | _ => raise IndexError
  end.

(** ** Scalars that may be [nan] or [inf]

    A division by zero does not raise on tensors: it yields [inf] or [nan].
    [NonFinite] stands for both. *)

Inductive fscalar : Type :=
| Finite (r : R)
| NonFinite.

Definition fadd (a b : fscalar) : fscalar :=
  match a, b with
  | Finite x, Finite y => Finite (x + y)
  | _, _ => NonFinite
  end.

Definition fdiv (a : fscalar) (d : R) : fscalar :=
  match a with
  | Finite x => if Req_dec_T d 0 then NonFinite else Finite (x / d)
  | NonFinite => NonFinite
  end.

(** ** Floating-point types

    The tensors hold numbers of a binary floating-point type, and the
    result of an operation is rounded to the nearest number of the type, a
    tie going to the one with the even significand.  [round prec emin] is
    that rounding for a significand of [prec] bits and a least exponent
    [emin] (below it lie the subnormal numbers); numbers beyond the largest
    finite one, which overflow, are not represented. *)

Module dtype.

(** The binary exponent of a non-zero real:
    [2 ^ mag v <= |v| < 2 ^ (mag v + 1)]. *)
Definition mag (v : R) : Z := Zfloor (ln (Rabs v) / ln 2).

(** The distance between the numbers of the type around [v]. *)
Definition ulp (prec emin : Z) (v : R) : R :=
  powerRZ 2 (Z.max (mag v - prec + 1) emin).

(** The nearest integer, a tie going to the even one. *)
Definition round_half_even (v : R) : Z :=
  let n := Zfloor v in
  if Rlt_dec (v - IZR n) (1 / 2) then n
  else if Rlt_dec (1 / 2) (v - IZR n) then (n + 1)%Z
  else if Z.even n then n else (n + 1)%Z.

Definition round (prec emin : Z) (v : R) : R :=
  if Req_dec_T v 0 then 0
  else IZR (round_half_even (v / ulp prec emin v)) * ulp prec emin v.

(** [torch.float32], the default type of a tensor, and [torch.float64]. *)
Definition float32 : R -> R := round 24 (-149).
Definition float64 : R -> R := round 53 (-1074).

End dtype.

(** ** The functions of [torch], [torch.nn.functional] and [numpy] in use *)

Module torch.

Definition sgn (v : R) : R :=
  if Rlt_dec 0 v then 1 else if Rlt_dec v 0 then -1 else 0.

Definition sigmoid_ (v : R) : R := 1 / (1 + exp (- v)).

Definition floor : tensor -> tensor := tmap (fun v => IZR (Zfloor v)).
Definition abs : tensor -> tensor := tmap Rabs.
Definition sign : tensor -> tensor := tmap sgn.
Definition sigmoid : tensor -> tensor := tmap sigmoid_.
Definition tanh : tensor -> tensor := tmap Rtrigo_def.tanh.
Definition exp : tensor -> tensor := tmap Rtrigo_def.exp.
Definition log : tensor -> tensor := tmap ln.

Definition full (s : list nat) (v : R) : tensor := Tensor s (fun _ => v).
Definition zeros (s : list nat) : tensor := full s 0.
Definition ones (s : list nat) : tensor := full s 1.
Definition zeros_like (t : tensor) : tensor := zeros (shape t).

(** [torch.sum(t)]: the sum of all entries. *)
Definition sum (t : tensor) : R := fold_right Rplus 0 (entries t).

(** [torch.bmm(a, b)]: a batch of matrix products, [(C,r,m) x (C,m,n)]. *)
Definition bmm (a b : tensor) : result tensor :=
  match shape a, shape b with
  | [c; r; m], [c'; m'; n] =>
      if ((c =? c')%nat && (m =? m')%nat)%bool
      then ok (Tensor [c; r; n]
                 (fun i => Rsum (fun l => item a [nth 0 i O; nth 1 i O; l]
                                          * item b [nth 0 i O; l; nth 2 i O]) m))
      else shape_error
  | _, _ => shape_error
  end.

(** [torch.logsumexp(t, dim)] *)
Definition logsumexp (t : tensor) (dim : nat) : result tensor :=
  if (dim <? length (shape t))%nat
  then ok (Tensor (remove_at dim (shape t))
             (fun i => ln (Rsum (fun k => Rtrigo_def.exp (item t (insert_at dim k i)))
                                (nth dim (shape t) O))))
  else raise IndexError.

End torch.

Module F.

Definition softplus_ (v : R) : R :=
  if Rlt_dec 20 v then v else ln (1 + exp v).

(** [F.softplus], with its defaults [beta=1], [threshold=20]. *)
Definition softplus : tensor -> tensor := tmap softplus_.

Definition relu : tensor -> tensor := tmap (Rmax 0).

(** [F.log_softmax(t, dim)] *)
Definition log_softmax (t : tensor) (dim : nat) : result tensor :=
  if (dim <? length (shape t))%nat
  then ok (Tensor (shape t)
             (fun i => item t i
                       - ln (Rsum (fun k => exp (item t (replace_at dim k i)))
                                  (nth dim (shape t) O))))
  else raise IndexError.

(** [getattr(F, name)] for the activations the transforms are built with. *)
Definition getattr (name : string) : result (tensor -> tensor) :=
  if String.eqb name "relu" then ok relu
  else if String.eqb name "softplus" then ok softplus
  else raise (AttributeError name).

End F.

Module np.

(** The value of a 64-bit signed integer: arithmetic on [int64] wraps
    around. *)
Definition int64 (z : Z) : Z := ((z + 2 ^ 63) mod 2 ^ 64 - 2 ^ 63)%Z.

(** [np.prod] of a sequence of integers that are representable in 64 bits,
    as the sizes of a tensor are: the sequence becomes an array of [int64]
    and the product is taken in [int64], so that it wraps around (wrapping
    after each multiplication gives the same value).  For larger entries
    numpy chooses another type of array; no statement below reads the
    product there. *)
Definition prod (l : list Z) : Z := int64 (fold_right Z.mul 1%Z l).
Definition log (v : R) : R := ln v.
Definition expm1 (v : R) : R := exp v - 1.

End np.

(** ** [src.helpers.maths] *)

Module maths.

(** Modelled from the spec: [maths.LowerBoundToward] is not part of the
    sources at hand.  Section 4.1 of the specification gives its forward
    value: the elementwise maximum of the input and the bound (its gradient
    rule is not represented). *)
Definition LowerBoundToward_apply (x : tensor) (bound : R) : tensor :=
  tmap (fun v => Rmax v bound) x.

(** Modelled from the spec: [maths.LowerBoundIdentity], the same forward
    value with a pass-through gradient. *)
Definition LowerBoundIdentity_apply (x : tensor) (bound : R) : tensor :=
  tmap (fun v => Rmax v bound) x.

End maths.

Definition MIN_SCALE : R := 0.11.
Definition LOG_SCALES_MIN : R := -3.
Definition MIN_LIKELIHOOD : R := 1e-9.
Definition MAX_LIKELIHOOD : R := 1e3.
Definition SMALL_HYPERLATENT_FILTERS : Z := 192.
Definition LARGE_HYPERLATENT_FILTERS : Z := 320.

Definition lower_bound_identity := maths.LowerBoundIdentity_apply.
Definition lower_bound_toward := maths.LowerBoundToward_apply.

(** ** What the module takes from its environment

    The generator behind [torch.nn.init.uniform_], the convolution layers
    of [torch.nn] (a constructed layer is the function it computes; its
    constructor draws the initial weights, and yields [None] when
    [torch.nn] refuses the arguments) and the two standardized CDFs of
    [src.helpers.maths], which are not part of the sources at hand. *)

Definition layer : Type := tensor -> result tensor.

Class Backend : Type := {
  rng : Type;
  uniform_ : tensor -> R -> R -> rng -> tensor * rng;
  uniform_shape : forall t a b g, shape (fst (uniform_ t a b g)) = shape t;
  Conv2d : forall (in_channels out_channels kernel_size stride padding : Z)
                  (padding_mode : string), rng -> option layer * rng;
  ConvTranspose2d : forall (in_channels out_channels kernel_size stride padding
                            output_padding : Z), rng -> option layer * rng;
  standardized_CDF_gaussian : R -> R;
  standardized_CDF_logistic : R -> R
}.

(** Computations that may raise and that advance the generator. *)
Definition M `{Backend} (A : Type) : Type := rng -> result A * rng.

Definition ret `{Backend} {A} (a : A) : M A := fun g => (inr a, g).
Definition lift `{Backend} {A} (r : result A) : M A := fun g => (r, g).
Definition mbind `{Backend} {A B} (m : M A) (k : A -> M B) : M B :=
  fun g => match m g with
           | (inl e, g') => (inl e, g')
           | (inr a, g') => k a g'
           end.

(** A layer constructor of [torch.nn]; whatever it raises is reported as a
    [RuntimeError]. *)
Definition nn `{Backend} (c : rng -> option layer * rng) : M layer :=
  fun g => match c g with
           | (Some l, g') => (inr l, g')
           | (None, g') => (inl (RuntimeError "torch.nn"), g')
           end.

Declare Scope M_scope.
Delimit Scope M_scope with M.
Notation "x <- m ;; k" := (mbind m (fun x => k))
  (at level 61, m at next level, right associativity) : M_scope.
Notation "' p <- m ;; k" := (mbind m (fun x => match x with p => k end))
  (at level 61, p pattern, m at next level, right associativity) : M_scope.

(** ** [class CodingModel] *)

Module CodingModel.

(** The attributes of a [CodingModel].  [standardized_CDF] is not set by
    [CodingModel.__init__]; the subclasses assign it. *)
Record t : Type := Make {
  n_channels : Z;
  min_likelihood : R;
  max_likelihood : R;
  standardized_CDF : option (R -> R)
}.

Definition __init__ (n_channels : Z) (min_likelihood max_likelihood : R) : t :=
  Make n_channels min_likelihood max_likelihood None.

Section Methods.
Context `{Backend}.

Definition _quantize (x : tensor) (mode : string) (means : option tensor)
  : M tensor :=
  if String.eqb mode "noise" then
    (fun g =>
       let (quantization_noise, g') := uniform_ (torch.zeros_like x) (-0.5) 0.5 g in
       (tadd x quantization_noise, g'))
  else if String.eqb mode "quantize" then
    lift match means with
         | Some means =>
             (x <- tsub x means ;;
              let x := torch.floor (tadds x 0.5) in
              tadd x means)%result
         | None => ok (torch.floor (tadds x 0.5))
         end
  else lift (raise NotImplementedError).

(** [_quantize] with the rounding of the floating-point type of the tensors
    written out: [fl] rounds a real to a number of the type, the entries of
    [x] and [means] are numbers of the type, and the result of every
    addition and subtraction is rounded ([0.5] is a number of every type,
    and [torch.floor] is exact).  With the [fl] that rounds nothing this is
    [_quantize]. *)
Definition _quantize_rounded (fl : R -> R) (x : tensor) (mode : string)
  (means : option tensor) : M tensor :=
  if String.eqb mode "noise" then
    (fun g =>
       let (quantization_noise, g') := uniform_ (torch.zeros_like x) (-0.5) 0.5 g in
       ((x <- tadd x quantization_noise ;; ok (tmap fl x))%result, g'))
  else if String.eqb mode "quantize" then
    lift match means with
         | Some means =>
             (x <- tsub x means ;;
              let x := tmap fl x in
              let x := torch.floor (tmap fl (tadds x 0.5)) in
              x <- tadd x means ;;
              ok (tmap fl x))%result
         | None => ok (torch.floor (tmap fl (tadds x 0.5)))
         end
  else lift (raise NotImplementedError).

Definition size0 (x : tensor) : result nat :=
  match shape x with
  | [] => raise IndexError
  | n :: _ => ok n
  end.

Definition _estimate_entropy (likelihood : tensor) (spatial_shape : list Z)
  : result (fscalar * fscalar) :=
  (let EPS := 1e-9 in
   let quotient := - np.log 2 in
   batch_size <- size0 likelihood ;;
   if negb (length spatial_shape =? 2)%nat
   then raise (AssertionError "Mispecified spatial dims")
   else
     let n_pixels := np.prod spatial_shape in
     let log_likelihood := torch.log (tadds likelihood EPS) in
     let n_bits := fdiv (Finite (torch.sum log_likelihood))
                        (INR batch_size * quotient) in
     let bpp := fdiv n_bits (IZR n_pixels) in
     ok (n_bits, bpp))%result.

Definition _estimate_entropy_log (log_likelihood : tensor)
  (spatial_shape : list Z) : result (fscalar * fscalar) :=
  (let quotient := - np.log 2 in
   batch_size <- size0 log_likelihood ;;
   if negb (length spatial_shape =? 2)%nat
   then raise (AssertionError "Mispecified spatial dims")
   else
     let n_pixels := np.prod spatial_shape in
     let n_bits := fdiv (Finite (torch.sum log_likelihood))
                        (INR batch_size * quotient) in
     let bpp := fdiv n_bits (IZR n_pixels) in
     ok (n_bits, bpp))%result.

Definition quantize_latents_st (inputs : tensor) (means : option tensor)
  : result tensor :=
  (let values := inputs in
   values <- match means with
             | Some means => tsub values means
             | None => ok values
             end ;;
   d <- tsub (torch.floor (tadds values 0.5)) values ;;
   let delta := detach d in
   values <- tadd values delta ;;
   match means with
   | Some means => tadd values means
   | None => ok values
   end)%result.

Definition latent_likelihood (self : t) (x mean scale : tensor)
  : result tensor :=
  (x <- tsub x mean ;;
   let x := torch.abs x in
   standardized_CDF <- match standardized_CDF self with
                       | Some f => ok (tmap f)
                       | None => raise (AttributeError "standardized_CDF")
                       end ;;
   u <- tdiv (rsubs 0.5 x) scale ;;
   let cdf_upper := standardized_CDF u in
   l <- tdiv (tneg (radds 0.5 x)) scale ;;
   let cdf_lower := standardized_CDF l in
   likelihood_ <- tsub cdf_upper cdf_lower ;;
   let likelihood_ := lower_bound_toward likelihood_ (min_likelihood self) in
   ok likelihood_)%result.

End Methods.
End CodingModel.

(** ** [class HyperpriorDensity] *)

Module HyperpriorDensity.

(** The attributes of a density; [parameters] is the registry filled by
    [register_parameter], most recent registration first. *)
Record t : Type := Make {
  init_scale : R;
  filters : list Z;
  min_likelihood : R;
  max_likelihood : R;
  parameters : list (string * tensor)
}.

(** ['H_{}'.format(k)] and its siblings. *)
Definition format (prefix : string) (k : nat) : string :=
  (prefix ++ NilEmpty.string_of_uint (Nat.to_uint k))%string.

Definition register_parameter (self : t) (name : string) (p : tensor) : t :=
  Make (init_scale self) (filters self) (min_likelihood self)
       (max_likelihood self) ((name, p) :: parameters self).

Definition getattr (self : t) (name : string) : result tensor :=
  match find (fun np => String.eqb (fst np) name) (parameters self) with
  | Some np => ok (snd np)
  | None => raise (AttributeError name)
  end.

(** A tensor of the given sizes; a negative size is refused by [torch]. *)
Definition new_full (dims : list Z) (v : R) : result tensor :=
  if existsb (fun d => (d <? 0)%Z) dims
  then raise (RuntimeError "negative dimension")
  else ok (torch.full (map Z.to_nat dims) v).

Section Methods.
Context `{Backend}.

(** [init_scale ** e] for the exponent [e = 1 / (len(filters) + 1)], which
    lies in [(0, 1]] and is integral only when it is 1.  For a negative
    base Python yields the base itself when [e] is 1 (no filters), and a
    complex number ([None] here) otherwise. *)
Definition pow (x e : R) : option R :=
  if Rlt_dec 0 x then Some (Rpower x e)
  else if Req_dec_T x 0 then Some 0
  else if Req_dec_T e 1 then Some x
  else None.

(** One turn of the loop of [__init__].  Where the argument of [np.log] is
    negative (a negative [scale], or a negative filter, for which the
    creation of [H_k] raises) numpy's value is [nan], which a tensor of
    reals cannot hold: the fill value of [H_k] means nothing there; the
    shapes and the registrations are those of the code. *)
Definition init_stage (n_channels : Z) (filters_ : list Z) (scale : option R)
  (self : t) (k : nat) : M t :=
  (let f1 := nth (k + 1) filters_ 0%Z in
   let f0 := nth k filters_ 0%Z in
   H_init <- lift match scale with
                  | Some scale =>
                      if Req_dec_T scale 0 then raise ZeroDivisionError
                      else if (f1 =? 0)%Z then raise ZeroDivisionError
                      else ok (Some (np.log (np.expm1 (1 / scale / IZR f1))))
                  | None =>
                      if (f1 =? 0)%Z then raise ZeroDivisionError else ok None
                  end ;;
   H_k <- lift (new_full [n_channels; f1; f0] 1) ;;
   H_k <- lift match H_init with
               | Some v => ok (torch.full (shape H_k) v)
               | None => raise (RuntimeError "complex fill value")
               end ;;
   let self := register_parameter self (format "H_" k) H_k in
   a_k <- lift (new_full [n_channels; f1; 1%Z] 0) ;;
   let self := register_parameter self (format "a_" k) a_k in
   b_k <- lift (new_full [n_channels; f1; 1%Z] 0) ;;
   b_k <- (fun g => let (b, g') := uniform_ b_k (-0.5) 0.5 g in (ok b, g')) ;;
   let self := register_parameter self (format "b_" k) b_k in
   ret self)%M.

Fixpoint for_each {A} (body : A -> nat -> M A) (ks : list nat) (a : A) : M A :=
  match ks with
  | [] => ret a
  | k :: ks' => (a' <- body a k ;; for_each body ks' a')%M
  end.

Definition __init__ (n_channels : Z) (init_scale : R) (filters : list Z)
  (min_likelihood max_likelihood : R) : M t :=
  let self := Make init_scale filters min_likelihood max_likelihood [] in
  let filters_ := ([1%Z] ++ filters ++ [1%Z])%list in
  let scale := pow init_scale (1 / INR (length filters + 1)) in
  for_each (init_stage n_channels filters_ scale)
           (seq 0 (length filters + 1)) self.

(** One turn of the loop of [cdf_logits]. *)
Definition cdf_stage (self : t) (update_parameters : bool)
  (logits : tensor) (k : nat) : result tensor :=
  (H_k <- getattr self (format "H_" k) ;;
   a_k <- getattr self (format "a_" k) ;;
   b_k <- getattr self (format "b_" k) ;;
   let '(H_k, a_k, b_k) :=
     if negb update_parameters
     then (detach H_k, detach a_k, detach b_k)
     else (H_k, a_k, b_k) in
   logits <- torch.bmm (F.softplus H_k) logits ;;
   logits <- tadd logits b_k ;;
   s <- tmul (torch.tanh a_k) (torch.tanh logits) ;;
   logits <- tadd logits s ;;
   ok logits)%result.

Definition cdf_logits (self : t) (x : tensor) (update_parameters : bool)
  : result tensor :=
  fold_left (fun logits k => rbind logits (fun l => cdf_stage self update_parameters l k))
            (seq 0 (length (filters self) + 1)) (ok x).

Definition likelihood (self : t) (x : tensor) : result tensor :=
  (let latents := x in
   match shape latents with
   | [N; C; H; W] =>
       latents <- permute latents [1; 0; 2; 3]%nat ;;
       let shape_ := shape latents in
       latents <- reshape latents [Z.of_nat (nth 0 shape_ O); 1%Z; (-1)%Z] ;;
       cdf_upper <- cdf_logits self (tadds latents 0.5) true ;;
       cdf_lower <- cdf_logits self (tsubs latents 0.5) true ;;
       s <- tadd cdf_upper cdf_lower ;;
       let sign := tneg (torch.sign s) in
       let sign := detach sign in
       su <- tmul sign cdf_upper ;;
       sl <- tmul sign cdf_lower ;;
       d <- tsub (torch.sigmoid su) (torch.sigmoid sl) ;;
       let likelihood_ := torch.abs d in
       likelihood_ <- reshape likelihood_ (map Z.of_nat shape_) ;;
       likelihood_ <- permute likelihood_ [1; 0; 2; 3]%nat ;;
       let likelihood_ := lower_bound_toward likelihood_ (min_likelihood self) in
       ok likelihood_
   | _ => raise (ValueError "not enough values to unpack")
   end)%result.

Definition forward (self : t) (x : tensor) : result tensor := likelihood self x.

End Methods.
End HyperpriorDensity.

(** ** The analysis and synthesis transforms *)

Module HyperpriorAnalysis.

Record t : Type := Make {
  activation : tensor -> tensor;
  n_downsampling_layers : Z;
  conv1 : layer;
  conv2 : layer;
  conv3 : layer
}.

Section Methods.
Context `{Backend}.

Definition __init__ (C N : Z) (activation : string) : M t :=
  (activation <- lift (F.getattr activation) ;;
   conv1 <- nn (Conv2d C N 3 1 1 "zeros") ;;
   conv2 <- nn (Conv2d N N 5 2 2 "reflect") ;;
   conv3 <- nn (Conv2d N N 5 2 2 "reflect") ;;
   ret (Make activation 2 conv1 conv2 conv3))%M.

Definition forward (self : t) (x : tensor) : result tensor :=
  (x <- conv1 self x ;;
   let x := activation self x in
   x <- conv2 self x ;;
   let x := activation self x in
   x <- conv3 self x ;;
   ok x)%result.

End Methods.
End HyperpriorAnalysis.

Module HyperpriorSynthesis.

Record t : Type := Make {
  activation : tensor -> tensor;
  final_activation : option (tensor -> tensor);
  conv1 : layer;
  conv2 : layer;
  conv3 : layer
}.

Section Methods.
Context `{Backend}.

Definition __init__ (C N : Z) (activation : string)
  (final_activation : option string) : M t :=
  (activation <- lift (F.getattr activation) ;;
   conv1 <- nn (ConvTranspose2d N N 5 2 2 1) ;;
   conv2 <- nn (ConvTranspose2d N N 5 2 2 1) ;;
   conv3 <- nn (ConvTranspose2d N C 3 1 1 0) ;;
   final_activation <- lift match final_activation with
                            | Some name => rbind (F.getattr name) (fun f => ok (Some f))
                            | None => ok None
                            end ;;
   ret (Make activation final_activation conv1 conv2 conv3))%M.

Definition forward (self : t) (x : tensor) : result tensor :=
  (x <- conv1 self x ;;
   let x := activation self x in
   x <- conv2 self x ;;
   let x := activation self x in
   x <- conv3 self x ;;
   match final_activation self with
   | Some f => ok (f x)
   | None => ok x
   end)%result.

End Methods.
End HyperpriorSynthesis.

(** ** The result record *)

Record HyperInfo : Type := MakeHyperInfo {
  decoded : tensor;
  latent_nbpp : fscalar;
  hyperlatent_nbpp : fscalar;
  total_nbpp : fscalar;
  latent_qbpp : fscalar;
  hyperlatent_qbpp : fscalar;
  total_qbpp : fscalar;
  bitstring : option string;
  side_bitstring : option string
}.

(** ** [class Hyperprior(CodingModel)] *)

Module Hyperprior.

Record t : Type := Make {
  base : CodingModel.t;
  bottleneck_capacity : Z;
  scale_lower_bound : R;
  analysis_net : HyperpriorAnalysis.t;
  synthesis_mu : HyperpriorSynthesis.t;
  synthesis_std : HyperpriorSynthesis.t;
  hyperlatent_likelihood : HyperpriorDensity.t;
  training : bool
}.

Section Methods.
Context `{Backend}.

Definition __init__ (bottleneck_capacity hyperlatent_filters : Z)
  (mode likelihood_type : string) (scale_lower_bound : R) : M t :=
  (let super := CodingModel.__init__ bottleneck_capacity
                  MIN_LIKELIHOOD MAX_LIKELIHOOD in
   let hyperlatent_filters :=
     if String.eqb mode "small" then SMALL_HYPERLATENT_FILTERS
     else hyperlatent_filters in
   analysis_net <- HyperpriorAnalysis.__init__
                     bottleneck_capacity hyperlatent_filters "relu" ;;
   synthesis_mu <- HyperpriorSynthesis.__init__
                     bottleneck_capacity hyperlatent_filters "relu" None ;;
   synthesis_std <- HyperpriorSynthesis.__init__
                      bottleneck_capacity hyperlatent_filters "relu" None ;;
   hyperlatent_likelihood <- HyperpriorDensity.__init__ hyperlatent_filters 10
                               [3%Z; 3%Z; 3%Z] MIN_LIKELIHOOD MAX_LIKELIHOOD ;;
   standardized_CDF <-
     lift (if String.eqb likelihood_type "gaussian"
           then ok standardized_CDF_gaussian
           else if String.eqb likelihood_type "logistic"
                then ok standardized_CDF_logistic
                else raise (ValueError ("Unknown likelihood model: "
                                        ++ likelihood_type))) ;;
   ret (Make (CodingModel.Make (CodingModel.n_channels super)
                (CodingModel.min_likelihood super)
                (CodingModel.max_likelihood super) (Some standardized_CDF))
             bottleneck_capacity scale_lower_bound
             analysis_net synthesis_mu synthesis_std
             hyperlatent_likelihood true))%M.

Definition forward (self : t) (latents : tensor) (spatial_shape : list Z)
  : M HyperInfo :=
  (hyperlatents <- lift (HyperpriorAnalysis.forward (analysis_net self) latents) ;;

   noisy_hyperlatents <- CodingModel._quantize hyperlatents "noise" None ;;
   noisy_hyperlatent_likelihood <-
     lift (HyperpriorDensity.forward (hyperlatent_likelihood self)
             noisy_hyperlatents) ;;
   '(noisy_hyperlatent_bits, noisy_hyperlatent_bpp) <-
     lift (CodingModel._estimate_entropy
             noisy_hyperlatent_likelihood spatial_shape) ;;

   quantized_hyperlatents <- CodingModel._quantize hyperlatents "quantize" None ;;
   quantized_hyperlatent_likelihood <-
     lift (HyperpriorDensity.forward (hyperlatent_likelihood self)
             quantized_hyperlatents) ;;
   '(quantized_hyperlatent_bits, quantized_hyperlatent_bpp) <-
     lift (CodingModel._estimate_entropy
             quantized_hyperlatent_likelihood spatial_shape) ;;

   let hyperlatents_decoded :=
     if training self then noisy_hyperlatents else quantized_hyperlatents in

   latent_means <-
     lift (HyperpriorSynthesis.forward (synthesis_mu self) hyperlatents_decoded) ;;
   latent_scales <-
     lift (HyperpriorSynthesis.forward (synthesis_std self) hyperlatents_decoded) ;;
   let latent_scales :=
     lower_bound_toward latent_scales (scale_lower_bound self) in

   noisy_latents <- CodingModel._quantize latents "noise" (Some latent_means) ;;
   noisy_latent_likelihood <-
     lift (CodingModel.latent_likelihood (base self)
             noisy_latents latent_means latent_scales) ;;
   '(noisy_latent_bits, noisy_latent_bpp) <-
     lift (CodingModel._estimate_entropy noisy_latent_likelihood spatial_shape) ;;

   quantized_latents <-
     CodingModel._quantize latents "quantize" (Some latent_means) ;;
   quantized_latent_likelihood <-
     lift (CodingModel.latent_likelihood (base self)
             quantized_latents latent_means latent_scales) ;;
   '(quantized_latent_bits, quantized_latent_bpp) <-
     lift (CodingModel._estimate_entropy
             quantized_latent_likelihood spatial_shape) ;;

   latents_decoded <-
     lift (CodingModel.quantize_latents_st latents (Some latent_means)) ;;

   let info := MakeHyperInfo
     latents_decoded
     noisy_latent_bpp
     noisy_hyperlatent_bpp
     (fadd noisy_latent_bpp noisy_hyperlatent_bpp)
     quantized_latent_bpp
     quantized_hyperlatent_bpp
     (fadd quantized_latent_bpp quantized_hyperlatent_bpp)
     None
     None in
   ret info)%M.

End Methods.
End Hyperprior.

(** ** Discretized logistic mixture model *)

Definition get_num_DLMM_channels (C K : Z) (params : list string) : Z :=
  C * K * Z.of_nat (length params).

Definition get_num_mixtures (K_agg C : Z) (params : list string) : result Z :=
  let d := (Z.of_nat (length params) * C)%Z in
  if (d =? 0)%Z then raise ZeroDivisionError else ok (K_agg / d)%Z.

Definition default_params : list string := ["mu"; "scale"; "mix"]%string.

Definition unpack_likelihood_params (x conv_out : tensor)
  : result (tensor * (tensor * tensor * tensor) * Z) :=
  match shape x with
  | [N; C; H; W] =>
      (K_agg <- match shape conv_out with
                | _ :: k :: _ => ok k
                | _ => raise IndexError
                end ;;
       K <- get_num_mixtures (Z.of_nat K_agg) (Z.of_nat C) default_params ;;
       conv_out <- reshape conv_out
                     [Z.of_nat N; 3%Z; Z.of_nat C; K; Z.of_nat H; Z.of_nat W] ;;
       logit_pis <- select1 conv_out 0 ;;
       means <- select1 conv_out 1 ;;
       log_scales <- select1 conv_out 2 ;;
       let log_scales := lower_bound_toward log_scales LOG_SCALES_MIN in
       x <- reshape x [Z.of_nat N; Z.of_nat C; 1%Z; Z.of_nat H; Z.of_nat W] ;;
       ok (x, (logit_pis, means, log_scales), K))%result
  | _ => raise (ValueError "not enough values to unpack")
  end.

Module HyperpriorSynthesisDLMM.

Record t : Type := Make {
  activation : tensor -> tensor;
  final_activation : option (tensor -> tensor);
  conv1 : layer;
  conv2 : layer;
  conv3 : layer;
  conv_out : layer
}.

Section Methods.
Context `{Backend}.

Definition __init__ (C N : Z) (activation : string)
  (final_activation : option string) : M t :=
  (activation <- lift (F.getattr activation) ;;
   conv1 <- nn (ConvTranspose2d N N 5 2 2 1) ;;
   conv2 <- nn (ConvTranspose2d N N 5 2 2 1) ;;
   conv3 <- nn (ConvTranspose2d N C 3 1 1 0) ;;
   conv_out <- nn (Conv2d C (get_num_DLMM_channels C 4 default_params) 1 1 0 "zeros") ;;
   final_activation <- lift match final_activation with
                            | Some name => rbind (F.getattr name) (fun f => ok (Some f))
                            | None => ok None
                            end ;;
   ret (Make activation final_activation conv1 conv2 conv3 conv_out))%M.

Definition forward (self : t) (x : tensor) : result tensor :=
  (x <- conv1 self x ;;
   let x := activation self x in
   x <- conv2 self x ;;
   let x := activation self x in
   x <- conv3 self x ;;
   x <- conv_out self x ;;
   match final_activation self with
   | Some f => ok (f x)
   | None => ok x
   end)%result.

End Methods.
End HyperpriorSynthesisDLMM.

Module HyperpriorDLMM.

Record t : Type := Make {
  base : CodingModel.t;
  bottleneck_capacity : Z;
  scale_lower_bound : R;
  mixture_components : Z;
  analysis_net : HyperpriorAnalysis.t;
  synthesis_DLMM_params : HyperpriorSynthesisDLMM.t;
  hyperlatent_likelihood : HyperpriorDensity.t;
  training : bool
}.

Section Methods.
Context `{Backend}.

Definition __init__ (bottleneck_capacity hyperlatent_filters : Z)
  (mode likelihood_type : string) (scale_lower_bound : R)
  (mixture_components : Z) : M t :=
  (let super := CodingModel.__init__ bottleneck_capacity
                  MIN_LIKELIHOOD MAX_LIKELIHOOD in
   if negb (bottleneck_capacity <=? 128)%Z
   then lift (raise (AssertionError "Will probably run out of memory!"))
   else
   let hyperlatent_filters :=
     if String.eqb mode "small" then SMALL_HYPERLATENT_FILTERS
     else hyperlatent_filters in
   analysis_net <- HyperpriorAnalysis.__init__
                     bottleneck_capacity hyperlatent_filters "relu" ;;
   synthesis_DLMM_params <- HyperpriorSynthesisDLMM.__init__
                     bottleneck_capacity hyperlatent_filters "relu" None ;;
   hyperlatent_likelihood <- HyperpriorDensity.__init__ hyperlatent_filters 10
                               [3%Z; 3%Z; 3%Z] MIN_LIKELIHOOD MAX_LIKELIHOOD ;;
   standardized_CDF <-
     lift (if String.eqb likelihood_type "gaussian"
           then ok standardized_CDF_gaussian
           else if String.eqb likelihood_type "logistic"
                then ok standardized_CDF_logistic
                else raise (ValueError ("Unknown likelihood model: "
                                        ++ likelihood_type))) ;;
   ret (Make (CodingModel.Make (CodingModel.n_channels super)
                (CodingModel.min_likelihood super)
                (CodingModel.max_likelihood super) (Some standardized_CDF))
             bottleneck_capacity scale_lower_bound mixture_components
             analysis_net synthesis_DLMM_params
             hyperlatent_likelihood true))%M.

(** The first half of [latent_log_likelihood_DLMM], up to the assignment
    of [pmf_mixture_component]: the mixture logits and the floored
    probability mass of every component. *)
Definition pmf_mixture_component (self : t) (x DLMM_params : tensor)
  : result (tensor * tensor) :=
  ('(x, (logit_pis, means, log_scales), K) <-
     unpack_likelihood_params x DLMM_params ;;
   x_centered <- tsub x means ;;
   let x_centered := torch.abs x_centered in
   let inv_stds := torch.exp (tneg log_scales) in
   standardized_CDF <- match CodingModel.standardized_CDF (base self) with
                       | Some f => ok (tmap f)
                       | None => raise (AttributeError "standardized_CDF")
                       end ;;
   u <- tmul inv_stds (rsubs 0.5 x_centered) ;;
   let cdf_upper := standardized_CDF u in
   l <- tmul inv_stds (rsubs (-0.5) x_centered) ;;
   let cdf_lower := standardized_CDF l in
   d <- tsub cdf_upper cdf_lower ;;
   ok (logit_pis, lower_bound_toward d MIN_LIKELIHOOD))%result.

Definition latent_log_likelihood_DLMM (self : t) (x DLMM_params : tensor)
  : result tensor :=
  ('(logit_pis, pmf_mixture_component) <-
     pmf_mixture_component self x DLMM_params ;;
   let log_pmf_mixture_component := torch.log pmf_mixture_component in
   w <- F.log_softmax logit_pis 2 ;;
   lse_in <- tadd w log_pmf_mixture_component ;;
   log_DLMM <- torch.logsumexp lse_in 2 ;;
   ok log_DLMM)%result.

Definition forward (self : t) (latents : tensor) (spatial_shape : list Z)
  : M HyperInfo :=
  (hyperlatents <- lift (HyperpriorAnalysis.forward (analysis_net self) latents) ;;

   noisy_hyperlatents <- CodingModel._quantize hyperlatents "noise" None ;;
   noisy_hyperlatent_likelihood <-
     lift (HyperpriorDensity.forward (hyperlatent_likelihood self)
             noisy_hyperlatents) ;;
   '(noisy_hyperlatent_bits, noisy_hyperlatent_bpp) <-
     lift (CodingModel._estimate_entropy
             noisy_hyperlatent_likelihood spatial_shape) ;;

   quantized_hyperlatents <- CodingModel._quantize hyperlatents "quantize" None ;;
   quantized_hyperlatent_likelihood <-
     lift (HyperpriorDensity.forward (hyperlatent_likelihood self)
             quantized_hyperlatents) ;;
   '(quantized_hyperlatent_bits, quantized_hyperlatent_bpp) <-
     lift (CodingModel._estimate_entropy
             quantized_hyperlatent_likelihood spatial_shape) ;;

   let hyperlatents_decoded :=
     if training self then noisy_hyperlatents else quantized_hyperlatents in

   latent_DLMM_params <-
     lift (HyperpriorSynthesisDLMM.forward (synthesis_DLMM_params self)
             hyperlatents_decoded) ;;

   noisy_latents <- CodingModel._quantize latents "noise" None ;;
   noisy_latent_log_likelihood <-
     lift (latent_log_likelihood_DLMM self noisy_latents latent_DLMM_params) ;;
   '(noisy_latent_bits, noisy_latent_bpp) <-
     lift (CodingModel._estimate_entropy_log
             noisy_latent_log_likelihood spatial_shape) ;;

   quantized_latents <- CodingModel._quantize latents "quantize" None ;;
   quantized_latent_log_likelihood <-
     lift (latent_log_likelihood_DLMM self quantized_latents latent_DLMM_params) ;;
   '(quantized_latent_bits, quantized_latent_bpp) <-
     lift (CodingModel._estimate_entropy_log
             quantized_latent_log_likelihood spatial_shape) ;;

   latents_decoded <-
     (if training self
      then lift (CodingModel.quantize_latents_st latents None)
      else ret quantized_latents) ;;

   let info := MakeHyperInfo
     latents_decoded
     noisy_latent_bpp
     noisy_hyperlatent_bpp
     (fadd noisy_latent_bpp noisy_hyperlatent_bpp)
     quantized_latent_bpp
     quantized_hyperlatent_bpp
     (fadd quantized_latent_bpp quantized_hyperlatent_bpp)
     None
     None in
   ret info)%M.

End Methods.
End HyperpriorDLMM.

(** ** The formulas of the specification the code is compared with *)

Module Spec.

(** Rounding to the nearest integer, a tie going away from zero. *)
Definition round_half_away_from_zero (v : R) : R :=
  torch.sgn v * IZR (Zfloor (Rabs v + 0.5)).

(** Rounding to the nearest integer, a tie going up. *)
Definition is_round_half_up (v r : R) : Prop :=
  exists z : Z, r = IZR z /\ v - 1 / 2 < r <= v + 1 / 2.

(** One stage of the CDF as section 4.3 writes it: every [logits] on the
    right-hand side is the value of the previous stage. *)
Definition cdf_stage (H_k a_k b_k logits : tensor) : result tensor :=
  (m <- torch.bmm (F.softplus H_k) logits ;;
   u <- tadd m b_k ;;
   s <- tmul (torch.tanh a_k) (torch.tanh logits) ;;
   tadd u s)%result.

(** One stage with the correction term read at the affine value
    [softplus(H_k) logits + b_k] of the same stage. *)
Definition gated_stage (H_k a_k b_k logits : tensor) : result tensor :=
  (m <- torch.bmm (F.softplus H_k) logits ;;
   u <- tadd m b_k ;;
   s <- tmul (torch.tanh a_k) (torch.tanh u) ;;
   tadd u s)%result.

(** The stages [0..K] in order, each with the parameters of its index. *)
Definition cdf_logits (stage : tensor -> tensor -> tensor -> tensor -> result tensor)
  (H_ a_ b_ : nat -> tensor) (K : nat) (x : tensor) : result tensor :=
  fold_left (fun logits k => rbind logits (stage (H_ k) (a_ k) (b_ k)))
            (seq 0 (K + 1)) (ok x).

(** The two ways of combining the logits of the CDF at [x + 0.5] and
    [x - 0.5], for one entry: the one of [likelihood], and the one its
    comment calls naive. *)
Definition stabilized_difference (cdf_upper cdf_lower : R) : R :=
  let sign := - torch.sgn (cdf_upper + cdf_lower) in
  Rabs (torch.sigmoid_ (sign * cdf_upper) - torch.sigmoid_ (sign * cdf_lower)).

Definition naive_difference (cdf_upper cdf_lower : R) : R :=
  torch.sigmoid_ cdf_upper - torch.sigmoid_ cdf_lower.

End Spec.

(** ** A fixed environment for closed examples

    Every draw of the generator is the midpoint of its interval and every
    convolution has zero weights, so that a layer maps an input of the
    expected number of channels to zeros of the output size of the layer. *)

Module Fixture.

Definition conv_size (k s p n : Z) : Z := ((n + 2 * p - k) / s + 1)%Z.

Definition convT_size (k s p op n : Z) : Z := ((n - 1) * s - 2 * p + k + op)%Z.

Definition zero_layer (in_channels out_channels : Z) (out_size : Z -> Z)
  (min_size : Z) : layer :=
  fun x =>
    match shape x with
    | [N; C; H; W] =>
        if ((Z.of_nat C =? in_channels)%Z
            && (min_size <=? Z.of_nat H)%Z && (min_size <=? Z.of_nat W)%Z
            && (0 <? out_size (Z.of_nat H))%Z
            && (0 <? out_size (Z.of_nat W))%Z)%bool
        then ok (torch.zeros [N; Z.to_nat out_channels;
                              Z.to_nat (out_size (Z.of_nat H));
                              Z.to_nat (out_size (Z.of_nat W))])
        else shape_error
    | _ => shape_error
    end.

Definition zero_Conv2d (in_channels out_channels kernel_size stride padding : Z)
  (padding_mode : string) (g : nat) : option layer * nat :=
  (if ((0 <=? in_channels)%Z && (0 <=? out_channels)%Z)%bool
   then Some (zero_layer in_channels out_channels
                (conv_size kernel_size stride padding)
                (if String.eqb padding_mode "reflect" then padding + 1 else 0)%Z)
   else None, S g).

Definition zero_ConvTranspose2d (in_channels out_channels kernel_size stride
  padding output_padding : Z) (g : nat) : option layer * nat :=
  (if ((0 <=? in_channels)%Z && (0 <=? out_channels)%Z)%bool
   then Some (zero_layer in_channels out_channels
                (convT_size kernel_size stride padding output_padding) 0%Z)
   else None, S g).

Definition midpoint (t : tensor) (a b : R) (g : nat) : tensor * nat :=
  (torch.full (shape t) ((a + b) / 2), S g).

Definition backend : Backend :=
  {| rng := nat;
     uniform_ := midpoint;
     uniform_shape := fun _ _ _ _ => eq_refl;
     Conv2d := zero_Conv2d;
     ConvTranspose2d := zero_ConvTranspose2d;
     standardized_CDF_gaussian := fun v => torch.sigmoid_ (1.702 * v);
     standardized_CDF_logistic := torch.sigmoid_ |}.

(** A one-stage density ([filters = ()]) with [H_0 = 0], [a_0 = 1], [b_0 = 1]. *)
Definition one_stage : HyperpriorDensity.t :=
  HyperpriorDensity.Make 10 [] MIN_LIKELIHOOD MAX_LIKELIHOOD
    [("b_0"%string, torch.full [1; 1; 1]%nat 1);
     ("a_0"%string, torch.full [1; 1; 1]%nat 1);
     ("H_0"%string, torch.full [1; 1; 1]%nat 0)].

(** A density of one channel with the default [filters = (3, 3, 3)] whose
    parameters are all zero. *)
Definition zero_density : HyperpriorDensity.t :=
  HyperpriorDensity.Make 10 [3%Z; 3%Z; 3%Z] MIN_LIKELIHOOD MAX_LIKELIHOOD
    [("b_3"%string, torch.zeros [1; 1; 1]%nat);
     ("a_3"%string, torch.zeros [1; 1; 1]%nat);
     ("H_3"%string, torch.zeros [1; 1; 3]%nat);
     ("b_2"%string, torch.zeros [1; 3; 1]%nat);
     ("a_2"%string, torch.zeros [1; 3; 1]%nat);
     ("H_2"%string, torch.zeros [1; 3; 3]%nat);
     ("b_1"%string, torch.zeros [1; 3; 1]%nat);
     ("a_1"%string, torch.zeros [1; 3; 1]%nat);
     ("H_1"%string, torch.zeros [1; 3; 3]%nat);
     ("b_0"%string, torch.zeros [1; 3; 1]%nat);
     ("a_0"%string, torch.zeros [1; 3; 1]%nat);
     ("H_0"%string, torch.zeros [1; 3; 1]%nat)].

(** The widths [(1,) + filters + (1,)] of [zero_density]. *)
Definition zero_widths : list nat := [1; 3; 3; 3; 1]%nat.

(** The transforms that the constructors build here for one latent channel
    and one hyperlatent channel. *)
Definition analysis : HyperpriorAnalysis.t :=
  HyperpriorAnalysis.Make F.relu 2
    (zero_layer 1 1 (conv_size 3 1 1) 0)
    (zero_layer 1 1 (conv_size 5 2 2) 3)
    (zero_layer 1 1 (conv_size 5 2 2) 3).

Definition synthesis : HyperpriorSynthesis.t :=
  HyperpriorSynthesis.Make F.relu None
    (zero_layer 1 1 (convT_size 5 2 2 1) 0)
    (zero_layer 1 1 (convT_size 5 2 2 1) 0)
    (zero_layer 1 1 (convT_size 3 1 1 0) 0).

Definition synthesis_DLMM : HyperpriorSynthesisDLMM.t :=
  HyperpriorSynthesisDLMM.Make F.relu None
    (zero_layer 1 1 (convT_size 5 2 2 1) 0)
    (zero_layer 1 1 (convT_size 5 2 2 1) 0)
    (zero_layer 1 1 (convT_size 3 1 1 0) 0)
    (zero_layer 1 12 (conv_size 1 1 0) 0).

(** Two models of one latent channel over [zero_density], with the
    logistic CDF. *)
Definition hyperprior (training : bool) : Hyperprior.t :=
  Hyperprior.Make
    (CodingModel.Make 1 MIN_LIKELIHOOD MAX_LIKELIHOOD (Some torch.sigmoid_))
    1 MIN_SCALE analysis synthesis synthesis zero_density training.

Definition hyperprior_DLMM (training : bool) : HyperpriorDLMM.t :=
  HyperpriorDLMM.Make
    (CodingModel.Make 1 MIN_LIKELIHOOD MAX_LIKELIHOOD (Some torch.sigmoid_))
    1 MIN_SCALE 4 analysis synthesis_DLMM zero_density training.

End Fixture.

(** ** Well-formed parameter registries

    The widths [(1,) + filters + (1,)] of the stages of a density, and the
    registry that [HyperpriorDensity.__init__] builds for [C] channels:
    stage [k] owns a weight of shape [(C, w[k+1], w[k])] and a scale and a
    bias of shape [(C, w[k+1], 1)]. *)

Definition widths (self : HyperpriorDensity.t) : list nat :=
  (1 :: map Z.to_nat (HyperpriorDensity.filters self) ++ [1])%nat.

Definition stage_registered (self : HyperpriorDensity.t) (C : nat) (w : list nat)
  (k : nat) : Prop :=
  exists H_k a_k b_k,
    HyperpriorDensity.getattr self (HyperpriorDensity.format "H_" k) = ok H_k
    /\ HyperpriorDensity.getattr self (HyperpriorDensity.format "a_" k) = ok a_k
    /\ HyperpriorDensity.getattr self (HyperpriorDensity.format "b_" k) = ok b_k
    /\ shape H_k = [C; nth (k + 1) w O; nth k w O]
    /\ shape a_k = [C; nth (k + 1) w O; 1%nat]
    /\ shape b_k = [C; nth (k + 1) w O; 1%nat].

Definition registered (self : HyperpriorDensity.t) (C : nat) : Prop :=
  forall k, (k <= length (HyperpriorDensity.filters self))%nat ->
    stage_registered self C (widths self) k.

(** The registry of [self'] holds what the registry of [self] holds for
    the parameters of stage [k]. *)
Definition same_stage (self self' : HyperpriorDensity.t) (k : nat) : Prop :=
  forall prefix, In prefix ["H_"; "a_"; "b_"]%string ->
    HyperpriorDensity.getattr self' (HyperpriorDensity.format prefix k)
    = HyperpriorDensity.getattr self (HyperpriorDensity.format prefix k).

(** ** [pad_factor], of the [__main__] block

    [F.pad] belongs to [torch]: it is a variable of the embedding. *)

(** Python's [%] on integers: the remainder has the sign of the divisor. *)
Definition pymod (a b : Z) : result Z :=
  if (b =? 0)%Z then raise ZeroDivisionError else ok (a mod b)%Z.

Section PadFactor.
Variable F_pad : tensor -> Z * Z * Z * Z -> string -> result tensor.

Definition pad_factor (input_image : tensor) (spatial_dims : list Z) (factor : Z)
  : result tensor :=
  match spatial_dims with
  | H :: W :: _ =>
      (r <- pymod H factor ;;
       pad_H <- pymod (factor - r) factor ;;
       r <- pymod W factor ;;
       pad_W <- pymod (factor - r) factor ;;
       F_pad input_image (0, pad_W, 0, pad_H)%Z "reflect")%result
  | _ => raise IndexError
  end.

End PadFactor.

(** * Properties

    ** Broadcasting *)
Lemma broadcast_rev_diag (s : list nat) : broadcast_rev s s = Some s.
Proof.
  induction s as [|d s IH]; simpl; [reflexivity|].
  rewrite IH, Nat.eqb_refl. reflexivity.
Qed.

Lemma broadcast_shapes_diag (s : list nat) : broadcast_shapes s s = Some s.
Proof.
  unfold broadcast_shapes. rewrite broadcast_rev_diag. simpl.
  now rewrite rev_involutive.
Qed.

Lemma clamp_combine_idem (s i : list nat) :
  let f := fun dk : nat * nat => if (fst dk =? 1)%nat then 0%nat else snd dk in
  map f (combine s (map f (combine s i))) = map f (combine s i).
Proof.
  intros f. revert i. induction s as [|d s IH]; intros [|k i]; simpl; try reflexivity.
  rewrite IH. f_equal. unfold f. simpl. destruct (d =? 1)%nat eqn:E; simpl; rewrite ?E; reflexivity.
Qed.

Lemma expand_index_length (s i : list nat) :
  (length (expand_index s i) <= length s)%nat.
Proof.
  unfold expand_index. rewrite length_map, length_combine. lia.
Qed.

Lemma expand_index_idem (s i : list nat) :
  expand_index s (expand_index s i) = expand_index s i.
Proof.
  pose proof (expand_index_length s i) as Hl.
  unfold expand_index at 1.
  replace (length (expand_index s i) - length s)%nat with 0%nat by lia.
  simpl. unfold expand_index. apply clamp_combine_idem.
Qed.

Lemma expand_index_valid (s i : list nat) :
  valid_index s i -> expand_index s i = i.
Proof.
  unfold valid_index, expand_index. intros Hv.
  rewrite (Forall2_length Hv), Nat.sub_diag. simpl.
  induction Hv as [|k d i s Hk Hv IH]; simpl; [reflexivity|].
  rewrite IH. f_equal. destruct (Nat.eqb_spec d 1); [lia|reflexivity].
Qed.

(** ** Floating-point rounding *)
Lemma ln_2_pos : 0 < ln 2.
Proof. pose proof ln_lt_2. lra. Qed.

Lemma pow2_exp (z : Z) : powerRZ 2 z = exp (IZR z * ln 2).
Proof. rewrite powerRZ_Rpower by lra. reflexivity. Qed.

Lemma pow2_pos (z : Z) : 0 < powerRZ 2 z.
Proof. apply powerRZ_lt. lra. Qed.

Lemma pow2_lt (a b : Z) : (a < b)%Z -> powerRZ 2 a < powerRZ 2 b.
Proof.
  intros L. rewrite !pow2_exp. apply exp_increasing.
  apply Rmult_lt_compat_r; [apply ln_2_pos|apply IZR_lt, L].
Qed.

Lemma pow2_lt_inv (a b : Z) : powerRZ 2 a < powerRZ 2 b -> (a < b)%Z.
Proof.
  intros L. destruct (Z_lt_le_dec a b) as [|G]; [assumption|exfalso].
  destruct (Zle_lt_or_eq _ _ G) as [G'|G'].
  - apply pow2_lt in G'. lra.
  - subst. lra.
Qed.

Lemma IZR_pow2 (n : Z) : (0 <= n)%Z -> IZR (2 ^ n) = powerRZ 2 n.
Proof.
  intros P. rewrite <- (Z2Nat.id n) at 1 2 by assumption.
  rewrite <- pow_IZR, <- pow_powerRZ. reflexivity.
Qed.

Lemma mag_bounds (v : R) :
  v <> 0 -> powerRZ 2 (dtype.mag v) <= Rabs v < powerRZ 2 (dtype.mag v + 1).
Proof.
  intros N. pose proof ln_2_pos as L2.
  assert (P : 0 < Rabs v) by (apply Rabs_pos_lt, N).
  unfold dtype.mag. pose proof (Zfloor_bound (ln (Rabs v) / ln 2)) as [Lo Hi].
  set (m := Zfloor _) in *.
  assert (Lo' : IZR m * ln 2 <= ln (Rabs v)).
  { apply (Rmult_le_compat_r (ln 2)) in Lo; [|lra].
    replace (ln (Rabs v) / ln 2 * ln 2) with (ln (Rabs v)) in Lo by (field; lra). exact Lo. }
  assert (Hi' : ln (Rabs v) < IZR (m + 1) * ln 2).
  { rewrite plus_IZR. apply (Rmult_lt_compat_r (ln 2)) in Hi; [|lra].
    replace (ln (Rabs v) / ln 2 * ln 2) with (ln (Rabs v)) in Hi by (field; lra). exact Hi. }
  rewrite !pow2_exp. rewrite <- (exp_ln (Rabs v)) at 1 2 by exact P. split.
  - destruct Lo' as [Lo'|Lo']; [left; apply exp_increasing, Lo'|right; rewrite Lo'; reflexivity].
  - apply exp_increasing, Hi'.
Qed.

Lemma mag_unique (v : R) (m : Z) :
  powerRZ 2 m <= Rabs v < powerRZ 2 (m + 1) -> dtype.mag v = m.
Proof.
  intros [Lo Hi].
  assert (N : v <> 0).
  { intros ->. rewrite Rabs_R0 in Lo. pose proof (pow2_pos m). lra. }
  destruct (mag_bounds v N) as [Lo' Hi'].
  assert (A : (m < dtype.mag v + 1)%Z) by (apply pow2_lt_inv; lra).
  assert (B : (dtype.mag v < m + 1)%Z) by (apply pow2_lt_inv; lra).
  lia.
Qed.

Lemma round_half_even_IZR (n : Z) : dtype.round_half_even (IZR n) = n.
Proof.
  unfold dtype.round_half_even. rewrite ZfloorZ.
  destruct (Rlt_dec (IZR n - IZR n) (1 / 2)); [reflexivity|lra].
Qed.

(** A real [k * 2^e] whose [k] has at most [prec] bits is a number of the
    type: rounding leaves it alone. *)
Lemma round_representable (prec emin k e : Z) :
  (Z.abs k < 2 ^ prec)%Z -> (emin <= e)%Z ->
  dtype.round prec emin (IZR k * powerRZ 2 e) = IZR k * powerRZ 2 e.
Proof.
  intros Hk He.
  assert (Hp : (0 <= prec)%Z).
  { destruct (Z_lt_le_dec prec 0) as [L|]; [|assumption].
    rewrite (Z.pow_neg_r 2 prec L) in Hk. lia. }
  set (v := IZR k * powerRZ 2 e). unfold dtype.round.
  destruct (Req_dec_T v 0) as [Z0|N]; [symmetry; exact Z0|].
  pose proof (pow2_pos e) as Pe.
  destruct (mag_bounds v N) as [Lo _].
  assert (A : Rabs v < powerRZ 2 (prec + e)).
  { unfold v. rewrite Rabs_mult, (Rabs_right (powerRZ 2 e)) by lra.
    rewrite <- abs_IZR, powerRZ_add by lra. rewrite <- (IZR_pow2 prec) by assumption.
    apply Rmult_lt_compat_r; [exact Pe|apply IZR_lt, Hk]. }
  assert (B : (dtype.mag v < prec + e)%Z) by (apply pow2_lt_inv; lra).
  unfold dtype.ulp. set (c := Z.max (dtype.mag v - prec + 1) emin).
  assert (C : (c <= e)%Z) by lia.
  pose proof (pow2_pos c) as Pc.
  assert (D : v / powerRZ 2 c = IZR (k * 2 ^ (e - c))).
  { rewrite mult_IZR, IZR_pow2 by lia. unfold v.
    replace e with ((e - c) + c)%Z at 1 by lia.
    rewrite powerRZ_add by lra. field. lra. }
  rewrite D, round_half_even_IZR, <- D. field. lra.
Qed.

Lemma round_integer (prec emin z : Z) :
  (Z.abs z < 2 ^ prec)%Z -> (emin <= 0)%Z ->
  dtype.round prec emin (IZR z) = IZR z.
Proof.
  intros Hz He. pose proof (round_representable prec emin z 0 Hz He) as E.
  cbn [powerRZ] in E. rewrite Rmult_1_r in E. exact E.
Qed.

(** An integer below [2^(prec-1)] in magnitude, plus one half, is a number
    of the type. *)
Lemma round_integer_half (prec emin z : Z) :
  (Z.abs z < 2 ^ (prec - 1))%Z -> (emin <= -1)%Z ->
  dtype.round prec emin (IZR z + 0.5) = IZR z + 0.5.
Proof.
  intros Hz He.
  assert (Hp : (0 <= prec - 1)%Z).
  { destruct (Z_lt_le_dec (prec - 1) 0) as [L|]; [|assumption].
    rewrite (Z.pow_neg_r 2 _ L) in Hz. lia. }
  assert (E2 : (2 ^ prec = 2 * 2 ^ (prec - 1))%Z).
  { replace prec with (Z.succ (prec - 1)) at 1 by lia. apply Z.pow_succ_r, Hp. }
  replace (IZR z + 0.5) with (IZR (2 * z + 1) * powerRZ 2 (-1)).
  - apply round_representable; lia.
  - rewrite plus_IZR, mult_IZR. change (powerRZ 2 (-1)) with (/ (2 * 1)). lra.
Qed.

(** In [float32] the sum of [0.5 - 2^-25], the number before [0.5], and
    [0.5] lies half-way between the numbers [1 - 2^-24] and [1]: it is
    rounded to [1], whose significand is even. *)
Lemma float32_tie_below_one : dtype.float32 (1 - / 33554432) = 1.
Proof.
  unfold dtype.float32, dtype.round.
  destruct (Req_dec_T (1 - / 33554432) 0) as [Z0|_]; [lra|].
  unfold dtype.ulp.
  assert (M : dtype.mag (1 - / 33554432) = (-1)%Z).
  { apply mag_unique. rewrite Rabs_right by lra.
    change (powerRZ 2 (-1)) with (/ (2 * 1)). change (powerRZ 2 (-1 + 1)) with 1. lra. }
  rewrite M. change (Z.max (-1 - 24 + 1) (-149)) with (-24)%Z.
  assert (U : powerRZ 2 (-24) = / 16777216).
  { change (powerRZ 2 (-24)) with (/ 2 ^ 24). f_equal.
    change 2 with (IZR 2). rewrite pow_IZR. reflexivity. }
  rewrite U.
  assert (Q : (1 - / 33554432) / / 16777216 = IZR 16777215 + 1 / 2) by (field_simplify; lra).
  rewrite Q. unfold dtype.round_half_even.
  assert (Fl : Zfloor (IZR 16777215 + 1 / 2) = 16777215%Z) by (apply Zfloor_eq; lra).
  rewrite Fl.
  destruct (Rlt_dec (IZR 16777215 + 1 / 2 - IZR 16777215) (1 / 2)) as [L|_]; [lra|].
  destruct (Rlt_dec (1 / 2) (IZR 16777215 + 1 / 2 - IZR 16777215)) as [L|_]; [lra|].
  change (Z.even 16777215) with false. cbv iota.
  change (16777215 + 1)%Z with 16777216%Z. field.
Qed.

(** ** The quantizers *)
Lemma map2_same_shape (f : R -> R -> R) (a b : tensor) :
  shape b = shape a ->
  map2 f a b = ok (Tensor (shape a)
                     (fun i => f (item a (expand_index (shape a) i))
                                 (item b (expand_index (shape b) i)))).
Proof.
  intros E. unfold map2. rewrite E, broadcast_shapes_diag. reflexivity.
Qed.

(** [floor(v + 0.5)] is the nearest integer, the upper one at a tie. *)
Lemma Zfloor_half_up (v : R) : Spec.is_round_half_up v (IZR (Zfloor (v + 0.5))).
Proof.
  exists (Zfloor (v + 0.5)). split; [reflexivity|].
  pose proof (Zfloor_bound (v + 0.5)). lra.
Qed.


Lemma broadcast_rev_absorb (a b r : list nat) :
  broadcast_rev a b = Some r -> broadcast_rev r b = Some r.
Proof.
  revert b r. induction a as [|x a IH]; intros b r E.
  - cbn [broadcast_rev] in E. injection E as <-. apply broadcast_rev_diag.
  - destruct b as [|y b].
    + cbn [broadcast_rev] in E. injection E as <-. reflexivity.
    + cbn [broadcast_rev] in E.
      destruct (broadcast_rev a b) as [r'|] eqn:Er; [|discriminate].
      specialize (IH b r' Er).
      destruct (Nat.eqb_spec x y) as [->|Nxy].
      * injection E as <-. cbn [broadcast_rev]. rewrite IH, Nat.eqb_refl. reflexivity.
      * destruct (Nat.eqb_spec x 1) as [X1|X1].
        -- injection E as <-. cbn [broadcast_rev]. rewrite IH, Nat.eqb_refl. reflexivity.
        -- destruct (Nat.eqb_spec y 1) as [Y1|Y1]; [|discriminate].
           injection E as <-. cbn [broadcast_rev]. rewrite IH.
           destruct (Nat.eqb_spec x y); [contradiction|].
           destruct (Nat.eqb_spec x 1); [contradiction|].
           destruct (Nat.eqb_spec y 1); [reflexivity|contradiction].
Qed.

(** The shape of [a - b] broadcasts with that of [b] to itself. *)
Lemma broadcast_shapes_absorb (a b s : list nat) :
  broadcast_shapes a b = Some s -> broadcast_shapes s b = Some s.
Proof.
  unfold broadcast_shapes. intros E.
  destruct (broadcast_rev (rev a) (rev b)) as [r|] eqn:Er; [|discriminate].
  cbn [option_map] in E. injection E as <-.
  rewrite rev_involutive, (broadcast_rev_absorb _ _ _ Er). reflexivity.
Qed.

(** With the rounding that rounds nothing, [_quantize_rounded] is
    [_quantize]. *)
Lemma quantize_rounded_exact `{Backend} (x : tensor) (mode : string)
  (means : option tensor) (g : rng) :
  same_result (fst (CodingModel._quantize_rounded (fun v => v) x mode means g))
              (fst (CodingModel._quantize x mode means g))
  /\ snd (CodingModel._quantize_rounded (fun v => v) x mode means g)
     = snd (CodingModel._quantize x mode means g).
Proof.
  unfold CodingModel._quantize_rounded, CodingModel._quantize, lift.
  destruct (String.eqb mode "noise").
  - destruct (uniform_ (torch.zeros_like x) (-0.5) 0.5 g) as [noise g1].
    simpl. split; [|reflexivity].
    destruct (tadd x noise) as [e|t]; simpl; [reflexivity|].
    split; [reflexivity|]. intros i _. reflexivity.
  - destruct (String.eqb mode "quantize"); [|split; reflexivity].
    simpl. split; [|reflexivity].
    destruct means as [m|]; simpl.
    + unfold tsub at 1 2. unfold map2 at 1 2.
      destruct (broadcast_shapes (shape x) (shape m)) as [s|]; simpl; [|reflexivity].
      unfold tadd, map2; simpl.
      destruct (broadcast_shapes s (shape m)) as [s'|]; simpl; [|reflexivity].
      split; [reflexivity|]. intros i _. reflexivity.
    + split; [reflexivity|]. intros i _. reflexivity.
Qed.

(** C2, as stated, fails in two ways, shown here for tensors of
    [float32].  At [x = [-0.5]], [_quantize] returns [0], where rounding
    with ties away from zero gives [-1].  At [x = [0.5 - 2^-25]], the
    number before [0.5], the sum [x + 0.5] is rounded to [1] and
    [_quantize] returns [1], which is not the integer nearest to [x]:
    that is [0]. *)
Lemma quantize_tie_not_away_from_zero :
  (exists q : tensor,
     fst (@CodingModel._quantize_rounded Fixture.backend dtype.float32
            (torch.full [1%nat] (-0.5)) "quantize" None 0%nat) = inr q
     /\ item q [0%nat] = 0
     /\ Spec.round_half_away_from_zero (item (torch.full [1%nat] (-0.5)) [0%nat]) = -1
     /\ item q [0%nat]
        <> Spec.round_half_away_from_zero (item (torch.full [1%nat] (-0.5)) [0%nat]))
  /\ (exists q : tensor,
        fst (@CodingModel._quantize_rounded Fixture.backend dtype.float32
               (torch.full [1%nat] (1 / 2 - / 33554432)) "quantize" None 0%nat) = inr q
        /\ item q [0%nat] = 1
        /\ Spec.round_half_away_from_zero
             (item (torch.full [1%nat] (1 / 2 - / 33554432)) [0%nat]) = 0
        /\ 1 / 2 < Rabs (item q [0%nat]
                         - item (torch.full [1%nat] (1 / 2 - / 33554432)) [0%nat])).
Proof.
  split.
  - eexists. split; [reflexivity|]. cbn [item torch.floor torch.full tmap tadds].
    assert (code : IZR (Zfloor (dtype.float32 (-0.5 + 0.5))) = 0).
    { replace (-0.5 + 0.5) with 0 by lra. unfold dtype.float32, dtype.round.
      destruct (Req_dec_T 0 0) as [_|N]; [|contradiction].
      change 0 with (IZR 0). now rewrite ZfloorZ. }
    assert (spec : Spec.round_half_away_from_zero (-0.5) = -1).
    { unfold Spec.round_half_away_from_zero, torch.sgn.
      destruct (Rlt_dec 0 (-0.5)) as [L|_]; [lra|].
      destruct (Rlt_dec (-0.5) 0) as [_|L]; [|lra].
      replace (Rabs (-0.5) + 0.5) with (IZR 1).
      - rewrite ZfloorZ. lra.
      - rewrite Rabs_left by lra. lra. }
    rewrite code, spec. repeat split; lra.
  - eexists. split; [reflexivity|]. cbn [item torch.floor torch.full tmap tadds].
    assert (code : IZR (Zfloor (dtype.float32 (1 / 2 - / 33554432 + 0.5))) = 1).
    { replace (1 / 2 - / 33554432 + 0.5) with (1 - / 33554432) by lra.
      rewrite float32_tie_below_one. change 1 with (IZR 1). now rewrite ZfloorZ. }
    assert (spec : Spec.round_half_away_from_zero (1 / 2 - / 33554432) = 0).
    { unfold Spec.round_half_away_from_zero, torch.sgn.
      destruct (Rlt_dec 0 (1 / 2 - / 33554432)) as [_|L]; [|lra].
      rewrite Rabs_right by lra.
      assert (Fl : Zfloor (1 / 2 - / 33554432 + 0.5) = 0%Z) by (apply Zfloor_eq; lra).
      rewrite Fl. lra. }
    rewrite code, spec. repeat split; try reflexivity.
    rewrite Rabs_right; lra.
Qed.

(** C2, amended.  For tensors of a floating-point type with the rounding
    [fl], [_quantize(x, mode='quantize')] returns, for every entry,
    [floor(fl(x + 0.5))]: wherever the sum [x + 0.5] is a number of the
    type, this is the nearest integer, a tie going up (towards
    [+infinity]).  With [means], of any shape that broadcasts with that of
    [x] (for another shape the subtraction raises), the mean is subtracted
    before this rounding and added back after it, each result being
    rounded: the entry is [fl(floor(fl(fl(x - means) + 0.5)) + means)],
    which is [means] plus the integer nearest to [x - means], a tie going
    up, wherever the three results are numbers of the type.  The
    generator is left alone. *)
Theorem quantize_rounds_half_up `{Backend} (fl : R -> R) (x : tensor) (g : rng) :
  (exists q : tensor,
      CodingModel._quantize_rounded fl x "quantize" None g = (inr q, g)
      /\ shape q = shape x
      /\ forall i,
           item q i = IZR (Zfloor (fl (item x i + 0.5)))
           /\ (fl (item x i + 0.5) = item x i + 0.5 ->
               Spec.is_round_half_up (item x i) (item q i)))
  /\ (forall means : tensor,
      match broadcast_shapes (shape x) (shape means) with
      | None =>
          CodingModel._quantize_rounded fl x "quantize" (Some means) g
          = (shape_error, g)
      | Some s =>
          exists q : tensor,
            CodingModel._quantize_rounded fl x "quantize" (Some means) g = (inr q, g)
            /\ shape q = s
            /\ forall i, valid_index s i ->
                 let v := item x (expand_index (shape x) i) in
                 let m := item means (expand_index (shape means) i) in
                 let n := IZR (Zfloor (v - m + 0.5)) in
                 item q i = fl (IZR (Zfloor (fl (fl (v - m) + 0.5))) + m)
                 /\ (fl (v - m) = v - m ->
                     fl (v - m + 0.5) = v - m + 0.5 ->
                     fl (n + m) = n + m ->
                     item q i = n + m /\ Spec.is_round_half_up (v - m) n)
      end).
Proof.
  split.
  - eexists. split; [reflexivity|]. split; [reflexivity|].
    intros i. cbn [item torch.floor tmap tadds]. split; [reflexivity|].
    intros ->. apply Zfloor_half_up.
  - intros means. unfold CodingModel._quantize_rounded, lift.
    cbn [String.eqb Ascii.eqb Bool.eqb]. cbv iota.
    destruct (broadcast_shapes (shape x) (shape means)) as [s|] eqn:B.
    2:{ unfold tsub, map2. rewrite B. reflexivity. }
    unfold tsub, tadd, map2. rewrite B. cbn [rbind ok shape torch.floor tmap tadds].
    rewrite (broadcast_shapes_absorb _ _ _ B). cbn [rbind ok].
    eexists. split; [reflexivity|]. split; [reflexivity|].
    intros i Hi. cbv zeta. cbn [item tmap]. rewrite (expand_index_valid s i Hi).
    split; [reflexivity|].
    intros E1 E2 E3. unfold torch.floor, tadds, tmap. cbn [item].
    rewrite E1, E2, E3. split; [reflexivity|apply Zfloor_half_up].
Qed.

(** ** The factorized density: [cdf_logits] *)
Lemma fold_left_ext_in {A B} (f g : A -> B -> A) (l : list B) (a : A) :
  (forall a k, In k l -> f a k = g a k) -> fold_left f l a = fold_left g l a.
Proof.
  revert a. induction l as [|k l IH]; intros a E; simpl; [reflexivity|].
  rewrite (E a k) by now left. apply IH. intros a' k' Hk. apply E. now right.
Qed.

Lemma rbind_ok {A} (m : result A) : rbind m ok = m.
Proof. now destruct m. Qed.

Lemma rbind_ext {A B} (m : result A) (f g : A -> result B) :
  (forall a, f a = g a) -> rbind m f = rbind m g.
Proof. intros E. destruct m; simpl; [reflexivity|apply E]. Qed.

(** C10.  [cdf_logits(x, update_parameters=False)] returns exactly what
    [cdf_logits(x, update_parameters=True)] returns. *)
Theorem cdf_logits_detach_same_value (self : HyperpriorDensity.t) (x : tensor) :
  HyperpriorDensity.cdf_logits self x false = HyperpriorDensity.cdf_logits self x true.
Proof.
  unfold HyperpriorDensity.cdf_logits. apply fold_left_ext_in.
  intros [e|l] k _; simpl; [reflexivity|].
  unfold HyperpriorDensity.cdf_stage, detach; simpl. reflexivity.
Qed.

(** When the parameters of the stages [0..K] are registered, [cdf_logits]
    is the composition of the stages in this order, each reading the
    correction term at its own affine value. *)
Lemma cdf_logits_unfold (self : HyperpriorDensity.t) (x : tensor)
  (update_parameters : bool) (H_ a_ b_ : nat -> tensor) :
  (forall k, (k <= length (HyperpriorDensity.filters self))%nat ->
     HyperpriorDensity.getattr self (HyperpriorDensity.format "H_" k) = ok (H_ k)
     /\ HyperpriorDensity.getattr self (HyperpriorDensity.format "a_" k) = ok (a_ k)
     /\ HyperpriorDensity.getattr self (HyperpriorDensity.format "b_" k) = ok (b_ k)) ->
  HyperpriorDensity.cdf_logits self x update_parameters
  = Spec.cdf_logits Spec.gated_stage H_ a_ b_
      (length (HyperpriorDensity.filters self)) x.
Proof.
  intros Hreg. unfold HyperpriorDensity.cdf_logits, Spec.cdf_logits.
  apply fold_left_ext_in. intros [e|l] k Hk; simpl; [reflexivity|].
  apply in_seq in Hk. destruct (Hreg k) as (EH & Ea & Eb); [lia|].
  unfold HyperpriorDensity.cdf_stage, Spec.gated_stage.
  rewrite EH, Ea, Eb. simpl. unfold detach.
  destruct update_parameters; simpl;
    repeat (apply rbind_ext; intros ?); apply rbind_ok.
Qed.

(** C1, amended.  With [H_k], [a_k], [b_k] the registered parameters of the
    stages [k = 0..K], [cdf_logits] starts from [logits = x] and applies, for
    each [k] in order, [u = bmm(softplus(H_k), logits) + b_k] and then
    [logits = u + tanh(a_k) * tanh(u)]: the last [tanh] reads the affine
    value [u] of the same stage, not the output of the previous stage. *)
Theorem cdf_logits_gated_stages (self : HyperpriorDensity.t) (x : tensor)
  (update_parameters : bool) (H_ a_ b_ : nat -> tensor) :
  (forall k, (k <= length (HyperpriorDensity.filters self))%nat ->
     HyperpriorDensity.getattr self (HyperpriorDensity.format "H_" k) = ok (H_ k)
     /\ HyperpriorDensity.getattr self (HyperpriorDensity.format "a_" k) = ok (a_ k)
     /\ HyperpriorDensity.getattr self (HyperpriorDensity.format "b_" k) = ok (b_ k)) ->
  HyperpriorDensity.cdf_logits self x update_parameters
  = Spec.cdf_logits Spec.gated_stage H_ a_ b_
      (length (HyperpriorDensity.filters self)) x.
Proof. apply cdf_logits_unfold. Qed.

Lemma tanh_1_neq_0 : Rtrigo_def.tanh 1 <> 0.
Proof.
  unfold Rtrigo_def.tanh.
  assert (0 < sinh 1) by (rewrite <- sinh_0; apply sinh_lt; lra).
  assert (0 < cosh 1) by (unfold cosh; pose proof (exp_pos 1); pose proof (exp_pos (Ropp 1)); lra).
  apply Rgt_not_eq. apply Rdiv_lt_0_compat; assumption.
Qed.

Lemma tanh_zero : Rtrigo_def.tanh 0 = 0.
Proof. unfold Rtrigo_def.tanh. rewrite sinh_0. lra. Qed.

(** C1, as stated, fails for the one-stage density with [H_0 = 0],
    [a_0 = 1], [b_0 = 1] at [x = 0]: the code returns [1 + tanh(1)^2], the
    formula with [tanh] of the previous stage gives [1]. *)
Lemma cdf_logits_not_previous_stage :
  let x := torch.zeros [1; 1; 1]%nat in
  exists code spec : tensor,
    HyperpriorDensity.cdf_logits Fixture.one_stage x true = inr code
    /\ Spec.cdf_logits Spec.cdf_stage
         (fun _ => torch.full [1; 1; 1]%nat 0) (fun _ => torch.full [1; 1; 1]%nat 1)
         (fun _ => torch.full [1; 1; 1]%nat 1) (length (HyperpriorDensity.filters Fixture.one_stage)) x = inr spec
    /\ item code [0; 0; 0]%nat <> item spec [0; 0; 0]%nat.
Proof.
  eexists. eexists. split; [reflexivity|]. split; [reflexivity|].
  simpl. unfold Rsum. simpl.
  replace (F.softplus_ 0 * 0 + 0 + 1) with 1 by ring.
  rewrite tanh_zero. intros E.
  assert (P : Rtrigo_def.tanh 1 * Rtrigo_def.tanh 1 = 0) by lra.
  apply Rmult_integral in P. pose proof tanh_1_neq_0. tauto.
Qed.

(** ** The factorized density: [likelihood] *)
Lemma sigmoid_pos (v : R) : 0 < torch.sigmoid_ v.
Proof.
  unfold torch.sigmoid_. pose proof (exp_pos (- v)).
  apply Rdiv_lt_0_compat; lra.
Qed.

Lemma sigmoid_neg (v : R) : torch.sigmoid_ (- v) = 1 - torch.sigmoid_ v.
Proof.
  unfold torch.sigmoid_. rewrite Ropp_involutive, exp_Ropp.
  pose proof (exp_pos v). field. split; lra.
Qed.

Lemma sigmoid_increasing (u v : R) : u <= v -> torch.sigmoid_ u <= torch.sigmoid_ v.
Proof.
  intros L. unfold torch.sigmoid_.
  pose proof (exp_pos (- u)). pose proof (exp_pos (- v)).
  assert (exp (- v) <= exp (- u)).
  { destruct L as [L|L]; [left; apply exp_increasing; lra|subst; lra]. }
  unfold Rdiv. rewrite !Rmult_1_l. apply Rinv_le_contravar; lra.
Qed.

Lemma sigmoid_strictly_increasing (u v : R) : u < v -> torch.sigmoid_ u < torch.sigmoid_ v.
Proof.
  intros L. unfold torch.sigmoid_.
  pose proof (exp_pos (- u)). pose proof (exp_pos (- v)).
  assert (exp (- v) < exp (- u)) by (apply exp_increasing; lra).
  unfold Rdiv. rewrite !Rmult_1_l. apply Rinv_lt_contravar; [nra|lra].
Qed.

(** Away from [cdf_upper + cdf_lower = 0] the stabilized combination is the
    naive difference. *)
Lemma stabilized_is_naive (cdf_upper cdf_lower : R) :
  cdf_lower <= cdf_upper -> cdf_upper + cdf_lower <> 0 ->
  Spec.stabilized_difference cdf_upper cdf_lower
  = Spec.naive_difference cdf_upper cdf_lower.
Proof.
  intros L N. unfold Spec.stabilized_difference, Spec.naive_difference, torch.sgn.
  pose proof (sigmoid_increasing _ _ L).
  destruct (Rlt_dec 0 (cdf_upper + cdf_lower)) as [P|P].
  - replace (- (1) * cdf_upper) with (- cdf_upper) by ring.
    replace (- (1) * cdf_lower) with (- cdf_lower) by ring.
    rewrite !sigmoid_neg. rewrite Rabs_left1; lra.
  - destruct (Rlt_dec (cdf_upper + cdf_lower) 0) as [Q|Q]; [|lra].
    replace (- -1 * cdf_upper) with cdf_upper by lra.
    replace (- -1 * cdf_lower) with cdf_lower by lra.
    rewrite Rabs_right; lra.
Qed.

(** At [cdf_upper + cdf_lower = 0] the sign is [0], both sigmoids are taken
    at [0] and the stabilized combination vanishes. *)
Lemma stabilized_symmetric_is_zero (c : R) : Spec.stabilized_difference c (- c) = 0.
Proof.
  unfold Spec.stabilized_difference, torch.sgn.
  replace (c + - c) with 0 by ring.
  destruct (Rlt_dec 0 0) as [P|_]; [lra|].
  rewrite !Ropp_0, !Rmult_0_l, Rminus_diag. apply Rabs_R0.
Qed.

Lemma naive_symmetric_lower_bound (c : R) :
  0 < c -> c / (2 * (1 + c)) <= Spec.naive_difference c (- c).
Proof.
  intros P. unfold Spec.naive_difference. rewrite sigmoid_neg.
  unfold torch.sigmoid_.
  pose proof (exp_pos (- c)) as E0.
  assert (E1 : exp (- c) <= / (1 + c)).
  { rewrite exp_Ropp. apply Rinv_le_contravar; [lra|].
    left. apply exp_ineq1. lra. }
  set (w := exp (- c)) in *.
  assert (W : w * (1 + c) <= 1).
  { apply (Rmult_le_compat_r (1 + c)) in E1; [|lra].
    rewrite Rinv_l in E1 by lra. exact E1. }
  replace (1 / (1 + w) - (1 - 1 / (1 + w))) with ((1 - w) / (1 + w)) by (field; lra).
  apply (Rmult_le_reg_r ((2 * (1 + c)) * (1 + w))); [nra|].
  replace (c / (2 * (1 + c)) * (2 * (1 + c) * (1 + w))) with (c * (1 + w)) by (field; lra).
  replace ((1 - w) / (1 + w) * (2 * (1 + c) * (1 + w))) with ((1 - w) * (2 * (1 + c))) by (field; lra).
  nra.
Qed.

Lemma softplus_0 : F.softplus_ 0 = ln 2.
Proof.
  unfold F.softplus_. destruct (Rlt_dec 20 0) as [P|_]; [lra|].
  rewrite exp_0. f_equal; lra.
Qed.

Lemma Rsum_const (c : R) (n : nat) : Rsum (fun _ => c) n = INR n * c.
Proof.
  unfold Rsum. generalize 0%nat. induction n as [|n IH]; intros k.
  - simpl. ring.
  - rewrite S_INR. cbn [seq map fold_right]. rewrite IH. ring.
Qed.

Lemma Rsum_ext (f g : nat -> R) (n : nat) :
  (forall k, f k = g k) -> Rsum f n = Rsum g n.
Proof.
  intros E. unfold Rsum. f_equal. apply map_ext. exact E.
Qed.

Lemma broadcast_column (r n : nat) :
  broadcast_shapes [1; r; n]%nat [1; r; 1]%nat = Some [1; r; n]%nat
  /\ broadcast_shapes [1; r; 1]%nat [1; r; n]%nat = Some [1; r; n]%nat.
Proof.
  unfold broadcast_shapes. cbn [rev app broadcast_rev].
  rewrite !Nat.eqb_refl. destruct n as [|[|n]]; split; reflexivity.
Qed.

Lemma map2_shape (f : R -> R -> R) (a b : tensor) (s : list nat) :
  broadcast_shapes (shape a) (shape b) = Some s ->
  map2 f a b = ok (Tensor s
                     (fun i => f (item a (expand_index (shape a) i))
                                 (item b (expand_index (shape b) i)))).
Proof. intros E. unfold map2. now rewrite E. Qed.

(** One stage whose parameters are all zero scales equal entries by
    [m * ln 2]. *)
Lemma zero_stage (r m n : nat) (v : R) (t : tensor) :
  shape t = [1; m; n]%nat ->
  exists U : tensor,
    Spec.gated_stage (torch.zeros [1; r; m]%nat) (torch.zeros [1; r; 1]%nat)
                     (torch.zeros [1; r; 1]%nat) t = inr U
    /\ shape U = [1; r; n]%nat
    /\ ((forall l j, item t [0; l; j]%nat = v) ->
        forall l j, item U [0; l; j]%nat = INR m * ln 2 * v).
Proof.
  destruct t as [s f]. cbn [shape item]. intros ->.
  destruct (broadcast_column r n) as [B1 B2].
  unfold Spec.gated_stage, torch.bmm.
  cbn [shape F.softplus tmap torch.zeros torch.full].
  rewrite !Nat.eqb_refl. cbn [andb rbind ok].
  unfold tadd, tmul. erewrite map2_shape by exact B1.
  cbn [rbind ok shape torch.tanh tmap].
  erewrite map2_shape by exact B2.
  cbn [rbind ok shape].
  rewrite map2_same_shape by reflexivity.
  eexists. split; [reflexivity|]. split; [reflexivity|].
  intros Hf l j. cbn [item shape torch.tanh torch.zeros torch.full F.softplus tmap].
  rewrite tanh_zero, softplus_0.
  rewrite !expand_index_idem. unfold expand_index.
  cbn [length Nat.sub skipn combine map fst snd Nat.eqb nth].
  rewrite (Rsum_ext _ (fun _ => ln 2 * v)) by (intros k; now rewrite Hf).
  rewrite Rsum_const. ring.
Qed.


Lemma zero_density_registry (k : nat) :
  (k <= length (HyperpriorDensity.filters Fixture.zero_density))%nat ->
  HyperpriorDensity.getattr Fixture.zero_density (HyperpriorDensity.format "H_" k)
    = ok (torch.zeros [1; nth (k + 1) Fixture.zero_widths 0; nth k Fixture.zero_widths 0]%nat)
  /\ HyperpriorDensity.getattr Fixture.zero_density (HyperpriorDensity.format "a_" k)
    = ok (torch.zeros [1; nth (k + 1) Fixture.zero_widths 0; 1]%nat)
  /\ HyperpriorDensity.getattr Fixture.zero_density (HyperpriorDensity.format "b_" k)
    = ok (torch.zeros [1; nth (k + 1) Fixture.zero_widths 0; 1]%nat).
Proof.
  cbn [Fixture.zero_density HyperpriorDensity.filters length]. intros Hk.
  destruct k as [|[|[|[|k]]]]; [| | | |lia]; repeat split; reflexivity.
Qed.

Lemma zero_density_logits (n : nat) (t : tensor) (v : R) :
  shape t = [1; 1; n]%nat ->
  exists U : tensor,
    HyperpriorDensity.cdf_logits Fixture.zero_density t true = inr U
    /\ shape U = [1; 1; n]%nat
    /\ ((forall l j, item t [0; l; j]%nat = v) ->
        item U [0; 0; 0]%nat = 27 * ln 2 ^ 4 * v).
Proof.
  intros St.
  rewrite (cdf_logits_unfold _ _ _ _ _ _ zero_density_registry).
  unfold Spec.cdf_logits.
  cbn [Fixture.zero_density HyperpriorDensity.filters length Nat.add seq fold_left
       Fixture.zero_widths nth rbind ok].
  destruct (zero_stage 3 1 n v t St) as (U0 & -> & S0 & V0).
  cbn [rbind Nat.add nth Fixture.zero_widths].
  destruct (zero_stage 3 3 n (INR 1 * ln 2 * v) U0 S0) as (U1 & -> & S1 & V1).
  cbn [rbind Nat.add nth Fixture.zero_widths].
  destruct (zero_stage 3 3 n (INR 3 * ln 2 * (INR 1 * ln 2 * v)) U1 S1) as (U2 & -> & S2 & V2).
  cbn [rbind Nat.add nth Fixture.zero_widths].
  destruct (zero_stage 1 3 n (INR 3 * ln 2 * (INR 3 * ln 2 * (INR 1 * ln 2 * v))) U2 S2)
    as (U3 & -> & S3 & V3).
  exists U3. split; [reflexivity|]. split; [assumption|].
  intros Vt. rewrite V3 by auto. simpl INR. ring.
Qed.

(** C3.  For the density with the default [filters = (3, 3, 3)] and all
    parameters zero, at the latent [0]: the logits at [+0.5] and [-0.5] are
    opposite and non-zero, [cdf_lower < cdf_upper], the stabilized
    combination is [0] while the naive difference is at least [1/10], and
    [likelihood] returns the floor [min_likelihood]. *)
Theorem likelihood_symmetric_logits :
  let x := torch.zeros [1; 1; 1; 1]%nat in
  let latents := torch.zeros [1; 1; 1]%nat in
  exists cdf_upper cdf_lower likelihood_ : tensor,
    HyperpriorDensity.cdf_logits Fixture.zero_density (tadds latents 0.5) true
      = inr cdf_upper
    /\ HyperpriorDensity.cdf_logits Fixture.zero_density (tsubs latents 0.5) true
      = inr cdf_lower
    /\ item cdf_lower [0; 0; 0]%nat < item cdf_upper [0; 0; 0]%nat
    /\ Spec.stabilized_difference (item cdf_upper [0; 0; 0]%nat)
                                  (item cdf_lower [0; 0; 0]%nat) = 0
    /\ 1 / 10 <= Spec.naive_difference (item cdf_upper [0; 0; 0]%nat)
                                       (item cdf_lower [0; 0; 0]%nat)
    /\ HyperpriorDensity.likelihood Fixture.zero_density x = inr likelihood_
    /\ item likelihood_ [0; 0; 0; 0]%nat = MIN_LIKELIHOOD.
Proof.
  intros x latents.
  destruct (zero_density_logits 1 (tadds latents 0.5) (0 + 0.5) eq_refl)
    as (U & EU & SU & VU).
  specialize (VU (fun _ _ => eq_refl)).
  destruct (zero_density_logits 1 (tsubs latents 0.5) (0 - 0.5) eq_refl)
    as (Lo & EL & SL & VL).
  specialize (VL (fun _ _ => eq_refl)).
  pose proof ln_lt_2 as Hln.
  assert (Hp : 1 / 16 < ln 2 ^ 4).
  { assert (1 / 4 < ln 2 * ln 2) by nra.
    replace (ln 2 ^ 4) with ((ln 2 * ln 2) * (ln 2 * ln 2)) by ring. nra. }
  assert (HL : item Lo [0; 0; 0]%nat = - item U [0; 0; 0]%nat) by (rewrite VU, VL; ring).
  assert (Hq : 1 / 4 <= item U [0; 0; 0]%nat) by (rewrite VU; nra).
  assert (Hs : Spec.stabilized_difference (item U [0; 0; 0]%nat) (item Lo [0; 0; 0]%nat) = 0)
    by (rewrite HL; apply stabilized_symmetric_is_zero).
  exists U, Lo.
  assert (exists P, permute x [1; 0; 2; 3]%nat = ok P
                    /\ shape P = [1; 1; 1; 1]%nat /\ forall i, item P i = 0)
    as (P & EP & SP & VP)
    by (eexists; split; [reflexivity|split; reflexivity]).
  assert (exists Q, reshape P [1%Z; 1%Z; (-1)%Z] = ok Q
                    /\ shape Q = [1; 1; 1]%nat /\ forall i, item Q i = 0)
    as (Q & EQ & SQ & VQ).
  { unfold reshape. rewrite SP. eexists. split; [reflexivity|].
    split; [reflexivity|]. intros i. apply VP. }
  destruct (zero_density_logits 1 (tadds Q 0.5) (0 + 0.5) SQ)
    as (U' & EU' & SU' & VU').
  specialize (VU' (fun l j => f_equal (fun v => v + 0.5) (VQ [0; l; j]%nat))).
  destruct (zero_density_logits 1 (tsubs Q 0.5) (0 - 0.5) SQ)
    as (Lo' & EL' & SL' & VL').
  specialize (VL' (fun l j => f_equal (fun v => v - 0.5) (VQ [0; l; j]%nat))).
  unfold HyperpriorDensity.likelihood.
  change (shape x) with [1; 1; 1; 1]%nat. cbv iota.
  rewrite EP. cbn [rbind ok]. rewrite SP. cbn [nth Z.of_nat Pos.of_succ_nat].
  rewrite EQ. cbn [rbind ok]. rewrite EU'. cbn [rbind]. rewrite EL'. cbn [rbind].
  destruct U' as [sU fU], Lo' as [sL fL]. cbn [shape item] in *. subst sU sL.
  unfold tadd, tmul, tsub.
  rewrite map2_same_shape by reflexivity. cbn [rbind ok shape detach tneg torch.sign tmap].
  rewrite map2_same_shape by reflexivity. cbn [rbind ok shape].
  rewrite map2_same_shape by reflexivity. cbn [rbind ok shape torch.sigmoid tmap].
  rewrite map2_same_shape by reflexivity. cbn [rbind ok shape torch.abs tmap map].
  eexists. split; [exact EU|]. split; [exact EL|]. split; [lra|].
  split; [exact Hs|]. split.
  { rewrite HL. etransitivity; [|apply naive_symmetric_lower_bound; lra].
    apply (Rmult_le_reg_r (2 * (1 + item U [0; 0; 0]%nat))); [lra|].
    unfold Rdiv at 2. rewrite Rmult_assoc, Rinv_l by lra. lra. }
  split; [reflexivity|].
  cbn. unfold Spec.stabilized_difference in Hs. rewrite <- VU' in VU. rewrite <- VL' in VL.
  rewrite <- VU, <- VL, Hs.
  unfold MIN_LIKELIHOOD. apply Rmax_right. lra.
Qed.

(** Inversion of a successful run of a fallible computation. *)
Ltac rinv H :=
  repeat (unfold raise, ok, shape_error in H;
    match type of H with
    | rbind ?m _ = inr _ =>
        let E := fresh "E" in
        destruct m eqn:E; cbn [rbind] in H; [discriminate H|]
    | inl _ = inr _ => discriminate H
    | (match ?s with _ => _ end) = inr _ => destruct s eqn:?; try discriminate H
    | (if ?s then _ else _) = inr _ => destruct s eqn:?; try discriminate H
    end).

(** ** The likelihood floor *)
Lemma lower_bound_toward_item (t : tensor) (bound : R) (i : list nat) :
  bound <= item (lower_bound_toward t bound) i.
Proof. cbn. apply Rmax_r. Qed.

Lemma density_likelihood_floor (d : HyperpriorDensity.t) (x L : tensor) (i : list nat) :
  HyperpriorDensity.likelihood d x = inr L ->
  HyperpriorDensity.min_likelihood d <= item L i.
Proof.
  unfold HyperpriorDensity.likelihood. intros E. rinv E.
  injection E as <-. apply lower_bound_toward_item.
Qed.

Lemma latent_likelihood_floor (self : CodingModel.t) (x mean scale L : tensor)
  (i : list nat) :
  CodingModel.latent_likelihood self x mean scale = inr L ->
  CodingModel.min_likelihood self <= item L i.
Proof.
  unfold CodingModel.latent_likelihood. intros E. rinv E.
  injection E as <-. apply lower_bound_toward_item.
Qed.

Lemma pmf_mixture_component_floor (self : HyperpriorDLMM.t) (x params logit_pis pmf : tensor)
  (i : list nat) :
  HyperpriorDLMM.pmf_mixture_component self x params = inr (logit_pis, pmf) ->
  MIN_LIKELIHOOD <= item pmf i.
Proof.
  unfold HyperpriorDLMM.pmf_mixture_component. intros E. rinv E.
  injection E as <- <-. apply lower_bound_toward_item.
Qed.

(** *** Finite sums *)

(** *** Finite sums *)
Lemma Rsum_ext_in (f g : nat -> R) (n : nat) :
  (forall k, (k < n)%nat -> f k = g k) -> Rsum f n = Rsum g n.
Proof.
  intros E. unfold Rsum. f_equal. apply map_ext_in.
  intros k Hk. apply in_seq in Hk. apply E. lia.
Qed.

Lemma Rsum_S (f : nat -> R) (n : nat) : Rsum f (S n) = Rsum f n + f n.
Proof.
  unfold Rsum. rewrite seq_S, map_app, fold_right_app. cbn [map fold_right Nat.add].
  generalize (map f (seq 0 n)). intros l. induction l as [|a l IH]; cbn [fold_right].
  - ring.
  - rewrite IH. ring.
Qed.

Lemma Rsum_pos (f : nat -> R) (n : nat) :
  (0 < n)%nat -> (forall k, 0 < f k) -> 0 < Rsum f n.
Proof.
  intros Hn Hf. destruct n as [|n]; [lia|]. clear Hn.
  induction n as [|n IH].
  - rewrite Rsum_S. unfold Rsum. cbn. pose proof (Hf 0%nat). lra.
  - rewrite Rsum_S. pose proof (Hf (S n)). lra.
Qed.

Lemma Rsum_le (f g : nat -> R) (n : nat) :
  (forall k, f k <= g k) -> Rsum f n <= Rsum g n.
Proof.
  intros L. induction n as [|n IH].
  - unfold Rsum. cbn. lra.
  - rewrite !Rsum_S. pose proof (L n). lra.
Qed.

Lemma Rsum_scal (c : R) (f : nat -> R) (n : nat) :
  Rsum (fun k => c * f k) n = c * Rsum f n.
Proof.
  induction n as [|n IH].
  - unfold Rsum. cbn. ring.
  - rewrite !Rsum_S, IH. ring.
Qed.

(** A mixture of masses that are all at least [m], with softmax weights,
    is at least [m]. *)
(** A mixture with softmax weights of masses that are all at least [m] is
    at least [m]. *)
Lemma mixture_floor (K : nat) (logit p : nat -> R) (m : R) :
  (0 < K)%nat -> 0 < m -> (forall k, m <= p k) ->
  m <= exp (ln (Rsum (fun k =>
          exp (logit k - ln (Rsum (fun k' => exp (logit k')) K) + ln (p k))) K)).
Proof.
  intros HK Hm Hp.
  set (S := Rsum (fun k' => exp (logit k')) K).
  assert (HS : 0 < S) by (apply Rsum_pos; [assumption|intros k; apply exp_pos]).
  assert (term : forall k, exp (logit k - ln S + ln (p k)) = / S * (exp (logit k) * p k)).
  { intros k. pose proof (Hp k).
    rewrite exp_plus, exp_ln by lra.
    unfold Rminus. rewrite exp_plus, exp_Ropp, exp_ln by assumption. ring. }
  rewrite (Rsum_ext _ _ _ term), Rsum_scal.
  assert (low : m * S <= Rsum (fun k => exp (logit k) * p k) K).
  { unfold S. rewrite <- Rsum_scal. apply Rsum_le. intros k.
    pose proof (exp_pos (logit k)). pose proof (Hp k). nra. }
  assert (0 < / S) by now apply Rinv_0_lt_compat.
  assert (bound : m <= / S * Rsum (fun k => exp (logit k) * p k) K).
  { replace m with (/ S * (m * S)) by (field; lra).
    apply Rmult_le_compat_l; lra. }
  rewrite exp_ln; lra.
Qed.

(** *** Shapes along [unpack_likelihood_params] *)

(** *** Shapes along [unpack_likelihood_params] *)
Lemma filter_all {A} (f : A -> bool) (l : list A) :
  Forall (fun a => f a = true) l -> filter f l = l.
Proof.
  induction 1 as [|a l Ha _ IH]; cbn [filter]; [reflexivity|].
  now rewrite Ha, IH.
Qed.

Lemma reshape_shape (t T : tensor) (dims : list Z) :
  Forall (fun d => (0 <= d)%Z) dims ->
  reshape t dims = inr T ->
  shape T = map Z.to_nat dims
  /\ item T = fun i => item t (unravel (shape t) (ravel (shape T) i)).
Proof.
  intros Hd. unfold reshape, infer_shape.
  rewrite filter_all.
  2:{ eapply Forall_impl; [|exact Hd]. cbn. intros d L.
      destruct (Z.eqb_spec d (-1)); [lia|reflexivity]. }
  rewrite Nat.sub_diag. intros E. rinv E. injection E as <-.
  match goal with
  | Q : (if ?a then _ else if ?b then _ else _) = Some _ |- _ =>
      destruct a; [discriminate Q|]; destruct b; [|discriminate Q];
      injection Q as <-
  end.
  split; reflexivity.
Qed.

Lemma select1_shape (t T : tensor) (j : nat) :
  select1 t j = inr T ->
  shape T = remove_at 1 (shape t) /\ item T = fun i => item t (insert_at 1 j i).
Proof.
  unfold select1. intros E. rinv E. injection E as <-. split; reflexivity.
Qed.

Lemma broadcast_one (N C K H W : nat) :
  broadcast_shapes [N; C; 1; H; W]%nat [N; C; K; H; W]%nat = Some [N; C; K; H; W]%nat.
Proof.
  unfold broadcast_shapes. cbn [rev app broadcast_rev].
  rewrite !Nat.eqb_refl. cbn [Nat.eqb].
  destruct K as [|[|K]]; reflexivity.
Qed.

Lemma get_num_mixtures_nonneg (K_agg C : nat) (K : Z) :
  get_num_mixtures (Z.of_nat K_agg) (Z.of_nat C) default_params = inr K -> (0 <= K)%Z.
Proof.
  unfold get_num_mixtures.
  change (Z.of_nat (length default_params)) with 3%Z.
  destruct (Z.eqb_spec (3 * Z.of_nat C) 0) as [|D]; [discriminate|].
  intros Q.
  assert (E : K = (Z.of_nat K_agg / (3 * Z.of_nat C))%Z) by (unfold ok in Q; congruence).
  rewrite E. apply Z.div_pos; lia.
Qed.

Lemma unpack_likelihood_params_shapes (x conv_out x' logit_pis means log_scales : tensor)
  (K : Z) :
  unpack_likelihood_params x conv_out = inr (x', (logit_pis, means, log_scales), K) ->
  exists N C Kn H W : nat,
    shape x' = [N; C; 1; H; W]%nat
    /\ shape logit_pis = [N; C; Kn; H; W]%nat
    /\ shape means = [N; C; Kn; H; W]%nat
    /\ shape log_scales = [N; C; Kn; H; W]%nat.
Proof.
  unfold unpack_likelihood_params. intros E. rinv E.
  injection E as <- <- <- <- <-.
  match goal with
  | R : reshape conv_out ?dims = inr ?T |- _ =>
      destruct (reshape_shape conv_out T dims) as [ST _]; [|exact R|]
  end.
  { repeat constructor; try lia.
    eapply get_num_mixtures_nonneg; eassumption. }
  match goal with
  | R : reshape x ?dims = inr ?T |- _ =>
      destruct (reshape_shape x T dims) as [SX _]; [|exact R|]
  end.
  { repeat constructor; lia. }
  repeat match goal with
  | S1 : select1 _ _ = inr _ |- _ => apply select1_shape in S1; destruct S1 as [S1 _]
  end.
  cbn [map] in ST, SX. rewrite !Nat2Z.id in ST, SX.
  do 5 eexists. split; [exact SX|].
  repeat split; cbn [lower_bound_toward maths.LowerBoundToward_apply tmap shape];
    match goal with S1 : shape ?t = _ |- shape ?t = _ => rewrite S1, ST; reflexivity end.
Qed.

Lemma map2_inv (f : R -> R -> R) (a b c : tensor) :
  map2 f a b = inr c ->
  broadcast_shapes (shape a) (shape b) = Some (shape c)
  /\ item c = fun i => f (item a (expand_index (shape a) i))
                         (item b (expand_index (shape b) i)).
Proof.
  unfold map2. destruct (broadcast_shapes (shape a) (shape b)); [|discriminate].
  intros Q. injection Q as <-. split; reflexivity.
Qed.

Lemma pmf_mixture_component_shapes (self : HyperpriorDLMM.t)
  (x params logit_pis pmf : tensor) :
  HyperpriorDLMM.pmf_mixture_component self x params = inr (logit_pis, pmf) ->
  exists N C K H W : nat,
    shape logit_pis = [N; C; K; H; W]%nat /\ shape pmf = [N; C; K; H; W]%nat.
Proof.
  unfold HyperpriorDLMM.pmf_mixture_component. intros E. rinv E.
  match goal with
  | U : unpack_likelihood_params _ _ = inr _ |- _ =>
      destruct (unpack_likelihood_params_shapes _ _ _ _ _ _ _ U)
        as (N & C & K & H & W & Sx & Sp & Sm & Ss)
  end.
  injection E as <- <-.
  exists N, C, K, H, W. split; [assumption|].
  unfold tsub, tmul in *.
  repeat match goal with
  | Q : map2 _ _ _ = inr _ |- _ => apply map2_inv in Q; destruct Q as [Q _]
  end.
  cbn [shape lower_bound_toward maths.LowerBoundToward_apply tmap torch.abs
       torch.exp tneg rsubs] in *.
  repeat match goal with
  | Q : broadcast_shapes ?a ?b = Some _ |- _ =>
      first [ rewrite Sx, Sm, broadcast_one in Q
            | rewrite Ss in Q
            | rewrite broadcast_shapes_diag in Q ];
      try (injection Q as Q; try rewrite <- Q in * )
  end.
  match goal with
  | Q : match CodingModel.standardized_CDF ?b with _ => _ end = inr _ |- _ =>
      destruct (CodingModel.standardized_CDF b); [injection Q as <-|discriminate Q]
  end.
  cbn [shape tmap] in *.
  match goal with
  | Q : broadcast_shapes (shape ?a) (shape ?b) = Some _,
    Ea : _ = shape ?a, Eb : _ = shape ?b |- _ =>
      rewrite <- Ea, <- Eb, broadcast_shapes_diag in Q; injection Q as Q
  end.
  congruence.
Qed.

Lemma mixture_likelihood_floor (self : HyperpriorDLMM.t)
  (x params logit_pis pmf log_DLMM : tensor) (i : list nat) :
  HyperpriorDLMM.pmf_mixture_component self x params = inr (logit_pis, pmf) ->
  HyperpriorDLMM.latent_log_likelihood_DLMM self x params = inr log_DLMM ->
  (0 < nth 2 (shape logit_pis) 0)%nat ->
  valid_index (shape log_DLMM) i ->
  MIN_LIKELIHOOD <= exp (item log_DLMM i).
Proof.
  intros Ec El HK Hi.
  destruct (pmf_mixture_component_shapes _ _ _ _ _ Ec) as (N & C & K & H & W & Sl & Sp).
  assert (Hfloor : forall j, MIN_LIKELIHOOD <= item pmf j)
    by (intros j; eapply pmf_mixture_component_floor; exact Ec).
  unfold HyperpriorDLMM.latent_log_likelihood_DLMM in El.
  rewrite Ec in El. cbn [rbind] in El.
  unfold F.log_softmax, torch.logsumexp, tadd in El. rinv El.
  injection El as <-.
  match goal with
  | Q : (if _ then inr _ else _) = inr ?t, Q0 : map2 _ ?t _ = inr _ |- _ =>
      rewrite Sl in Q; cbn [length Nat.ltb Nat.leb] in Q; injection Q as <-;
      apply map2_inv in Q0; destruct Q0 as [Sb Ib]
  end.
  cbn [shape item torch.log tmap] in Sb, Ib.
  rewrite Sp, broadcast_shapes_diag in Sb. injection Sb as Sb.
  match goal with
  | Q : (if _ then inr _ else _) = inr _ |- _ =>
      rewrite <- Sb in Q; cbn [length Nat.ltb Nat.leb] in Q; injection Q as <-
  end.
  cbn [shape item] in Hi |- *. rewrite Ib. clear Ib.
  rewrite Sl in HK. cbn [nth remove_at firstn skipn app] in HK, Hi |- *.
  unfold valid_index in Hi.
  inversion Hi as [|n ? ? ? Hn Hi1]; subst.
  inversion Hi1 as [|c ? ? ? Hc Hi2]; subst.
  inversion Hi2 as [|h ? ? ? Hh Hi3]; subst.
  inversion Hi3 as [|w ? ? ? Hw Hi4]; subst.
  inversion Hi4; subst.
  cbn [insert_at firstn skipn app].
  erewrite Rsum_ext_in.
  - apply (mixture_floor K (fun k => item logit_pis [n; c; k; h; w])
                           (fun k => item pmf [n; c; k; h; w]) MIN_LIKELIHOOD);
      [assumption|unfold MIN_LIKELIHOOD; lra|intros k; apply Hfloor].
  - intros k Hk. cbn beta.
    rewrite Sp, !expand_index_valid by (repeat constructor; assumption).
    cbn [replace_at firstn skipn app nth]. reflexivity.
Qed.

(** Inversion of a successful run of a computation in [M]. *)
Ltac minv H :=
  repeat (cbv beta zeta in H;
    match type of H with
    | mbind (lift (inr _)) _ _ = (inr _, _) =>
        unfold mbind at 1, lift at 1 in H; cbv beta iota in H
    | mbind (lift ?r) _ _ = (inr _, _) =>
        unfold mbind at 1, lift at 1 in H;
        let E := fresh "E" in
        destruct r eqn:E; [discriminate H|]; cbv beta iota in H
    | mbind ?m _ ?g = (inr _, _) =>
        unfold mbind at 1 in H;
        let E := fresh "E" in
        destruct (m g) as [[?|?] ?] eqn:E; [discriminate H|]; cbv beta iota in H
    | (match ?p with (_, _) => _ end) _ = (inr _, _) => destruct p
    | (if ?c then _ else _) _ = (inr _, _) =>
        let E := fresh "E" in destruct c eqn:E
    | lift _ _ = (inr _, _) => unfold lift in H
    | ret _ _ = (inr _, _) => unfold ret in H
    | (inl _, _) = (inr _, _) => discriminate H
    | (raise _, _) = (inr _, _) => discriminate H
    end).

Section Constructors.
Context `{Backend}.

(** ** What the constructors establish *)
Lemma init_stage_attributes (n_channels : Z) (filters_ : list Z) (scale : option R)
  (self self' : HyperpriorDensity.t) (k : nat) (g g' : rng) :
  HyperpriorDensity.init_stage n_channels filters_ scale self k g = (inr self', g') ->
  HyperpriorDensity.min_likelihood self' = HyperpriorDensity.min_likelihood self
  /\ HyperpriorDensity.filters self' = HyperpriorDensity.filters self.
Proof.
  unfold HyperpriorDensity.init_stage. intros E. minv E.
  injection E as <- _. split; reflexivity.
Qed.

Lemma for_each_attributes (n_channels : Z) (filters_ : list Z) (scale : option R)
  (ks : list nat) (self self' : HyperpriorDensity.t) (g g' : rng) :
  HyperpriorDensity.for_each (HyperpriorDensity.init_stage n_channels filters_ scale)
    ks self g = (inr self', g') ->
  HyperpriorDensity.min_likelihood self' = HyperpriorDensity.min_likelihood self
  /\ HyperpriorDensity.filters self' = HyperpriorDensity.filters self.
Proof.
  revert self g. induction ks as [|k ks IH]; intros self g E; cbn [HyperpriorDensity.for_each] in E.
  - unfold ret in E. injection E as <- _. split; reflexivity.
  - minv E. apply IH in E. apply init_stage_attributes in E0.
    destruct E as [-> ->], E0 as [-> ->]. split; reflexivity.
Qed.

Lemma density_init_attributes (n_channels : Z) (init_scale : R) (filters : list Z)
  (min_likelihood max_likelihood : R) (d : HyperpriorDensity.t) (g g' : rng) :
  HyperpriorDensity.__init__ n_channels init_scale filters min_likelihood max_likelihood g
    = (inr d, g') ->
  HyperpriorDensity.min_likelihood d = min_likelihood
  /\ HyperpriorDensity.filters d = filters.
Proof.
  unfold HyperpriorDensity.__init__. intros E. apply for_each_attributes in E. exact E.
Qed.

Lemma Hyperprior_init_min_likelihood (bottleneck_capacity hyperlatent_filters : Z)
  (mode likelihood_type : string) (scale_lower_bound : R)
  (hp : Hyperprior.t) (g g' : rng) :
  Hyperprior.__init__ bottleneck_capacity hyperlatent_filters mode likelihood_type
    scale_lower_bound g = (inr hp, g') ->
  CodingModel.min_likelihood (Hyperprior.base hp) = MIN_LIKELIHOOD
  /\ HyperpriorDensity.min_likelihood (Hyperprior.hyperlatent_likelihood hp)
     = MIN_LIKELIHOOD.
Proof.
  unfold Hyperprior.__init__. intros E. minv E.
  injection E as <- _. cbn.
  match goal with Q : HyperpriorDensity.__init__ _ _ _ _ _ _ = _ |- _ =>
    apply density_init_attributes in Q; destruct Q as [Q _] end.
  split; [reflexivity|assumption].
Qed.

Lemma HyperpriorDLMM_init_min_likelihood (bottleneck_capacity hyperlatent_filters : Z)
  (mode likelihood_type : string) (scale_lower_bound : R) (mixture_components : Z)
  (hp : HyperpriorDLMM.t) (g g' : rng) :
  HyperpriorDLMM.__init__ bottleneck_capacity hyperlatent_filters mode likelihood_type
    scale_lower_bound mixture_components g = (inr hp, g') ->
  CodingModel.min_likelihood (HyperpriorDLMM.base hp) = MIN_LIKELIHOOD
  /\ HyperpriorDensity.min_likelihood (HyperpriorDLMM.hyperlatent_likelihood hp)
     = MIN_LIKELIHOOD.
Proof.
  unfold HyperpriorDLMM.__init__. intros E. minv E.
  injection E as <- _. cbn.
  match goal with Q : HyperpriorDensity.__init__ _ _ _ _ _ _ = _ |- _ =>
    apply density_init_attributes in Q; destruct Q as [Q _] end.
  split; [reflexivity|assumption].
Qed.

End Constructors.


(** Inversion of a failed run of a computation in [M]: every step that may
    have raised is handed to [tac]. *)
Ltac merr H tac :=
  repeat (cbv beta zeta in H;
    match type of H with
    | mbind (lift (inr _)) _ _ = (inl _, _) =>
        unfold mbind at 1, lift at 1 in H; cbv beta iota in H
    | mbind (lift ?r) _ _ = (inl _, _) =>
        unfold mbind at 1, lift at 1 in H;
        let E := fresh "E" in
        destruct r eqn:E; cbv beta iota in H;
        [injection H as <- <-; solve [tac]|]
    | mbind ?m _ ?g = (inl _, _) =>
        unfold mbind at 1 in H;
        let E := fresh "E" in
        destruct (m g) as [[?|?] ?] eqn:E; cbv beta iota in H;
        [injection H as <- <-; solve [tac]|]
    | (match ?p with (_, _) => _ end) _ = (inl _, _) => destruct p
    | ret _ _ = (inl _, _) => discriminate H
    end).

Section ConstructorErrors.
Context `{Backend}.

(** ** The errors of the constructors *)
Lemma nn_error (c : rng -> option layer * rng) (g g' : rng) (e : exn) :
  nn c g = (inl e, g') -> is_config_error e = false.
Proof.
  unfold nn. destruct (c g) as [[l|] g1]; [discriminate|].
  intros Q. injection Q as <- _. reflexivity.
Qed.

Lemma getattr_relu : F.getattr "relu" = ok F.relu.
Proof. reflexivity. Qed.

Ltac sub_error :=
  idtac;
  match goal with
  | Q : nn _ _ = (inl _, _) |- _ => exact (nn_error _ _ _ _ Q)
  | Q : F.getattr "relu" = inl _ |- _ => rewrite getattr_relu in Q; discriminate Q
  | Q : ok _ = inl _ |- _ => discriminate Q
  | Q : inr _ = inl _ |- _ => discriminate Q
  | Q : (let (_, _) := ?u in _) = (inl _, _) |- _ => destruct u; discriminate Q
  end.

Lemma analysis_init_error (C N : Z) (g g' : rng) (e : exn) :
  HyperpriorAnalysis.__init__ C N "relu" g = (inl e, g') -> is_config_error e = false.
Proof.
  unfold HyperpriorAnalysis.__init__. intros E. merr E sub_error.
Qed.

Lemma synthesis_init_error (C N : Z) (g g' : rng) (e : exn) :
  HyperpriorSynthesis.__init__ C N "relu" None g = (inl e, g') ->
  is_config_error e = false.
Proof.
  unfold HyperpriorSynthesis.__init__. intros E. merr E sub_error.
Qed.

Lemma synthesis_DLMM_init_error (C N : Z) (g g' : rng) (e : exn) :
  HyperpriorSynthesisDLMM.__init__ C N "relu" None g = (inl e, g') ->
  is_config_error e = false.
Proof.
  unfold HyperpriorSynthesisDLMM.__init__. intros E. merr E sub_error.
Qed.

Lemma new_full_error (dims : list Z) (v : R) (e : exn) :
  HyperpriorDensity.new_full dims v = inl e -> is_config_error e = false.
Proof.
  unfold HyperpriorDensity.new_full. destruct (existsb _ dims); [|discriminate].
  intros Q. injection Q as <-. reflexivity.
Qed.

Lemma init_stage_error (n_channels : Z) (filters_ : list Z) (scale : option R)
  (self : HyperpriorDensity.t) (k : nat) (g g' : rng) (e : exn) :
  HyperpriorDensity.init_stage n_channels filters_ scale self k g = (inl e, g') ->
  is_config_error e = false.
Proof.
  unfold HyperpriorDensity.init_stage. intros E.
  merr E ltac:(first
    [ sub_error
    | match goal with Q : HyperpriorDensity.new_full _ _ = inl _ |- _ =>
        exact (new_full_error _ _ _ Q) end
    | match goal with Q : _ = inl ?e |- is_config_error ?e = false =>
        repeat match type of Q with
               | context [match ?c with _ => _ end] => destruct c
               end;
        unfold raise, ok in Q; try discriminate Q; injection Q as <-; reflexivity
      end ]).
Qed.

Lemma for_each_error (n_channels : Z) (filters_ : list Z) (scale : option R)
  (ks : list nat) (self : HyperpriorDensity.t) (g g' : rng) (e : exn) :
  HyperpriorDensity.for_each (HyperpriorDensity.init_stage n_channels filters_ scale)
    ks self g = (inl e, g') ->
  is_config_error e = false.
Proof.
  revert self g. induction ks as [|k ks IH]; intros self g E;
    cbn [HyperpriorDensity.for_each] in E.
  - discriminate E.
  - merr E ltac:(eapply init_stage_error; eassumption).
    eapply IH; eassumption.
Qed.

Lemma density_init_error (n_channels : Z) (init_scale : R) (filters : list Z)
  (min_likelihood max_likelihood : R) (g g' : rng) (e : exn) :
  HyperpriorDensity.__init__ n_channels init_scale filters min_likelihood max_likelihood g
    = (inl e, g') ->
  is_config_error e = false.
Proof. unfold HyperpriorDensity.__init__. apply for_each_error. Qed.

Ltac part_error :=
  idtac;
  match goal with
  | Q : HyperpriorAnalysis.__init__ _ _ _ _ = (inl _, _) |- _ =>
      exact (analysis_init_error _ _ _ _ _ Q)
  | Q : HyperpriorSynthesis.__init__ _ _ _ _ _ = (inl _, _) |- _ =>
      exact (synthesis_init_error _ _ _ _ _ Q)
  | Q : HyperpriorSynthesisDLMM.__init__ _ _ _ _ _ = (inl _, _) |- _ =>
      exact (synthesis_DLMM_init_error _ _ _ _ _ Q)
  | Q : HyperpriorDensity.__init__ _ _ _ _ _ _ = (inl _, _) |- _ =>
      exact (density_init_error _ _ _ _ _ _ _ _ Q)
  | L : _ = "gaussian"%string \/ _ = "logistic"%string, Q : _ = inl _ |- _ =>
      destruct L; subst; discriminate Q
  end.

Lemma Hyperprior_init_recognized (bottleneck_capacity hyperlatent_filters : Z)
  (mode likelihood_type : string) (scale_lower_bound : R) (g g' : rng) (e : exn) :
  likelihood_type = "gaussian"%string \/ likelihood_type = "logistic"%string ->
  Hyperprior.__init__ bottleneck_capacity hyperlatent_filters mode likelihood_type
    scale_lower_bound g = (inl e, g') ->
  is_config_error e = false.
Proof.
  intros L E. unfold Hyperprior.__init__ in E. merr E part_error.
Qed.

Lemma HyperpriorDLMM_init_recognized (bottleneck_capacity hyperlatent_filters : Z)
  (mode likelihood_type : string) (scale_lower_bound : R) (mixture_components : Z)
  (g g' : rng) (e : exn) :
  likelihood_type = "gaussian"%string \/ likelihood_type = "logistic"%string ->
  (bottleneck_capacity <= 128)%Z ->
  HyperpriorDLMM.__init__ bottleneck_capacity hyperlatent_filters mode likelihood_type
    scale_lower_bound mixture_components g = (inl e, g') ->
  is_config_error e = false.
Proof.
  intros L C E. unfold HyperpriorDLMM.__init__ in E.
  apply Z.leb_le in C. rewrite C in E. cbn [negb] in E. merr E part_error.
Qed.

Lemma HyperpriorDLMM_init_capacity (bottleneck_capacity hyperlatent_filters : Z)
  (mode likelihood_type : string) (scale_lower_bound : R) (mixture_components : Z)
  (g : rng) :
  (128 < bottleneck_capacity)%Z ->
  HyperpriorDLMM.__init__ bottleneck_capacity hyperlatent_filters mode likelihood_type
    scale_lower_bound mixture_components g
  = (inl (AssertionError "Will probably run out of memory!"), g).
Proof.
  intros C. unfold HyperpriorDLMM.__init__.
  destruct (Z.leb_spec bottleneck_capacity 128); [lia|]. reflexivity.
Qed.

(** Running a computation of [M] whose last step raises. *)
Ltac mfail :=
  repeat match goal with
  | |- exists e g', mbind (lift (inl _)) _ ?g = (inl e, g') => fail 1
  | |- exists e g', mbind (lift ?r) _ ?g = (inl e, g') =>
      unfold mbind at 1, lift at 1;
      destruct r; cbv beta iota; [do 2 eexists; reflexivity|]
  | |- exists e g', mbind ?m _ ?g = (inl e, g') =>
      unfold mbind at 1;
      destruct (m g) as [[?|?] ?]; cbv beta iota; [do 2 eexists; reflexivity|]
  end.

Lemma unknown_likelihood (likelihood_type : string) :
  likelihood_type <> "gaussian"%string -> likelihood_type <> "logistic"%string ->
  (if String.eqb likelihood_type "gaussian"
   then ok standardized_CDF_gaussian
   else if String.eqb likelihood_type "logistic"
        then ok standardized_CDF_logistic
        else raise (ValueError ("Unknown likelihood model: " ++ likelihood_type)))
  = inl (ValueError ("Unknown likelihood model: " ++ likelihood_type)).
Proof.
  intros G L.
  destruct (String.eqb_spec likelihood_type "gaussian"); [contradiction|].
  destruct (String.eqb_spec likelihood_type "logistic"); [contradiction|].
  reflexivity.
Qed.

Lemma Hyperprior_init_unknown (bottleneck_capacity hyperlatent_filters : Z)
  (mode likelihood_type : string) (scale_lower_bound : R) (g : rng) :
  likelihood_type <> "gaussian"%string -> likelihood_type <> "logistic"%string ->
  exists e g',
    Hyperprior.__init__ bottleneck_capacity hyperlatent_filters mode likelihood_type
      scale_lower_bound g = (inl e, g').
Proof.
  intros G L. unfold Hyperprior.__init__. cbv zeta.
  rewrite (unknown_likelihood _ G L). mfail. do 2 eexists; reflexivity.
Qed.

Lemma HyperpriorDLMM_init_unknown (bottleneck_capacity hyperlatent_filters : Z)
  (mode likelihood_type : string) (scale_lower_bound : R) (mixture_components : Z)
  (g : rng) :
  likelihood_type <> "gaussian"%string -> likelihood_type <> "logistic"%string ->
  exists e g',
    HyperpriorDLMM.__init__ bottleneck_capacity hyperlatent_filters mode likelihood_type
      scale_lower_bound mixture_components g = (inl e, g').
Proof.
  intros G L. unfold HyperpriorDLMM.__init__. cbv zeta.
  rewrite (unknown_likelihood _ G L).
  destruct (negb _); [do 2 eexists; reflexivity|]. mfail. do 2 eexists; reflexivity.
Qed.

End ConstructorErrors.

(** Symbolic execution of one step of a fallible computation on tensors of
    known shape: the step is replaced by its result, whose shape is computed
    and whose entries are abstracted. *)
Ltac abstract_value t k :=
  let t' := eval hnf in t in
  lazymatch t' with
  | Tensor ?s ?f =>
      let s' := eval lazy in s in
      k (Tensor s' f);
      let fT := fresh "f" in generalize f; intro fT
  | (?a, ?b) =>
      k (a, b);
      let x := fresh "x" in let y := fresh "y" in
      generalize a; intro x; generalize b; intro y
  | _ =>
      let T := type of t in
      lazymatch T with
      | Z => let v := eval lazy in t' in k v
      | nat => let v := eval lazy in t' in k v
      | _ => k t'
      end
  end.

Ltac exec op :=
  let v := eval hnf in op in
  lazymatch v with
  | inr ?t => abstract_value t ltac:(fun t' => change op with (@inr exn _ t'))
  end.

Ltac run :=
  repeat (lazymatch goal with
          | |- exists T, rbind (HyperpriorDensity.cdf_logits Fixture.zero_density ?t true) _
                         = inr T /\ _ =>
              let U := fresh "U" in let SU := fresh "SU" in
              let s := fresh "s" in let f := fresh "f" in
              destruct (zero_density_logits _ t 0 eq_refl) as (U & -> & SU & _);
              destruct U as [s f]; cbn [shape] in SU; subst s;
              cbn [rbind]; cbv beta zeta
          | |- exists T, rbind ?op _ = inr T /\ _ => exec op; cbn [rbind]; cbv beta zeta
          end).

(** ** Runs of the fixture *)
(** The transforms of the fixture are those its constructors return. *)
Lemma fixture_transforms_constructed :
  @HyperpriorAnalysis.__init__ Fixture.backend 1 1 "relu" 0%nat
    = (inr Fixture.analysis, 3%nat)
  /\ @HyperpriorSynthesis.__init__ Fixture.backend 1 1 "relu" None 0%nat
    = (inr Fixture.synthesis, 3%nat)
  /\ @HyperpriorSynthesisDLMM.__init__ Fixture.backend 1 1 "relu" None 0%nat
    = (inr Fixture.synthesis_DLMM, 4%nat).
Proof. repeat split; reflexivity. Qed.

(** The factorized likelihood of four hyperlatents. *)
Lemma zero_density_forward (f : list nat -> R) :
  exists L, HyperpriorDensity.likelihood Fixture.zero_density (Tensor [1; 1; 2; 2]%nat f) = inr L
            /\ shape L = [1; 1; 2; 2]%nat.
Proof.
  unfold HyperpriorDensity.likelihood.
  cbn [shape]. cbv iota.
  run. eexists; split; reflexivity.
Qed.

Ltac execM m g :=
  let v := eval hnf in (m g) in
  lazymatch v with
  | (?r, ?g1) =>
      let r' := eval hnf in r in
      let g1' := eval lazy in g1 in
      lazymatch r' with
      | inr ?t =>
          abstract_value t ltac:(fun t' =>
            let E := fresh "E" in
            assert (E : m g = (@inr exn _ t', g1')) by reflexivity;
            unfold mbind at 1; rewrite E; clear E)
      end
  end.

Ltac runM :=
  repeat (lazymatch goal with
          | |- exists info g', mbind (lift (HyperpriorDensity.likelihood Fixture.zero_density
                                              (Tensor [1; 1; 2; 2]%nat ?f0))) _ _
                               = (inr info, g') =>
              let L := fresh "L" in let SL := fresh "SL" in
              let s := fresh "s" in let f := fresh "f" in
              destruct (zero_density_forward f0) as (L & -> & SL);
              destruct L as [s f]; cbn [shape] in SL; subst s;
              unfold mbind at 1, lift at 1; cbv beta iota zeta
          | |- exists info g', mbind ?m _ ?g = (inr info, g') =>
              execM m g; cbv beta iota zeta
          end).

(** The forward pass of the Gaussian/logistic model returns. *)
Lemma hyperprior_forward_runs (training : bool) :
  exists info g',
    @Hyperprior.forward Fixture.backend (Fixture.hyperprior training)
      (torch.zeros [1; 1; 8; 8]%nat) [8%Z; 8%Z] 0%nat = (inr info, g').
Proof.
  unfold Hyperprior.forward, HyperpriorDensity.forward.
  cbn [Fixture.hyperprior Hyperprior.analysis_net Hyperprior.base Hyperprior.hyperlatent_likelihood
       Hyperprior.synthesis_mu Hyperprior.synthesis_std Hyperprior.training
       Hyperprior.scale_lower_bound].
  destruct training.
  - runM. do 2 eexists; reflexivity.
  - runM. do 2 eexists; reflexivity.
Qed.

(** Twelve channels unpack into three groups of four mixture components. *)
Lemma unpack_runs (f p : list nat -> R) :
  exists f1 f2 f3 f4,
    unpack_likelihood_params (Tensor [1; 1; 8; 8]%nat f) (Tensor [1; 12; 8; 8]%nat p)
    = inr (Tensor [1; 1; 1; 8; 8]%nat f1,
           (Tensor [1; 1; 4; 8; 8]%nat f2, Tensor [1; 1; 4; 8; 8]%nat f3,
            Tensor [1; 1; 4; 8; 8]%nat f4), 4%Z).
Proof.
  unfold unpack_likelihood_params. cbn [shape]. cbv iota.
  repeat (lazymatch goal with
          | |- exists f1 f2 f3 f4, rbind ?op _ = inr _ => exec op; cbn [rbind]; cbv beta zeta
          end).
  do 4 eexists. reflexivity.
Qed.

Lemma pmf_mixture_component_runs (training : bool) (f p : list nat -> R) :
  exists lp pmf,
    HyperpriorDLMM.pmf_mixture_component (Fixture.hyperprior_DLMM training)
      (Tensor [1; 1; 8; 8]%nat f) (Tensor [1; 12; 8; 8]%nat p)
    = inr (Tensor [1; 1; 4; 8; 8]%nat lp, Tensor [1; 1; 4; 8; 8]%nat pmf).
Proof.
  unfold HyperpriorDLMM.pmf_mixture_component.
  destruct (unpack_runs f p) as (f1 & f2 & f3 & f4 & ->).
  cbn [rbind Fixture.hyperprior_DLMM HyperpriorDLMM.base CodingModel.standardized_CDF].
  repeat (lazymatch goal with
          | |- exists lp pmf, rbind ?op _ = inr _ => exec op; cbn [rbind]; cbv beta zeta
          end).
  do 2 eexists. reflexivity.
Qed.

Lemma latent_log_likelihood_DLMM_runs (training : bool) (f p : list nat -> R) :
  exists L,
    HyperpriorDLMM.latent_log_likelihood_DLMM (Fixture.hyperprior_DLMM training)
      (Tensor [1; 1; 8; 8]%nat f) (Tensor [1; 12; 8; 8]%nat p) = inr L
    /\ shape L = [1; 1; 8; 8]%nat.
Proof.
  unfold HyperpriorDLMM.latent_log_likelihood_DLMM.
  destruct (pmf_mixture_component_runs training f p) as (lp & pmf & ->).
  cbn [rbind]. run. eexists; split; reflexivity.
Qed.

Ltac runM_DLMM :=
  repeat (lazymatch goal with
          | |- exists info g', mbind (lift (HyperpriorDensity.likelihood Fixture.zero_density
                                              (Tensor [1; 1; 2; 2]%nat ?f0))) _ _
                               = (inr info, g') =>
              let L := fresh "L" in let SL := fresh "SL" in
              let s := fresh "s" in let f := fresh "f" in
              destruct (zero_density_forward f0) as (L & -> & SL);
              destruct L as [s f]; cbn [shape] in SL; subst s;
              unfold mbind at 1, lift at 1; cbv beta iota zeta
          | |- exists info g', mbind (lift (HyperpriorDLMM.latent_log_likelihood_DLMM
                                              (Fixture.hyperprior_DLMM ?tr)
                                              (Tensor [1; 1; 8; 8]%nat ?f0)
                                              (Tensor [1; 12; 8; 8]%nat ?p0))) _ _
                               = (inr info, g') =>
              let L := fresh "L" in let SL := fresh "SL" in
              let s := fresh "s" in let f := fresh "f" in
              destruct (latent_log_likelihood_DLMM_runs tr f0 p0) as (L & -> & SL);
              destruct L as [s f]; cbn [shape] in SL; subst s;
              unfold mbind at 1, lift at 1; cbv beta iota zeta
          | |- exists info g', mbind ?m _ ?g = (inr info, g') =>
              execM m g; cbv beta iota zeta
          end).

(** The forward pass of the mixture model returns. *)
Lemma hyperprior_DLMM_forward_runs (training : bool) :
  exists info g',
    @HyperpriorDLMM.forward Fixture.backend (Fixture.hyperprior_DLMM training)
      (torch.zeros [1; 1; 8; 8]%nat) [8%Z; 8%Z] 0%nat = (inr info, g').
Proof.
  unfold HyperpriorDLMM.forward, HyperpriorDensity.forward.
  cbn [HyperpriorDLMM.analysis_net HyperpriorDLMM.hyperlatent_likelihood
       HyperpriorDLMM.synthesis_DLMM_params HyperpriorDLMM.training].
  destruct training.
  - cbn [Fixture.hyperprior_DLMM HyperpriorDLMM.analysis_net HyperpriorDLMM.hyperlatent_likelihood
       HyperpriorDLMM.synthesis_DLMM_params HyperpriorDLMM.training].
    runM_DLMM. do 2 eexists; reflexivity.
  - cbn [Fixture.hyperprior_DLMM HyperpriorDLMM.analysis_net HyperpriorDLMM.hyperlatent_likelihood
       HyperpriorDLMM.synthesis_DLMM_params HyperpriorDLMM.training].
    runM_DLMM. do 2 eexists; reflexivity.
Qed.

Lemma latent_likelihood_runs (x mean scale : list nat -> R) :
  exists L,
    CodingModel.latent_likelihood
      (CodingModel.Make 1 MIN_LIKELIHOOD MAX_LIKELIHOOD (Some torch.sigmoid_))
      (Tensor [1; 1; 1; 1]%nat x) (Tensor [1; 1; 1; 1]%nat mean)
      (Tensor [1; 1; 1; 1]%nat scale) = inr L
    /\ shape L = [1; 1; 1; 1]%nat.
Proof.
  unfold CodingModel.latent_likelihood. cbn [CodingModel.standardized_CDF].
  run. eexists; split; reflexivity.
Qed.

Section Forward.
Context `{Backend}.

(** ** The forward pass *)
Lemma quantize_hard_no_means (x q : tensor) (g g' g0 : rng) :
  CodingModel._quantize x "quantize" None g = (inr q, g') ->
  CodingModel._quantize x "quantize" None g0 = (inr q, g0).
Proof.
  unfold CodingModel._quantize, lift. cbn. intros Q. injection Q as <- _. reflexivity.
Qed.

(** C6.  Whenever [Hyperprior.forward] returns, in training as in
    inference mode, [decoded] is [quantize_latents_st(latents,
    latent_means)] for the means of this call: [latent_means] is what
    [synthesis_mu] computes from the decoded hyperlatents, which are the
    output of [analysis_net] on the latents with the noise of the first
    draw added when [training] is true, and hard-quantized when it is
    false.  Whenever [HyperpriorDLMM.forward] returns, [decoded] is
    [quantize_latents_st(latents)] (no means) when [training] is true and
    [_quantize(latents, mode='quantize')] (no means) when it is false. *)
Theorem forward_decoded :
  (forall (self : Hyperprior.t) (latents : tensor) (spatial_shape : list Z)
          (g g' : rng) (info : HyperInfo),
      Hyperprior.forward self latents spatial_shape g = (inr info, g') ->
      exists (hyperlatents noisy_hyperlatents quantized_hyperlatents
              latent_means : tensor) (g1 : rng),
        HyperpriorAnalysis.forward (Hyperprior.analysis_net self) latents
          = inr hyperlatents
        /\ CodingModel._quantize hyperlatents "noise" None g
           = (inr noisy_hyperlatents, g1)
        /\ CodingModel._quantize hyperlatents "quantize" None g1
           = (inr quantized_hyperlatents, g1)
        /\ HyperpriorSynthesis.forward (Hyperprior.synthesis_mu self)
             (if Hyperprior.training self
              then noisy_hyperlatents else quantized_hyperlatents)
           = inr latent_means
        /\ CodingModel.quantize_latents_st latents (Some latent_means)
           = inr (decoded info))
  /\ (forall (self : HyperpriorDLMM.t) (latents : tensor) (spatial_shape : list Z)
             (g g' : rng) (info : HyperInfo),
      HyperpriorDLMM.forward self latents spatial_shape g = (inr info, g') ->
      if HyperpriorDLMM.training self
      then CodingModel.quantize_latents_st latents None = inr (decoded info)
      else forall g0, CodingModel._quantize latents "quantize" None g0
                      = (inr (decoded info), g0)).
Proof.
  split.
  - intros self latents ss g g' info E. unfold Hyperprior.forward in E. minv E.
    injection E as <- _. cbn [decoded].
    match goal with
    | E0 : HyperpriorAnalysis.forward _ _ = inr ?t,
      E1 : CodingModel._quantize ?t "noise" None g = (inr ?t0, ?r),
      E4 : CodingModel._quantize ?t "quantize" None ?r = (inr ?t2, _),
      E7 : HyperpriorSynthesis.forward (Hyperprior.synthesis_mu self) _ = inr ?t4 |- _ =>
        exists t, t0, t2, t4, r;
        split; [reflexivity|];
        split; [exact E1|];
        split; [exact (quantize_hard_no_means _ _ _ _ _ E4)|];
        split; [exact E7|assumption]
    end.
  - intros self latents ss g g' info E. unfold HyperpriorDLMM.forward in E. minv E.
    injection E as <- _. cbn [decoded].
    destruct (HyperpriorDLMM.training self).
    + match goal with
      | Q : lift ?r _ = (inr ?t, _) |- _ = inr ?t =>
          unfold lift in Q; injection Q as Q _; exact Q
      end.
    + match goal with
      | Q : ret ?q _ = (inr ?t, _) |- _ =>
          unfold ret in Q; injection Q as <- _
      end.
      intros g0. eapply quantize_hard_no_means. eassumption.
Qed.

(** C7.  Every [HyperInfo] returned by the forward pass of either model has
    [total_nbpp = latent_nbpp + hyperlatent_nbpp],
    [total_qbpp = latent_qbpp + hyperlatent_qbpp], and [bitstring] and
    [side_bitstring] equal to [None]. *)
Theorem forward_totals :
  (forall (self : Hyperprior.t) (latents : tensor) (spatial_shape : list Z)
          (g g' : rng) (info : HyperInfo),
      Hyperprior.forward self latents spatial_shape g = (inr info, g') ->
      total_nbpp info = fadd (latent_nbpp info) (hyperlatent_nbpp info)
      /\ total_qbpp info = fadd (latent_qbpp info) (hyperlatent_qbpp info)
      /\ bitstring info = None /\ side_bitstring info = None)
  /\ (forall (self : HyperpriorDLMM.t) (latents : tensor) (spatial_shape : list Z)
             (g g' : rng) (info : HyperInfo),
      HyperpriorDLMM.forward self latents spatial_shape g = (inr info, g') ->
      total_nbpp info = fadd (latent_nbpp info) (hyperlatent_nbpp info)
      /\ total_qbpp info = fadd (latent_qbpp info) (hyperlatent_qbpp info)
      /\ bitstring info = None /\ side_bitstring info = None).
Proof.
  split; intros self latents ss g g' info E;
    [unfold Hyperprior.forward in E|unfold HyperpriorDLMM.forward in E];
    minv E; injection E as <- _; repeat split; reflexivity.
Qed.

End Forward.

(** C6 at the fixture, in inference mode, for an [8 x 8] latent. *)
Lemma forward_decoded_witness :
  (exists info g',
      @Hyperprior.forward Fixture.backend (Fixture.hyperprior false)
        (torch.zeros [1; 1; 8; 8]%nat) [8%Z; 8%Z] 0%nat = (inr info, g')
      /\ exists (hyperlatents noisy_hyperlatents quantized_hyperlatents
                 latent_means : tensor) (g1 : rng),
        HyperpriorAnalysis.forward (Hyperprior.analysis_net (Fixture.hyperprior false))
          (torch.zeros [1; 1; 8; 8]%nat) = inr hyperlatents
        /\ @CodingModel._quantize Fixture.backend hyperlatents "noise" None 0%nat
           = (inr noisy_hyperlatents, g1)
        /\ @CodingModel._quantize Fixture.backend hyperlatents "quantize" None g1
           = (inr quantized_hyperlatents, g1)
        /\ HyperpriorSynthesis.forward (Hyperprior.synthesis_mu (Fixture.hyperprior false))
             quantized_hyperlatents = inr latent_means
        /\ CodingModel.quantize_latents_st (torch.zeros [1; 1; 8; 8]%nat)
             (Some latent_means) = inr (decoded info))
  /\ (exists info g',
      @HyperpriorDLMM.forward Fixture.backend (Fixture.hyperprior_DLMM false)
        (torch.zeros [1; 1; 8; 8]%nat) [8%Z; 8%Z] 0%nat = (inr info, g')
      /\ forall g0, @CodingModel._quantize Fixture.backend (torch.zeros [1; 1; 8; 8]%nat)
                      "quantize" None g0 = (inr (decoded info), g0)).
Proof.
  split.
  - destruct (hyperprior_forward_runs false) as (info & g' & E).
    exists info, g'. split; [exact E|].
    exact (proj1 (@forward_decoded Fixture.backend) _ _ _ _ _ _ E).
  - destruct (hyperprior_DLMM_forward_runs false) as (info & g' & E).
    exists info, g'. split; [exact E|].
    exact (proj2 (@forward_decoded Fixture.backend) _ _ _ _ _ _ E).
Defined.

(** C7 at the fixture, in training mode, for an [8 x 8] latent. *)
Lemma forward_totals_witness :
  (exists info g',
      @Hyperprior.forward Fixture.backend (Fixture.hyperprior true)
        (torch.zeros [1; 1; 8; 8]%nat) [8%Z; 8%Z] 0%nat = (inr info, g')
      /\ total_nbpp info = fadd (latent_nbpp info) (hyperlatent_nbpp info)
      /\ total_qbpp info = fadd (latent_qbpp info) (hyperlatent_qbpp info)
      /\ bitstring info = None /\ side_bitstring info = None)
  /\ (exists info g',
      @HyperpriorDLMM.forward Fixture.backend (Fixture.hyperprior_DLMM true)
        (torch.zeros [1; 1; 8; 8]%nat) [8%Z; 8%Z] 0%nat = (inr info, g')
      /\ total_nbpp info = fadd (latent_nbpp info) (hyperlatent_nbpp info)
      /\ total_qbpp info = fadd (latent_qbpp info) (hyperlatent_qbpp info)
      /\ bitstring info = None /\ side_bitstring info = None).
Proof.
  split.
  - destruct (hyperprior_forward_runs true) as (info & g' & E).
    exists info, g'. split; [exact E|].
    exact (proj1 (@forward_totals Fixture.backend) _ _ _ _ _ _ E).
  - destruct (hyperprior_DLMM_forward_runs true) as (info & g' & E).
    exists info, g'. split; [exact E|].
    exact (proj2 (@forward_totals Fixture.backend) _ _ _ _ _ _ E).
Defined.

(** ** The entropy estimator *)
Lemma fdiv_finite (x d : R) : d <> 0 -> fdiv (Finite x) d = Finite (x / d).
Proof. intros N. unfold fdiv. destruct (Req_dec_T d 0); [contradiction|reflexivity]. Qed.

Lemma sum_nonpos (l : list R) :
  Forall (fun v => v <= 0) l -> fold_right Rplus 0 l <= 0.
Proof.
  induction 1 as [|v l Hv _ IH]; cbn [fold_right]; lra.
Qed.

Lemma ln_nonpos (v : R) : 0 < v -> v <= 1 -> ln v <= 0.
Proof.
  intros P L. destruct L as [L| ->]; [|rewrite ln_1; lra].
  rewrite <- ln_1. left. now apply ln_increasing.
Qed.

Lemma int64_small (z : Z) : (- 2 ^ 63 <= z < 2 ^ 63)%Z -> np.int64 z = z.
Proof. intros B. unfold np.int64. rewrite Z.mod_small; lia. Qed.

(** The product of two positive sizes below [2 ^ 63] is exact. *)
Lemma np_prod_small (height width : Z) :
  (0 < height)%Z -> (0 < width)%Z -> (height * width < 2 ^ 63)%Z ->
  np.prod [height; width] = (height * width)%Z.
Proof.
  intros Hh Hw Hp. unfold np.prod. cbn [fold_right]. rewrite Z.mul_1_r.
  apply int64_small. nia.
Qed.

Lemma estimate_entropy_single (v : R) (spatial_shape : list Z) :
  length spatial_shape = 2%nat ->
  np.prod spatial_shape <> 0%Z ->
  CodingModel._estimate_entropy (torch.full [1; 1; 1; 1]%nat v) spatial_shape
    = inr (Finite (- (ln (v + 1e-9) / ln 2)),
           Finite (- (ln (v + 1e-9) / ln 2) / IZR (np.prod spatial_shape))).
Proof.
  intros Hl Hp. pose proof ln_2_pos as L2.
  unfold CodingModel._estimate_entropy.
  cbn [CodingModel.size0 torch.full shape rbind ok]. rewrite Hl.
  cbn [Nat.eqb negb]. unfold np.log. change (INR 1) with 1.
  rewrite fdiv_finite by lra.
  rewrite fdiv_finite by (apply not_0_IZR; exact Hp).
  replace (torch.sum (torch.log (tadds (torch.full [1; 1; 1; 1]%nat v) 1e-9)) / (1 * - ln 2))
    with (- (ln (v + 1e-9) / ln 2)); [reflexivity|].
  cbn. field. lra.
Qed.

(** C5, as stated, fails in two ways.  For the likelihood [[0.5]] of shape
    [(1,1,1,1)] and [spatial_shape = (2^31, 2^32)], the product of the two
    sizes wraps around to [-2^63], and [bpp] is negative.  For the
    likelihood [[1.0]] and [spatial_shape = (1, 1)], [log(1 + 1e-9)] is
    positive, as it is for a tensor of doubles, and [bpp] is negative (in
    single precision [1 + 1e-9] is [1], and [bpp] is 0 there). *)
Lemma estimate_entropy_negative_bpp :
  (exists n_bits bpp : R,
     CodingModel._estimate_entropy (torch.full [1; 1; 1; 1]%nat (1 / 2))
       [(2 ^ 31)%Z; (2 ^ 32)%Z] = inr (Finite n_bits, Finite bpp)
     /\ Forall (fun v => MIN_LIKELIHOOD <= v <= 1)
          (entries (torch.full [1; 1; 1; 1]%nat (1 / 2)))
     /\ (0 < 2 ^ 31)%Z /\ (0 < 2 ^ 32)%Z
     /\ bpp < 0)
  /\ (exists n_bits bpp : R,
        CodingModel._estimate_entropy (torch.ones [1; 1; 1; 1]%nat) [1%Z; 1%Z]
          = inr (Finite n_bits, Finite bpp)
        /\ Forall (fun v => MIN_LIKELIHOOD <= v <= 1) (entries (torch.ones [1; 1; 1; 1]%nat))
        /\ bpp < 0).
Proof.
  pose proof ln_2_pos as L2. split.
  - assert (E : np.prod [(2 ^ 31)%Z; (2 ^ 32)%Z] = (- 2 ^ 63)%Z) by (vm_compute; reflexivity).
    assert (P : ln (1 / 2 + 1e-9) < 0)
      by (rewrite <- ln_1; apply ln_increasing; lra).
    assert (N : IZR (- 2 ^ 63) < 0) by (apply IZR_lt; lia).
    do 2 eexists. split; [|split; [|split; [|split]]].
    + apply estimate_entropy_single; [reflexivity|]. rewrite E. lia.
    + repeat constructor; unfold MIN_LIKELIHOOD; cbn; lra.
    + lia.
    + lia.
    + rewrite E.
      assert (Q : 0 < - (ln (1 / 2 + 1e-9) / ln 2)).
      { replace (- (ln (1 / 2 + 1e-9) / ln 2)) with ((- ln (1 / 2 + 1e-9)) / ln 2)
          by (field; lra).
        apply Rdiv_lt_0_compat; lra. }
      set (n := - (ln (1 / 2 + 1e-9) / ln 2)) in *.
      set (d := IZR (- 2 ^ 63)) in *.
      replace (n / d) with (- (n / - d)) by (field; lra).
      assert (0 < n / - d) by (apply Rdiv_lt_0_compat; lra). lra.
  - assert (P : 0 < ln (1 + 1e-9)) by (rewrite <- ln_1 at 1; apply ln_increasing; lra).
    assert (E : np.prod [1%Z; 1%Z] = 1%Z) by (vm_compute; reflexivity).
    do 2 eexists. split; [|split].
    + unfold torch.ones. apply estimate_entropy_single; [reflexivity|]. rewrite E. lia.
    + repeat constructor; unfold MIN_LIKELIHOOD; cbn; lra.
    + rewrite E.
      assert (0 < ln (1 + 1e-9) / ln 2) by (apply Rdiv_lt_0_compat; assumption).
      replace (- (ln (1 + 1e-9) / ln 2) / 1) with (- (ln (1 + 1e-9) / ln 2)) by (field; lra).
      lra.
Qed.

(** C5, amended.  For a likelihood tensor with a non-empty batch whose
    entries lie in [[min_likelihood, 1 - 1e-9]] (so that
    [likelihood + EPS <= 1]) and a [spatial_shape] of two positive
    integers whose product is below [2^63] (so that it does not wrap
    around), [_estimate_entropy] returns finite [n_bits >= 0] and
    [bpp >= 0]. *)
Theorem estimate_entropy_nonneg (likelihood : tensor) (batch_size : nat) (rest : list nat)
  (height width : Z) :
  shape likelihood = batch_size :: rest ->
  (0 < batch_size)%nat ->
  (0 < height)%Z -> (0 < width)%Z -> (height * width < 2 ^ 63)%Z ->
  Forall (fun v => MIN_LIKELIHOOD <= v <= 1 - 1e-9) (entries likelihood) ->
  exists n_bits bpp : R,
    CodingModel._estimate_entropy likelihood [height; width]
      = inr (Finite n_bits, Finite bpp)
    /\ 0 <= n_bits /\ 0 <= bpp.
Proof.
  intros Sh Hb Hh Hw Hp He.
  pose proof ln_2_pos as L2.
  assert (Bpos : 0 < INR batch_size) by (apply lt_0_INR; assumption).
  assert (Ppos : 0 < IZR (np.prod [height; width])).
  { rewrite np_prod_small by assumption. apply IZR_lt. nia. }
  assert (Ssum : torch.sum (torch.log (tadds likelihood 1e-9)) <= 0).
  { unfold torch.sum, entries. cbn [torch.log tadds tmap shape item].
    apply sum_nonpos. apply Forall_map.
    unfold entries in He. rewrite Forall_map in He.
    eapply Forall_impl; [|exact He]. cbn beta. intros i [Lo Hi].
    unfold MIN_LIKELIHOOD in Lo. apply ln_nonpos; lra. }
  unfold CodingModel._estimate_entropy, CodingModel.size0. rewrite Sh.
  cbn [rbind ok length Nat.eqb negb]. unfold np.log.
  set (S := torch.sum (torch.log (tadds likelihood 1e-9))) in *.
  assert (Q : INR batch_size * - ln 2 < 0) by nra.
  rewrite !fdiv_finite by lra.
  do 2 eexists. split; [reflexivity|].
  assert (N : 0 <= S / (INR batch_size * - ln 2)).
  { replace (S / (INR batch_size * - ln 2)) with ((- S) / (INR batch_size * ln 2))
      by (field; lra).
    apply Rle_mult_inv_pos; [lra|nra]. }
  split; [exact N|]. apply Rle_mult_inv_pos; assumption.
Qed.

(** With an empty batch the division is by zero: neither [n_bits] nor
    [bpp] is a finite number. *)
Lemma estimate_entropy_empty_batch (likelihood : tensor) (rest : list nat)
  (spatial_shape : list Z) :
  shape likelihood = O :: rest ->
  length spatial_shape = 2%nat ->
  CodingModel._estimate_entropy likelihood spatial_shape = inr (NonFinite, NonFinite).
Proof.
  intros Sh Hl. unfold CodingModel._estimate_entropy, CodingModel.size0.
  rewrite Sh, Hl. cbn [rbind ok Nat.eqb negb INR].
  assert (E : forall x, fdiv (Finite x) (0 * - np.log 2) = NonFinite).
  { intros x. unfold fdiv. destruct (Req_dec_T (0 * - np.log 2) 0) as [_|N]; [reflexivity|].
    exfalso. apply N. ring. }
  rewrite E. reflexivity.
Qed.

(** C5, amended, at the likelihood [[0.5]]. *)
Lemma estimate_entropy_nonneg_witness :
  exists n_bits bpp : R,
    CodingModel._estimate_entropy (torch.full [1; 1; 1; 1]%nat (1 / 2)) [1%Z; 1%Z]
      = inr (Finite n_bits, Finite bpp)
    /\ 0 <= n_bits /\ 0 <= bpp.
Proof.
  apply (estimate_entropy_nonneg (torch.full [1; 1; 1; 1]%nat (1 / 2)) 1 [1; 1; 1]%nat 1 1).
  - reflexivity.
  - lia.
  - lia.
  - lia.
  - lia.
  - repeat constructor; unfold MIN_LIKELIHOOD; cbn; lra.
Defined.

Section Runs.
Context `{Backend}.

(** ** Constructions that succeed *)
Lemma pow_positive (x e : R) : 0 < x -> HyperpriorDensity.pow x e = Some (Rpower x e).
Proof.
  intros P. unfold HyperpriorDensity.pow. destruct (Rlt_dec 0 x); [reflexivity|contradiction].
Qed.

Lemma new_full_runs (dims : list Z) (v : R) :
  Forall (fun d => (0 <= d)%Z) dims ->
  HyperpriorDensity.new_full dims v = ok (torch.full (map Z.to_nat dims) v).
Proof.
  intros Hd. unfold HyperpriorDensity.new_full.
  replace (existsb (fun d => (d <? 0)%Z) dims) with false; [reflexivity|].
  symmetry. induction Hd as [|d dims Hd _ IH]; cbn [existsb]; [reflexivity|].
  rewrite IH. destruct (Z.ltb_spec d 0); [lia|reflexivity].
Qed.

Lemma init_stage_runs (n_channels : Z) (filters_ : list Z) (scale : R)
  (self : HyperpriorDensity.t) (k : nat) (g : rng) :
  (0 <= n_channels)%Z -> scale <> 0 ->
  (0 < nth (k + 1) filters_ 0)%Z -> (0 <= nth k filters_ 0)%Z ->
  exists self' g',
    HyperpriorDensity.init_stage n_channels filters_ (Some scale) self k g = (inr self', g').
Proof.
  intros Hn Hs H1 H0. unfold HyperpriorDensity.init_stage. cbv zeta.
  destruct (Req_dec_T scale 0) as [|_]; [contradiction|].
  destruct (Z.eqb_spec (nth (k + 1) filters_ 0%Z) 0) as [E|_]; [lia|].
  rewrite !new_full_runs by (repeat constructor; lia).
  unfold mbind, lift, ret, ok. cbv beta iota.
  destruct (uniform_ _ (-0.5) 0.5 g) as [b g1]. do 2 eexists. reflexivity.
Qed.

Lemma density_init_runs (n_channels : Z) (min_likelihood max_likelihood : R) (g : rng) :
  (0 <= n_channels)%Z ->
  exists d g',
    HyperpriorDensity.__init__ n_channels 10 [3%Z; 3%Z; 3%Z] min_likelihood max_likelihood g
    = (inr d, g').
Proof.
  intros Hn. unfold HyperpriorDensity.__init__. cbv zeta.
  rewrite pow_positive by lra.
  assert (Hs : Rpower 10 (1 / INR (length [3%Z; 3%Z; 3%Z] + 1)) <> 0).
  { unfold Rpower. apply Rgt_not_eq, exp_pos. }
  set (scale := Rpower 10 _) in *.
  cbn [length Nat.add seq app HyperpriorDensity.for_each].
  repeat match goal with
  | |- exists d g', mbind (HyperpriorDensity.init_stage ?n ?fs (Some ?sc) ?s ?k) _ ?g0 = _ =>
      let E := fresh "E" in
      destruct (init_stage_runs n fs sc s k g0) as (? & ? & E);
      [assumption|assumption|cbn; lia|cbn; lia|];
      unfold mbind at 1; rewrite E; clear E
  end.
  do 2 eexists. reflexivity.
Qed.

(** Without filters the exponent of [init_scale] is 1 and the scale is
    [init_scale] itself: the constructor returns for a negative
    [init_scale] as well. *)
Lemma density_init_runs_negative_scale (n_channels : Z) (init_scale : R)
  (min_likelihood max_likelihood : R) (g : rng) :
  (0 <= n_channels)%Z -> init_scale < 0 ->
  exists d g',
    HyperpriorDensity.__init__ n_channels init_scale [] min_likelihood max_likelihood g
    = (inr d, g').
Proof.
  intros Hn Hs. unfold HyperpriorDensity.__init__. cbv zeta.
  assert (P : HyperpriorDensity.pow init_scale (1 / INR (length (@nil Z) + 1))
              = Some init_scale).
  { unfold HyperpriorDensity.pow.
    destruct (Rlt_dec 0 init_scale) as [L|_]; [lra|].
    destruct (Req_dec_T init_scale 0) as [Z0|_]; [lra|].
    destruct (Req_dec_T (1 / INR (length (@nil Z) + 1)) 1) as [_|N]; [reflexivity|].
    exfalso. apply N. cbn [length Nat.add INR]. field. }
  rewrite P. cbn [length Nat.add seq app HyperpriorDensity.for_each].
  destruct (init_stage_runs n_channels [1%Z; 1%Z] init_scale
              (HyperpriorDensity.Make init_scale [] min_likelihood max_likelihood [])
              0%nat g) as (d & g' & E); [assumption|lra|cbn; lia|cbn; lia|].
  unfold mbind at 1. rewrite E. do 2 eexists. reflexivity.
Qed.

End Runs.

Lemma Hyperprior_init_runs :
  exists hp g',
    @Hyperprior.__init__ Fixture.backend 1 1 "large" "logistic" MIN_SCALE 0%nat = (inr hp, g').
Proof.
  unfold Hyperprior.__init__. cbv zeta.
  do 3 (lazymatch goal with
        | |- exists hp g', mbind ?m _ ?g = (inr hp, g') => execM m g; cbv beta iota zeta
        end).
  lazymatch goal with
  | |- exists hp g', mbind ?m _ ?g = (inr hp, g') =>
      let E := fresh "E" in
      destruct (@density_init_runs Fixture.backend 1 MIN_LIKELIHOOD MAX_LIKELIHOOD g)
        as (d & g1 & E); [lia|];
      unfold mbind at 1;
      change (String.eqb "large" "small") with false in E |- *; cbv iota in E |- *;
      rewrite E; clear E
  end.
  do 2 eexists. reflexivity.
Qed.

Lemma HyperpriorDLMM_init_runs :
  exists hp g',
    @HyperpriorDLMM.__init__ Fixture.backend 1 1 "large" "gaussian" MIN_SCALE 4 0%nat
    = (inr hp, g').
Proof.
  unfold HyperpriorDLMM.__init__. cbv zeta.
  change (negb (1 <=? 128)%Z) with false. cbv iota.
  do 2 (lazymatch goal with
        | |- exists hp g', mbind ?m _ ?g = (inr hp, g') => execM m g; cbv beta iota zeta
        end).
  lazymatch goal with
  | |- exists hp g', mbind ?m _ ?g = (inr hp, g') =>
      let E := fresh "E" in
      destruct (@density_init_runs Fixture.backend 1 MIN_LIKELIHOOD MAX_LIKELIHOOD g)
        as (d & g1 & E); [lia|];
      unfold mbind at 1;
      change (String.eqb "large" "small") with false in E |- *; cbv iota in E |- *;
      rewrite E; clear E
  end.
  do 2 eexists. reflexivity.
Qed.

Section Claims.
Context `{Backend}.

(** C9.  With a [likelihood_type] that is neither ['gaussian'] nor
    ['logistic'], the construction of [Hyperprior] and of [HyperpriorDLMM]
    raises.  With [bottleneck_capacity > 128], the construction of
    [HyperpriorDLMM] raises the assertion error, before anything is drawn.
    With a recognized [likelihood_type] (and, for [HyperpriorDLMM], a
    capacity of at most 128), whatever the construction raises is neither a
    [ValueError] nor an [AssertionError]. *)
Theorem construction_errors (bottleneck_capacity hyperlatent_filters : Z)
  (mode likelihood_type : string) (scale_lower_bound : R) (mixture_components : Z)
  (g : rng) :
  (likelihood_type <> "gaussian"%string -> likelihood_type <> "logistic"%string ->
     (exists e g',
        Hyperprior.__init__ bottleneck_capacity hyperlatent_filters mode
          likelihood_type scale_lower_bound g = (inl e, g'))
     /\ (exists e g',
        HyperpriorDLMM.__init__ bottleneck_capacity hyperlatent_filters mode
          likelihood_type scale_lower_bound mixture_components g = (inl e, g')))
  /\ ((128 < bottleneck_capacity)%Z ->
      HyperpriorDLMM.__init__ bottleneck_capacity hyperlatent_filters mode
        likelihood_type scale_lower_bound mixture_components g
      = (inl (AssertionError "Will probably run out of memory!"), g))
  /\ (likelihood_type = "gaussian"%string \/ likelihood_type = "logistic"%string ->
      (forall e g',
         Hyperprior.__init__ bottleneck_capacity hyperlatent_filters mode
           likelihood_type scale_lower_bound g = (inl e, g') ->
         is_config_error e = false)
      /\ ((bottleneck_capacity <= 128)%Z ->
          forall e g',
            HyperpriorDLMM.__init__ bottleneck_capacity hyperlatent_filters mode
              likelihood_type scale_lower_bound mixture_components g = (inl e, g') ->
            is_config_error e = false)).
Proof.
  split; [|split].
  - intros G L. split.
    + now apply Hyperprior_init_unknown.
    + now apply HyperpriorDLMM_init_unknown.
  - apply HyperpriorDLMM_init_capacity.
  - intros L. split.
    + intros e g'. now apply Hyperprior_init_recognized.
    + intros C e g'. now apply HyperpriorDLMM_init_recognized.
Qed.

(** C4.  The constructors of [Hyperprior] and [HyperpriorDLMM] set
    [min_likelihood] to [1e-9], for the model and for its hyperlatent
    density.  Every entry of the factorized likelihood and of the latent
    likelihood is at least the [min_likelihood] of its object; every entry
    of the probability mass of a mixture component is at least [1e-9]; and,
    for a mixture of at least one component, so is [exp(log_DLMM)]. *)
Theorem likelihood_floor :
  (forall bottleneck_capacity hyperlatent_filters mode likelihood_type scale_lower_bound
          g hp g',
      Hyperprior.__init__ bottleneck_capacity hyperlatent_filters mode likelihood_type
        scale_lower_bound g = (inr hp, g') ->
      CodingModel.min_likelihood (Hyperprior.base hp) = 1e-9
      /\ HyperpriorDensity.min_likelihood (Hyperprior.hyperlatent_likelihood hp) = 1e-9)
  /\ (forall bottleneck_capacity hyperlatent_filters mode likelihood_type scale_lower_bound
             mixture_components g hp g',
      HyperpriorDLMM.__init__ bottleneck_capacity hyperlatent_filters mode likelihood_type
        scale_lower_bound mixture_components g = (inr hp, g') ->
      CodingModel.min_likelihood (HyperpriorDLMM.base hp) = 1e-9
      /\ HyperpriorDensity.min_likelihood (HyperpriorDLMM.hyperlatent_likelihood hp) = 1e-9)
  /\ (forall (density : HyperpriorDensity.t) (x likelihood_ : tensor) (i : list nat),
      HyperpriorDensity.likelihood density x = inr likelihood_ ->
      HyperpriorDensity.min_likelihood density <= item likelihood_ i)
  /\ (forall (self : CodingModel.t) (x mean scale likelihood_ : tensor) (i : list nat),
      CodingModel.latent_likelihood self x mean scale = inr likelihood_ ->
      CodingModel.min_likelihood self <= item likelihood_ i)
  /\ (forall (self : HyperpriorDLMM.t) (x DLMM_params logit_pis pmf : tensor)
             (i : list nat),
      HyperpriorDLMM.pmf_mixture_component self x DLMM_params = inr (logit_pis, pmf) ->
      1e-9 <= item pmf i)
  /\ (forall (self : HyperpriorDLMM.t) (x DLMM_params logit_pis pmf log_DLMM : tensor)
             (i : list nat),
      HyperpriorDLMM.pmf_mixture_component self x DLMM_params = inr (logit_pis, pmf) ->
      HyperpriorDLMM.latent_log_likelihood_DLMM self x DLMM_params = inr log_DLMM ->
      (0 < nth 2 (shape logit_pis) 0)%nat ->
      valid_index (shape log_DLMM) i ->
      1e-9 <= exp (item log_DLMM i)).
Proof.
  repeat split.
  - eapply Hyperprior_init_min_likelihood; eassumption.
  - eapply Hyperprior_init_min_likelihood; eassumption.
  - eapply HyperpriorDLMM_init_min_likelihood; eassumption.
  - eapply HyperpriorDLMM_init_min_likelihood; eassumption.
  - intros. eapply density_likelihood_floor; eassumption.
  - intros. eapply latent_likelihood_floor; eassumption.
  - intros. eapply pmf_mixture_component_floor; eassumption.
  - intros. eapply mixture_likelihood_floor; eassumption.
Qed.

End Claims.

(** C9 at the fixture. *)
Lemma construction_errors_witness :
  ((exists e g',
       @Hyperprior.__init__ Fixture.backend 1 1 "large" "poisson" MIN_SCALE 0%nat
       = (inl e, g'))
   /\ (exists e g',
       @HyperpriorDLMM.__init__ Fixture.backend 1 1 "large" "poisson" MIN_SCALE 4 0%nat
       = (inl e, g')))
  /\ @HyperpriorDLMM.__init__ Fixture.backend 129 1 "large" "gaussian" MIN_SCALE 4 0%nat
     = (inl (AssertionError "Will probably run out of memory!"), 0%nat)
  /\ (forall e g',
        @Hyperprior.__init__ Fixture.backend 1 1 "large" "logistic" MIN_SCALE 0%nat
        = (inl e, g') -> is_config_error e = false)
  /\ (forall e g',
        @HyperpriorDLMM.__init__ Fixture.backend 128 1 "large" "gaussian" MIN_SCALE 4 0%nat
        = (inl e, g') -> is_config_error e = false).
Proof.
  split; [|split; [|split]].
  - apply (proj1 (@construction_errors Fixture.backend 1 1 "large" "poisson" MIN_SCALE 4 0%nat));
      discriminate.
  - apply (proj1 (proj2 (@construction_errors Fixture.backend 129 1 "large" "gaussian"
                           MIN_SCALE 4 0%nat))).
    reflexivity.
  - apply (proj2 (proj2 (@construction_errors Fixture.backend 1 1 "large" "logistic"
                           MIN_SCALE 4 0%nat))).
    right. reflexivity.
  - apply (proj2 (proj2 (@construction_errors Fixture.backend 128 1 "large" "gaussian"
                           MIN_SCALE 4 0%nat))).
    + left. reflexivity.
    + discriminate.
Defined.

(** At the fixture, where the transforms and the density are built without
    error, the error of an unknown likelihood is the [ValueError]. *)
Lemma unknown_likelihood_is_value_error :
  exists g',
    @Hyperprior.__init__ Fixture.backend 1 1 "large" "poisson" MIN_SCALE 0%nat
    = (inl (ValueError "Unknown likelihood model: poisson"), g').
Proof.
  unfold Hyperprior.__init__. cbv zeta.
  do 3 (lazymatch goal with
        | |- exists g', mbind ?m _ ?g = _ =>
            let v := eval hnf in (m g) in
            lazymatch v with
            | (?r, ?g1) =>
                let r' := eval hnf in r in
                let g1' := eval lazy in g1 in
                let E := fresh "E" in
                assert (E : m g = (r', g1')) by reflexivity;
                unfold mbind at 1; rewrite E; clear E; cbv beta iota zeta
            end
        end).
  lazymatch goal with
  | |- exists g', mbind ?m _ ?g = _ =>
      let E := fresh "E" in
      destruct (@density_init_runs Fixture.backend 1 MIN_LIKELIHOOD MAX_LIKELIHOOD g)
        as (d & g1 & E); [lia|];
      unfold mbind at 1;
      change (String.eqb "large" "small") with false in E |- *; cbv iota in E |- *;
      rewrite E; clear E
  end.
  eexists. reflexivity.
Qed.

(** C4 at the fixture. *)
Lemma likelihood_floor_witness :
  (exists hp g',
      @Hyperprior.__init__ Fixture.backend 1 1 "large" "logistic" MIN_SCALE 0%nat
      = (inr hp, g')
      /\ CodingModel.min_likelihood (Hyperprior.base hp) = 1e-9
      /\ HyperpriorDensity.min_likelihood (Hyperprior.hyperlatent_likelihood hp) = 1e-9)
  /\ (exists hp g',
      @HyperpriorDLMM.__init__ Fixture.backend 1 1 "large" "gaussian" MIN_SCALE 4 0%nat
      = (inr hp, g')
      /\ CodingModel.min_likelihood (HyperpriorDLMM.base hp) = 1e-9
      /\ HyperpriorDensity.min_likelihood (HyperpriorDLMM.hyperlatent_likelihood hp) = 1e-9)
  /\ (exists likelihood_,
      HyperpriorDensity.likelihood Fixture.zero_density (torch.zeros [1; 1; 2; 2]%nat)
      = inr likelihood_
      /\ HyperpriorDensity.min_likelihood Fixture.zero_density
         <= item likelihood_ [0; 0; 0; 0]%nat)
  /\ (exists likelihood_,
      CodingModel.latent_likelihood (Hyperprior.base (Fixture.hyperprior true))
        (torch.zeros [1; 1; 1; 1]%nat) (torch.zeros [1; 1; 1; 1]%nat)
        (torch.ones [1; 1; 1; 1]%nat) = inr likelihood_
      /\ CodingModel.min_likelihood (Hyperprior.base (Fixture.hyperprior true))
         <= item likelihood_ [0; 0; 0; 0]%nat)
  /\ (exists logit_pis pmf log_DLMM,
      HyperpriorDLMM.pmf_mixture_component (Fixture.hyperprior_DLMM true)
        (torch.zeros [1; 1; 8; 8]%nat) (torch.zeros [1; 12; 8; 8]%nat)
      = inr (logit_pis, pmf)
      /\ HyperpriorDLMM.latent_log_likelihood_DLMM (Fixture.hyperprior_DLMM true)
           (torch.zeros [1; 1; 8; 8]%nat) (torch.zeros [1; 12; 8; 8]%nat)
         = inr log_DLMM
      /\ 1e-9 <= item pmf [0; 0; 0; 0; 0]%nat
      /\ 1e-9 <= exp (item log_DLMM [0; 0; 0; 0]%nat)).
Proof.
  pose proof (@likelihood_floor Fixture.backend) as (F1 & F2 & F3 & F4 & F5 & F6).
  split; [|split; [|split; [|split]]].
  - destruct Hyperprior_init_runs as (hp & g' & E).
    exists hp, g'. split; [exact E|]. exact (F1 _ _ _ _ _ _ _ _ E).
  - destruct HyperpriorDLMM_init_runs as (hp & g' & E).
    exists hp, g'. split; [exact E|]. exact (F2 _ _ _ _ _ _ _ _ _ E).
  - unfold torch.zeros, torch.full.
    destruct (zero_density_forward (fun _ => 0)) as (L & E & _).
    exists L. split; [exact E|]. exact (F3 _ _ _ _ E).
  - unfold torch.zeros, torch.ones, torch.full. cbn [Fixture.hyperprior Hyperprior.base].
    destruct (latent_likelihood_runs (fun _ => 0) (fun _ => 0) (fun _ => 1)) as (L & E & _).
    exists L. split; [exact E|]. exact (F4 _ _ _ _ _ _ E).
  - unfold torch.zeros, torch.full.
    destruct (pmf_mixture_component_runs true (fun _ => 0) (fun _ => 0)) as (lp & pmf & Ec).
    destruct (latent_log_likelihood_DLMM_runs true (fun _ => 0) (fun _ => 0)) as (L & El & SL).
    exists (Tensor [1; 1; 4; 8; 8]%nat lp), (Tensor [1; 1; 4; 8; 8]%nat pmf), L.
    split; [exact Ec|]. split; [exact El|]. split.
    + exact (F5 _ _ _ _ _ _ Ec).
    + apply (F6 _ _ _ _ _ _ _ Ec El).
      * cbn. lia.
      * rewrite SL. repeat constructor; lia.
Defined.

(** C1, amended, at the density whose parameters are zero. *)
Lemma cdf_logits_gated_stages_witness :
  HyperpriorDensity.cdf_logits Fixture.zero_density (torch.zeros [1; 1; 1]%nat) true
  = Spec.cdf_logits Spec.gated_stage
      (fun k => torch.zeros [1; nth (k + 1) Fixture.zero_widths 0; nth k Fixture.zero_widths 0]%nat)
      (fun k => torch.zeros [1; nth (k + 1) Fixture.zero_widths 0; 1]%nat)
      (fun k => torch.zeros [1; nth (k + 1) Fixture.zero_widths 0; 1]%nat)
      3 (torch.zeros [1; 1; 1]%nat).
Proof.
  apply (cdf_logits_gated_stages Fixture.zero_density (torch.zeros [1; 1; 1]%nat) true).
  intros k Hk. cbn [Fixture.zero_density HyperpriorDensity.filters length] in Hk.
  destruct k as [|[|[|[|k]]]]; [| | | |lia]; repeat split; reflexivity.
Defined.

(** C2, amended, for tensors of [float32], at [x = [2.5, 2.5]] with the
    means [[1]], broadcast to the shape of [x]: [1.5] rounds up to [2], and
    the result is [3]. *)
Lemma quantize_rounds_half_up_witness :
  exists q : tensor,
    @CodingModel._quantize_rounded Fixture.backend dtype.float32
      (torch.full [2]%nat (5 / 2)) "quantize" (Some (torch.full [1]%nat 1)) 0%nat
    = (inr q, 0%nat)
    /\ shape q = [2]%nat
    /\ item q [1%nat] = 3.
Proof.
  pose proof (proj2 (@quantize_rounds_half_up Fixture.backend dtype.float32
                       (torch.full [2]%nat (5 / 2)) 0%nat)
                (torch.full [1]%nat 1)) as W.
  change (broadcast_shapes (shape (torch.full [2]%nat (5 / 2)))
            (shape (torch.full [1]%nat 1))) with (Some [2]%nat) in W.
  destruct W as (q & E & S & V).
  exists q. split; [exact E|]. split; [exact S|].
  destruct (V [1%nat]) as [_ Q]; [repeat constructor|].
  cbv zeta in Q. cbn [item torch.full shape expand_index combine skipn length Nat.sub
                      map fst snd Nat.eqb] in Q.
  assert (A : 5 / 2 - 1 + 0.5 = IZR 2) by lra.
  rewrite A, ZfloorZ in Q.
  destruct Q as [Q _]; [| | |rewrite Q; lra].
  - replace (5 / 2 - 1) with (IZR 3 * powerRZ 2 (-1))
      by (change (powerRZ 2 (-1)) with (/ (2 * 1)); lra).
    apply round_representable; lia.
  - apply round_integer; lia.
  - replace (IZR 2 + 1) with (IZR 3) by lra. apply round_integer; lia.
Defined.

(** * Further properties of the code *)

(** ** The logits of the CDF are monotone *)
Lemma cosh_pos (x : R) : 0 < cosh x.
Proof. unfold cosh. pose proof (exp_pos x). pose proof (exp_pos (- x)). lra. Qed.

Lemma cosh2_sinh2 (x : R) : cosh x * cosh x - sinh x * sinh x = 1.
Proof.
  unfold cosh, sinh.
  assert (E : exp x * exp (- x) = 1) by (rewrite <- exp_plus, Rplus_opp_r; apply exp_0).
  nra.
Qed.

Lemma derivable_pt_lim_tanh (x : R) :
  derivable_pt_lim Rtrigo_def.tanh x (1 - Rtrigo_def.tanh x * Rtrigo_def.tanh x).
Proof.
  pose proof (cosh_pos x) as P.
  replace (1 - Rtrigo_def.tanh x * Rtrigo_def.tanh x)
    with ((cosh x * cosh x - sinh x * sinh x) / Rsqr (cosh x)).
  - apply (derivable_pt_lim_div sinh cosh x (cosh x) (sinh x)).
    + apply derivable_pt_lim_sinh.
    + apply derivable_pt_lim_cosh.
    + lra.
  - unfold Rtrigo_def.tanh, Rsqr. field. lra.
Qed.

Lemma tanh_bounds (x : R) : -1 < Rtrigo_def.tanh x < 1.
Proof.
  pose proof (cosh_pos x) as P. unfold Rtrigo_def.tanh.
  assert (sinh x < cosh x) by (unfold sinh, cosh; pose proof (exp_pos (- x)); lra).
  assert (- cosh x < sinh x) by (unfold sinh, cosh; pose proof (exp_pos x); lra).
  split.
  - apply (Rmult_lt_reg_r (cosh x)); [assumption|].
    unfold Rdiv. rewrite Rmult_assoc, Rinv_l by lra. lra.
  - apply (Rmult_lt_reg_r (cosh x)); [assumption|].
    unfold Rdiv. rewrite Rmult_assoc, Rinv_l by lra. lra.
Qed.

(** [tanh] is non-decreasing and 1-Lipschitz. *)
Lemma tanh_increment (u v : R) :
  u <= v -> 0 <= Rtrigo_def.tanh v - Rtrigo_def.tanh u <= v - u.
Proof.
  intros [L|E]; [|subst; lra].
  destruct (MVT_cor2 Rtrigo_def.tanh (fun c => 1 - Rtrigo_def.tanh c * Rtrigo_def.tanh c) u v L)
    as (c & Ec & _).
  { intros c _. apply derivable_pt_lim_tanh. }
  rewrite Ec. pose proof (tanh_bounds c) as [B1 B2].
  assert (0 <= 1 - Rtrigo_def.tanh c * Rtrigo_def.tanh c <= 1) by nra.
  nra.
Qed.

(** The gate [u + tanh(a) * tanh(u)] of a stage is non-decreasing in [u]. *)
Lemma gate_monotone (a u v : R) :
  u <= v ->
  u + Rtrigo_def.tanh a * Rtrigo_def.tanh u <= v + Rtrigo_def.tanh a * Rtrigo_def.tanh v.
Proof.
  intros L. pose proof (tanh_increment u v L). pose proof (tanh_bounds a). nra.
Qed.

Lemma softplus_nonneg (v : R) : 0 <= F.softplus_ v.
Proof.
  unfold F.softplus_. destruct (Rlt_dec 20 v); [lra|].
  pose proof (exp_pos v). rewrite <- ln_1. left. apply ln_increasing; lra.
Qed.

Lemma broadcast_bias (C r n : nat) :
  broadcast_shapes [C; r; n]%nat [C; r; 1]%nat = Some [C; r; n]%nat
  /\ broadcast_shapes [C; r; 1]%nat [C; r; n]%nat = Some [C; r; n]%nat.
Proof.
  unfold broadcast_shapes. cbn [rev app broadcast_rev].
  rewrite !Nat.eqb_refl. destruct n as [|[|n]]; split; reflexivity.
Qed.

Lemma expand_bias (C r c j k : nat) :
  (c < C)%nat -> (j < r)%nat ->
  expand_index [C; r; 1]%nat [c; j; k]%nat = [c; j; 0]%nat.
Proof.
  intros Hc Hj. unfold expand_index. cbn.
  destruct (Nat.eqb_spec C 1), (Nat.eqb_spec r 1); repeat f_equal; lia.
Qed.

Lemma valid3 (C r n c j k : nat) :
  valid_index [C; r; n]%nat [c; j; k]%nat <-> (c < C /\ j < r /\ k < n)%nat.
Proof.
  unfold valid_index. split.
  - intros V. inversion V as [|? ? ? ? Hc V1]; subst.
    inversion V1 as [|? ? ? ? Hj V2]; subst.
    inversion V2 as [|? ? ? ? Hk V3]; subst. auto.
  - intros (Hc & Hj & Hk). repeat constructor; assumption.
Qed.

Lemma valid3_inv (C r n : nat) (i : list nat) :
  valid_index [C; r; n]%nat i ->
  exists c j k, i = [c; j; k]%nat /\ (c < C /\ j < r /\ k < n)%nat.
Proof.
  unfold valid_index. intros V.
  inversion V as [|c ? ? ? Hc V1]; subst.
  inversion V1 as [|j ? ? ? Hj V2]; subst.
  inversion V2 as [|k ? ? ? Hk V3]; subst.
  inversion V3; subst. exists c, j, k. auto.
Qed.

(** The entries of one stage. *)
Lemma gated_stage_entries (C r m n : nat) (H_k a_k b_k t : tensor) :
  shape H_k = [C; r; m]%nat -> shape a_k = [C; r; 1]%nat -> shape b_k = [C; r; 1]%nat ->
  shape t = [C; m; n]%nat ->
  exists y,
    Spec.gated_stage H_k a_k b_k t = inr y
    /\ shape y = [C; r; n]%nat
    /\ forall c j k, (c < C)%nat -> (j < r)%nat -> (k < n)%nat ->
         let u := Rsum (fun l => F.softplus_ (item H_k [c; j; l]%nat) * item t [c; l; k]%nat) m
                  + item b_k [c; j; 0]%nat in
         item y [c; j; k]%nat
         = u + Rtrigo_def.tanh (item a_k [c; j; 0]%nat) * Rtrigo_def.tanh u.
Proof.
  destruct H_k as [sH fH], a_k as [sa fa], b_k as [sb fb], t as [st ft].
  cbn [shape item]. intros -> -> -> ->.
  destruct (broadcast_bias C r n) as [B1 B2].
  unfold Spec.gated_stage, torch.bmm.
  cbn [shape F.softplus tmap]. rewrite !Nat.eqb_refl. cbn [andb rbind ok].
  unfold tadd, tmul. erewrite map2_shape by exact B1.
  cbn [rbind ok shape torch.tanh tmap].
  erewrite map2_shape by exact B2.
  cbn [rbind ok shape].
  rewrite map2_same_shape by reflexivity.
  eexists. split; [reflexivity|]. split; [reflexivity|].
  intros c j k Hc Hj Hk.
  cbn [item shape torch.tanh F.softplus tmap].
  rewrite !expand_index_idem.
  rewrite !(expand_index_valid [C; r; n]%nat [c; j; k]%nat) by (apply valid3; auto).
  rewrite !expand_bias by assumption. cbn [nth]. reflexivity.
Qed.

Lemma Rsum_le_in (f g : nat -> R) (n : nat) :
  (forall k, (k < n)%nat -> f k <= g k) -> Rsum f n <= Rsum g n.
Proof.
  intros L. induction n as [|n IH].
  - unfold Rsum. cbn. lra.
  - rewrite !Rsum_S. pose proof (L n (Nat.lt_succ_diag_r n)).
    assert (Rsum f n <= Rsum g n) by (apply IH; intros k Hk; apply L; lia). lra.
Qed.

Lemma cdf_stage_gated (self : HyperpriorDensity.t) (update_parameters : bool)
  (l H_k a_k b_k : tensor) (k : nat) :
  HyperpriorDensity.getattr self (HyperpriorDensity.format "H_" k) = ok H_k ->
  HyperpriorDensity.getattr self (HyperpriorDensity.format "a_" k) = ok a_k ->
  HyperpriorDensity.getattr self (HyperpriorDensity.format "b_" k) = ok b_k ->
  HyperpriorDensity.cdf_stage self update_parameters l k = Spec.gated_stage H_k a_k b_k l.
Proof.
  intros EH Ea Eb. unfold HyperpriorDensity.cdf_stage, Spec.gated_stage.
  rewrite EH, Ea, Eb. simpl. unfold detach.
  destruct update_parameters; simpl;
    repeat (apply rbind_ext; intros ?); apply rbind_ok.
Qed.

Lemma widths_first (self : HyperpriorDensity.t) : nth 0 (widths self) O = 1%nat.
Proof. reflexivity. Qed.

Lemma widths_last (self : HyperpriorDensity.t) :
  nth (length (HyperpriorDensity.filters self) + 1) (widths self) O = 1%nat.
Proof.
  unfold widths. rewrite Nat.add_1_r. cbn [nth].
  rewrite app_nth2 by (rewrite length_map; lia).
  rewrite length_map, Nat.sub_diag. reflexivity.
Qed.

(** The stages [start .. start + len - 1] on two ordered inputs. *)
Lemma cdf_stages_ordered (self : HyperpriorDensity.t) (C n : nat)
  (update_parameters : bool) :
  registered self C ->
  forall (len start : nat) (t1 t2 : tensor),
    (start + len <= length (HyperpriorDensity.filters self) + 1)%nat ->
    shape t1 = [C; nth start (widths self) O; n]%nat ->
    shape t2 = [C; nth start (widths self) O; n]%nat ->
    (forall c j k, (c < C)%nat -> (j < nth start (widths self) O)%nat -> (k < n)%nat ->
       item t1 [c; j; k]%nat <= item t2 [c; j; k]%nat) ->
    exists y1 y2,
      fold_left (fun logits k =>
                   rbind logits (fun l => HyperpriorDensity.cdf_stage self update_parameters l k))
                (seq start len) (ok t1) = inr y1
      /\ fold_left (fun logits k =>
                   rbind logits (fun l => HyperpriorDensity.cdf_stage self update_parameters l k))
                (seq start len) (ok t2) = inr y2
      /\ shape y1 = [C; nth (start + len) (widths self) O; n]%nat
      /\ shape y2 = [C; nth (start + len) (widths self) O; n]%nat
      /\ (forall c j k, (c < C)%nat -> (j < nth (start + len) (widths self) O)%nat ->
            (k < n)%nat -> item y1 [c; j; k]%nat <= item y2 [c; j; k]%nat).
Proof.
  intros Hreg len. induction len as [|len IH]; intros start t1 t2 Hb S1 S2 Hle.
  - rewrite Nat.add_0_r. exists t1, t2. cbn [seq fold_left]. auto.
  - cbn [seq fold_left rbind ok].
    destruct (Hreg start) as (H_k & a_k & b_k & EH & Ea & Eb & SH & Sa & Sb); [lia|].
    rewrite !(cdf_stage_gated _ _ _ _ _ _ _ EH Ea Eb).
    destruct (gated_stage_entries _ _ _ n _ _ _ t1 SH Sa Sb S1) as (u1 & -> & Su1 & V1).
    destruct (gated_stage_entries _ _ _ n _ _ _ t2 SH Sa Sb S2) as (u2 & -> & Su2 & V2).
    destruct (IH (S start) u1 u2) as (y1 & y2 & E1 & E2 & Sy1 & Sy2 & Hy).
    + lia.
    + rewrite Su1, Nat.add_1_r. reflexivity.
    + rewrite Su2, Nat.add_1_r. reflexivity.
    + replace (S start) with (start + 1)%nat by lia.
      intros c j k Hc Hj Hk. rewrite V1, V2 by assumption. cbv zeta.
      apply gate_monotone. apply Rplus_le_compat_r. apply Rsum_le_in.
      intros l Hl. apply Rmult_le_compat_l; [apply softplus_nonneg|].
      apply Hle; assumption.
    + exists y1, y2. replace (start + S len)%nat with (S start + len)%nat by lia. auto.
Qed.

Lemma cdf_logits_ordered (self : HyperpriorDensity.t) (C n : nat)
  (update_parameters : bool) (x1 x2 : tensor) :
  registered self C ->
  shape x1 = [C; 1; n]%nat -> shape x2 = [C; 1; n]%nat ->
  (forall c k, (c < C)%nat -> (k < n)%nat ->
     item x1 [c; 0; k]%nat <= item x2 [c; 0; k]%nat) ->
  exists y1 y2,
    HyperpriorDensity.cdf_logits self x1 update_parameters = inr y1
    /\ HyperpriorDensity.cdf_logits self x2 update_parameters = inr y2
    /\ shape y1 = [C; 1; n]%nat /\ shape y2 = [C; 1; n]%nat
    /\ forall c k, (c < C)%nat -> (k < n)%nat ->
         item y1 [c; 0; k]%nat <= item y2 [c; 0; k]%nat.
Proof.
  intros Hreg S1 S2 Hle. unfold HyperpriorDensity.cdf_logits.
  destruct (cdf_stages_ordered self C n update_parameters Hreg
              (length (HyperpriorDensity.filters self) + 1) 0 x1 x2)
    as (y1 & y2 & E1 & E2 & Sy1 & Sy2 & Hy); try assumption.
  - lia.
  - intros c j k Hc Hj Hk. rewrite widths_first in Hj.
    replace j with 0%nat by lia. auto.
  - cbn [Nat.add] in Sy1, Sy2, Hy. rewrite widths_last in Sy1, Sy2, Hy.
    exists y1, y2. repeat split; try assumption.
    intros c k Hc Hk. apply Hy; [assumption|lia|assumption].
Qed.

(** X1.  For a density whose registry holds, for every stage, a weight of
    shape [(C, w[k+1], w[k])] and a scale and a bias of shape
    [(C, w[k+1], 1)], [cdf_logits] returns on every input of shape
    [(C, 1, n)], the result has the shape [(C, 1, n)], and it is
    non-decreasing in the input: if [x1 <= x2] entry by entry, so are the
    logits.  ([softplus] makes the weights non-negative, and
    [u + tanh(a) * tanh(u)] is non-decreasing in [u] since [|tanh(a)| < 1]
    and [tanh] is 1-Lipschitz.) *)
Theorem cdf_logits_monotone (self : HyperpriorDensity.t) (C n : nat)
  (update_parameters : bool) (x1 x2 : tensor) :
  registered self C ->
  shape x1 = [C; 1; n]%nat -> shape x2 = [C; 1; n]%nat ->
  (forall c k, (c < C)%nat -> (k < n)%nat ->
     item x1 [c; 0; k]%nat <= item x2 [c; 0; k]%nat) ->
  exists y1 y2,
    HyperpriorDensity.cdf_logits self x1 update_parameters = inr y1
    /\ HyperpriorDensity.cdf_logits self x2 update_parameters = inr y2
    /\ shape y1 = [C; 1; n]%nat /\ shape y2 = [C; 1; n]%nat
    /\ forall c k, (c < C)%nat -> (k < n)%nat ->
         item y1 [c; 0; k]%nat <= item y2 [c; 0; k]%nat.
Proof. apply cdf_logits_ordered. Qed.

(** ** The registry of parameters *)
Lemma getattr_registered (self : HyperpriorDensity.t) (name : string) (p : tensor) :
  HyperpriorDensity.getattr (HyperpriorDensity.register_parameter self name p) name = ok p.
Proof.
  unfold HyperpriorDensity.getattr, HyperpriorDensity.register_parameter.
  cbn [HyperpriorDensity.parameters find fst snd]. rewrite String.eqb_refl. reflexivity.
Qed.

Lemma getattr_other (self : HyperpriorDensity.t) (name name' : string) (p : tensor) :
  name <> name' ->
  HyperpriorDensity.getattr (HyperpriorDensity.register_parameter self name p) name'
  = HyperpriorDensity.getattr self name'.
Proof.
  intros N. unfold HyperpriorDensity.getattr, HyperpriorDensity.register_parameter.
  cbn [HyperpriorDensity.parameters find fst snd].
  destruct (String.eqb_spec name name'); [contradiction|reflexivity].
Qed.

Lemma append_inj (p s s' : string) : (p ++ s = p ++ s')%string -> s = s'.
Proof.
  induction p as [|c p IH]; cbn [append]; intros E; [assumption|].
  injection E as E. auto.
Qed.

Lemma string_of_uint_inj (d d' : Decimal.uint) :
  NilEmpty.string_of_uint d = NilEmpty.string_of_uint d' -> d = d'.
Proof.
  intros E. apply (f_equal NilEmpty.uint_of_string) in E.
  rewrite !NilEmpty.usu in E. congruence.
Qed.

Lemma format_inj (prefix : string) (k k' : nat) :
  HyperpriorDensity.format prefix k = HyperpriorDensity.format prefix k' -> k = k'.
Proof.
  unfold HyperpriorDensity.format. intros E.
  apply append_inj, string_of_uint_inj in E.
  apply Unsigned.to_uint_inj. exact E.
Qed.

Lemma format_prefixes (k k' : nat) :
  HyperpriorDensity.format "H_" k <> HyperpriorDensity.format "a_" k'
  /\ HyperpriorDensity.format "H_" k <> HyperpriorDensity.format "b_" k'
  /\ HyperpriorDensity.format "a_" k <> HyperpriorDensity.format "b_" k'.
Proof. unfold HyperpriorDensity.format. cbn [append]. repeat split; discriminate. Qed.

Section Registry.
Context `{Backend}.

Lemma new_full_shape (dims : list Z) (v : R) (t : tensor) :
  HyperpriorDensity.new_full dims v = inr t -> shape t = map Z.to_nat dims.
Proof.
  unfold HyperpriorDensity.new_full.
  destruct (existsb _ dims); [discriminate|]. intros E. injection E as <-. reflexivity.
Qed.

Lemma init_stage_registers (n_channels : Z) (filters_ : list Z) (scale : option R)
  (self self' : HyperpriorDensity.t) (k : nat) (g g' : rng) :
  HyperpriorDensity.init_stage n_channels filters_ scale self k g = (inr self', g') ->
  stage_registered self' (Z.to_nat n_channels) (map Z.to_nat filters_) k
  /\ forall k', k' <> k -> same_stage self self' k'.
Proof.
  unfold HyperpriorDensity.init_stage. intros E. minv E.
  injection E as <- _.
  assert (S0 : shape t0 = shape t) by (destruct o; [injection E2 as <-; reflexivity|discriminate]).
  apply new_full_shape in E1, E3. cbn [map] in E1, E3.
  assert (S2 : shape t2 = shape t1).
  { pose proof (uniform_shape t1 (-0.5) 0.5 g) as U.
    destruct (uniform_ t1 (-0.5) 0.5 g) as [b g1]. injection E4 as <- _. exact U. }
  pose proof (format_prefixes k k) as (N1 & N2 & N3).
  assert (W : forall j, Z.to_nat (nth j filters_ 0%Z) = nth j (map Z.to_nat filters_) O)
    by (intros j; symmetry; apply (map_nth Z.to_nat filters_ 0%Z)).
  split.
  - exists t0, t1, t2. repeat split.
    + rewrite !getattr_other by (apply not_eq_sym; assumption). apply getattr_registered.
    + rewrite getattr_other by (apply not_eq_sym; assumption). apply getattr_registered.
    + apply getattr_registered.
    + rewrite S0, E1, !W. reflexivity.
    + rewrite E3, W. reflexivity.
    + rewrite S2, E3, W. reflexivity.
  - intros k' Nk prefix Hp.
    assert (D : forall p, In p ["H_"; "a_"; "b_"]%string ->
              HyperpriorDensity.format p k <> HyperpriorDensity.format prefix k').
    { intros p Hq Q.
      cbn [In] in Hp, Hq.
      destruct Hp as [<-|[<-|[<-|[]]]], Hq as [<-|[<-|[<-|[]]]];
        try (apply format_inj in Q; congruence);
        unfold HyperpriorDensity.format in Q; cbn [append] in Q; discriminate Q. }
    rewrite !getattr_other by (apply D; cbn; auto). reflexivity.
Qed.

Lemma for_each_registers (n_channels : Z) (filters_ : list Z) (scale : option R)
  (ks : list nat) (self self' : HyperpriorDensity.t) (g g' : rng) :
  HyperpriorDensity.for_each (HyperpriorDensity.init_stage n_channels filters_ scale)
    ks self g = (inr self', g') ->
  (forall k, In k ks ->
     stage_registered self' (Z.to_nat n_channels) (map Z.to_nat filters_) k)
  /\ (forall k, ~ In k ks -> same_stage self self' k).
Proof.
  revert self g. induction ks as [|k ks IH]; intros self g E;
    cbn [HyperpriorDensity.for_each] in E.
  - unfold ret in E. injection E as <- _. split; [intros k []|].
    intros k _ prefix _. reflexivity.
  - minv E. apply IH in E. apply init_stage_registers in E0.
    destruct E as [R1 P1], E0 as [R0 P0]. split.
    + intros k0 Hk. destruct (in_dec Nat.eq_dec k0 ks) as [I|I]; [apply R1, I|].
      destruct Hk as [<-|Hk]; [|contradiction].
      destruct R0 as (H_k & a_k & b_k & EH & Ea & Eb & Ss).
      exists H_k, a_k, b_k.
      rewrite !(P1 k I) by (cbn; auto). auto.
    + intros k0 Hk prefix Hp. cbn [In] in Hk.
      rewrite (P1 k0) by tauto. apply P0; [intros ->; tauto|assumption].
Qed.

(** X: whenever the constructor returns, every stage [0..K] has its three
    parameters in the registry, with the shapes [(C, w[k+1], w[k])],
    [(C, w[k+1], 1)] and [(C, w[k+1], 1)] for [w = (1,) + filters + (1,)]. *)
Lemma density_init_registry (n_channels : Z) (init_scale : R) (filters : list Z)
  (min_likelihood max_likelihood : R) (d : HyperpriorDensity.t) (g g' : rng) :
  HyperpriorDensity.__init__ n_channels init_scale filters min_likelihood max_likelihood g
    = (inr d, g') ->
  registered d (Z.to_nat n_channels).
Proof.
  intros E. pose proof (density_init_attributes _ _ _ _ _ _ _ _ E) as [_ Fd].
  unfold HyperpriorDensity.__init__ in E. apply for_each_registers in E.
  destruct E as [R1 _]. intros k Hk. rewrite Fd in Hk.
  specialize (R1 k). unfold widths. rewrite Fd.
  replace (1 :: map Z.to_nat filters ++ [1])%nat
    with (map Z.to_nat ([1%Z] ++ filters ++ [1%Z])%list)
    by (cbn [app map]; rewrite map_app; reflexivity).
  apply R1. apply in_seq. lia.
Qed.

(** X2.  Whenever [HyperpriorDensity.__init__] returns, every stage
    [k = 0..len(filters)] has its three parameters [H_k], [a_k], [b_k] in
    the registry, of the shapes [(n_channels, w[k+1], w[k])],
    [(n_channels, w[k+1], 1)] and [(n_channels, w[k+1], 1)] for
    [w = (1,) + filters + (1,)]: no registration shadows another one. *)
Theorem density_init_registered (n_channels : Z) (init_scale : R) (filters : list Z)
  (min_likelihood max_likelihood : R) (d : HyperpriorDensity.t) (g g' : rng) :
  HyperpriorDensity.__init__ n_channels init_scale filters min_likelihood max_likelihood g
    = (inr d, g') ->
  registered d (Z.to_nat n_channels).
Proof. apply density_init_registry. Qed.
End Registry.

Lemma zero_density_registered : registered Fixture.zero_density 1.
Proof.
  intros k Hk. destruct (zero_density_registry k Hk) as (EH & Ea & Eb).
  eexists _, _, _. repeat split; try eassumption; reflexivity.
Qed.

(** X1 at the all-zero density: the logits at [0] are at most those at [1]. *)
Lemma cdf_logits_monotone_witness :
  exists y1 y2,
    HyperpriorDensity.cdf_logits Fixture.zero_density (torch.zeros [1; 1; 1]%nat) true = inr y1
    /\ HyperpriorDensity.cdf_logits Fixture.zero_density (torch.ones [1; 1; 1]%nat) true = inr y2
    /\ shape y1 = [1; 1; 1]%nat /\ shape y2 = [1; 1; 1]%nat
    /\ item y1 [0; 0; 0]%nat <= item y2 [0; 0; 0]%nat.
Proof.
  destruct (cdf_logits_monotone Fixture.zero_density 1 1 true
              (torch.zeros [1; 1; 1]%nat) (torch.ones [1; 1; 1]%nat)
              zero_density_registered eq_refl eq_refl)
    as (y1 & y2 & E1 & E2 & S1 & S2 & Hy).
  - intros c k _ _. cbn. lra.
  - exists y1, y2. repeat split; try assumption. apply Hy; lia.
Defined.

(** X2 for one channel and the default [filters]. *)
Lemma density_init_registered_witness :
  exists d g',
    @HyperpriorDensity.__init__ Fixture.backend 1 10 [3%Z; 3%Z; 3%Z]
      MIN_LIKELIHOOD MAX_LIKELIHOOD 0%nat = (inr d, g')
    /\ registered d 1.
Proof.
  destruct (@density_init_runs Fixture.backend 1 MIN_LIKELIHOOD MAX_LIKELIHOOD 0%nat)
    as (d & g' & E); [lia|].
  exists d, g'. split; [exact E|].
  exact (@density_init_registered Fixture.backend _ _ _ _ _ _ _ _ E).
Defined.

(** ** The factorized likelihood *)
Lemma sigmoid_lt_1 (v : R) : torch.sigmoid_ v < 1.
Proof. pose proof (sigmoid_pos (- v)). rewrite sigmoid_neg in H. lra. Qed.

Lemma permute_inv (t T : tensor) (dims : list nat) :
  permute t dims = inr T ->
  shape T = map (fun d => nth d (shape t) O) dims
  /\ item T = fun i => item t (map (fun d => nth (index_of d dims) i O)
                                 (seq 0 (length (shape t)))).
Proof.
  unfold permute. destruct (_ && _)%bool; [|discriminate].
  intros E. injection E as <-. split; reflexivity.
Qed.

Lemma map_to_nat_of_nat (l : list nat) : map Z.to_nat (map Z.of_nat l) = l.
Proof.
  induction l as [|a l IH]; [reflexivity|]. cbn [map]. now rewrite Nat2Z.id, IH.
Qed.

Lemma Forall_of_nat_nonneg (l : list nat) : Forall (fun d => (0 <= d)%Z) (map Z.of_nat l).
Proof. apply Forall_map, Forall_forall. intros. lia. Qed.

(** X4.  Whatever the registry and the input, a likelihood that
    [HyperpriorDensity.likelihood] returns has the shape of its input, and
    no entry of it exceeds 1 (for a floor [min_likelihood <= 1]). *)
Theorem likelihood_shape_and_ceiling (self : HyperpriorDensity.t) (x L : tensor) :
  HyperpriorDensity.likelihood self x = inr L ->
  shape L = shape x
  /\ (HyperpriorDensity.min_likelihood self <= 1 -> forall i, item L i <= 1).
Proof.
  unfold HyperpriorDensity.likelihood. intros E. rinv E. subst.
  injection E as <-.
  apply permute_inv in E0, E9. destruct E0 as [S0 _], E9 as [S9 I9].
  apply reshape_shape in E8; [|apply Forall_of_nat_nonneg]. destruct E8 as [S8 I8].
  apply map2_inv in E7. destruct E7 as [_ I7].
  rewrite map_to_nat_of_nat in S8. rewrite Heql in S0. cbn in S0.
  split.
  - cbn [lower_bound_toward maths.LowerBoundToward_apply tmap shape].
    rewrite S9, S8, S0. reflexivity.
  - intros Hm i.
    cbn [lower_bound_toward maths.LowerBoundToward_apply tmap item].
    apply Rmax_lub; [|assumption].
    rewrite I9, I8. cbn [torch.abs tmap item]. rewrite I7.
    cbn [torch.sigmoid tmap item].
    match goal with |- Rabs (torch.sigmoid_ ?a - torch.sigmoid_ ?b) <= 1 =>
      pose proof (sigmoid_pos a); pose proof (sigmoid_pos b);
      pose proof (sigmoid_lt_1 a); pose proof (sigmoid_lt_1 b) end.
    apply Rabs_le. lra.
Qed.

(** X4 at the all-zero density. *)
Lemma likelihood_shape_and_ceiling_witness :
  exists L,
    HyperpriorDensity.likelihood Fixture.zero_density
      (Tensor [1; 1; 2; 2]%nat (fun _ => 0)) = inr L
    /\ shape L = [1; 1; 2; 2]%nat
    /\ item L [0; 0; 0; 0]%nat <= 1.
Proof.
  destruct (zero_density_forward (fun _ => 0)) as (L & E & _).
  exists L. destruct (likelihood_shape_and_ceiling _ _ _ E) as [S C].
  split; [exact E|]. split; [exact S|]. apply C.
  cbn. unfold MIN_LIKELIHOOD. lra.
Defined.

(** ** Row-major positions *)
Lemma unravel_ravel_acc (s i : list nat) (a : nat) :
  valid_index s i ->
  fold_right (fun d qi => (fst qi / d, (fst qi mod d) :: snd qi)%nat)
    (fold_left (fun acc dk => (acc * fst dk + snd dk)%nat) (combine s i) a, []) s
  = (a, i).
Proof.
  unfold valid_index. intros V. revert a.
  induction V as [|k d i s L V IH]; intros a; [reflexivity|].
  cbn [combine fold_left fold_right fst snd]. rewrite IH. cbn [fst snd].
  f_equal.
  - rewrite Nat.div_add_l by lia. rewrite Nat.div_small by assumption. lia.
  - f_equal. rewrite Nat.add_comm, Nat.Div0.mod_add. apply Nat.mod_small, L.
Qed.

Lemma unravel_ravel (s i : list nat) : valid_index s i -> unravel s (ravel s i) = i.
Proof.
  intros V. unfold unravel, ravel. now rewrite unravel_ravel_acc.
Qed.

Lemma numel_of_nat (s : list nat) :
  fold_right Z.mul 1%Z (map Z.of_nat s) = Z.of_nat (numel s).
Proof.
  induction s as [|d s IH]; [reflexivity|].
  cbn [map fold_right numel]. unfold numel in IH. rewrite IH. lia.
Qed.

(** [t.reshape(s)] for a shape [s] of as many entries as [t]. *)
Lemma reshape_numel (t : tensor) (s : list nat) :
  numel (shape t) = numel s ->
  reshape t (map Z.of_nat s)
  = ok (Tensor s (fun i => item t (unravel (shape t) (ravel s i)))).
Proof.
  intros E. unfold reshape, infer_shape.
  rewrite filter_all.
  2:{ apply Forall_map, Forall_forall. intros d _.
      destruct (Z.eqb_spec (Z.of_nat d) (-1)); [lia|reflexivity]. }
  rewrite Nat.sub_diag, numel_of_nat, E, Z.eqb_refl, map_to_nat_of_nat.
  replace (existsb _ _) with false; [reflexivity|].
  symmetry. apply not_true_is_false. intros Q. apply existsb_exists in Q.
  destruct Q as (d & I & Q). apply in_map_iff in I. destruct I as (k & <- & _). apply Z.ltb_lt in Q. lia.
Qed.

(** [t.reshape(C, 1, -1)] of a tensor of shape [(C, N, H, W)]. *)
Lemma reshape_flatten (t : tensor) (C N H W : nat) :
  shape t = [C; N; H; W]%nat -> (0 < C)%nat ->
  reshape t [Z.of_nat C; 1%Z; (-1)%Z]
  = ok (Tensor [C; 1; N * H * W]%nat
          (fun i => item t (unravel (shape t) (ravel [C; 1; N * H * W]%nat i)))).
Proof.
  intros S P. unfold reshape, infer_shape. rewrite S.
  assert (K : filter (fun d => negb (d =? -1)%Z) [Z.of_nat C; 1%Z; (-1)%Z]
              = [Z.of_nat C; 1%Z]).
  { cbn [filter]. destruct (Z.eqb_spec (Z.of_nat C) (-1)) as [Q|_]; [lia|]. reflexivity. }
  rewrite K. cbn [length Nat.sub fold_right existsb].
  change (1 <? 0)%Z with false.
  destruct (Z.ltb_spec (Z.of_nat C) 0) as [Q|_]; [lia|]. cbn [orb].
  replace (Z.of_nat C * (1 * 1))%Z with (Z.of_nat C) by lia.
  destruct (Z.eqb_spec (Z.of_nat C) 0) as [Q|_]; [lia|].
  assert (E : Z.of_nat (numel [C; N; H; W]%nat) = (Z.of_nat (N * H * W) * Z.of_nat C)%Z)
    by (cbn [numel fold_right]; lia).
  rewrite E, Z.mod_mul, Z.eqb_refl, Z.div_mul by lia.
  cbn [map]. destruct (Z.eqb_spec (Z.of_nat C) (-1)) as [Q|_]; [lia|].
  change (1 =? -1)%Z with false. change (-1 =? -1)%Z with true. cbn iota.
  rewrite !Nat2Z.id. reflexivity.
Qed.

Lemma valid4 (N C H W n c h w : nat) :
  (n < N)%nat -> (c < C)%nat -> (h < H)%nat -> (w < W)%nat ->
  valid_index [N; C; H; W]%nat [n; c; h; w]%nat.
Proof. intros. repeat constructor; assumption. Qed.

Lemma flat_position (N H W n h w : nat) :
  (n < N)%nat -> (h < H)%nat -> (w < W)%nat -> ((n * H + h) * W + w < N * H * W)%nat.
Proof.
  intros Hn Hh Hw.
  assert (A : (n * H + h + 1 <= N * H)%nat) by nia.
  assert (B : ((n * H + h + 1) * W <= N * H * W)%nat) by (apply Nat.mul_le_mono_r, A).
  lia.
Qed.

Lemma permute_1023 (t : tensor) (A B H W : nat) :
  shape t = [A; B; H; W]%nat ->
  permute t [1; 0; 2; 3]%nat
  = ok (Tensor [B; A; H; W]%nat
          (fun i => item t [nth 1 i O; nth 0 i O; nth 2 i O; nth 3 i O])).
Proof. intros S. unfold permute. rewrite S. reflexivity. Qed.

(** X3.  For a density with a well-formed registry for [C > 0] channels,
    [likelihood] returns on every input of shape [(N, C, H, W)], with a
    result of that shape.  The entry at [(n, c, h, w)] is computed from the
    logits [u], [l] of the CDF at [x + 0.5] and [x - 0.5], read at the
    position [(c, 0, (n * H + h) * W + w)] of the flattened latents;
    [l <= u]; the entry is the stabilized difference of [u] and [l], floored
    at [min_likelihood]; and wherever [u + l <> 0] it is the difference
    [sigmoid(u) - sigmoid(l)] that the comment in the code calls naive,
    floored at [min_likelihood]. *)
Theorem likelihood_of_logits (self : HyperpriorDensity.t) (N C H W : nat) (x : tensor) :
  registered self C -> (0 < C)%nat -> shape x = [N; C; H; W]%nat ->
  exists L latents cdf_upper cdf_lower,
    HyperpriorDensity.likelihood self x = inr L
    /\ shape L = [N; C; H; W]%nat
    /\ shape latents = [C; 1; N * H * W]%nat
    /\ HyperpriorDensity.cdf_logits self (tadds latents 0.5) true = inr cdf_upper
    /\ HyperpriorDensity.cdf_logits self (tsubs latents 0.5) true = inr cdf_lower
    /\ forall n c h w, (n < N)%nat -> (c < C)%nat -> (h < H)%nat -> (w < W)%nat ->
         let j := [c; 0; (n * H + h) * W + w]%nat in
         item latents j = item x [n; c; h; w]%nat
         /\ item cdf_lower j <= item cdf_upper j
         /\ item L [n; c; h; w]%nat
            = Rmax (Spec.stabilized_difference (item cdf_upper j) (item cdf_lower j))
                   (HyperpriorDensity.min_likelihood self)
         /\ (item cdf_upper j + item cdf_lower j <> 0 ->
             item L [n; c; h; w]%nat
             = Rmax (Spec.naive_difference (item cdf_upper j) (item cdf_lower j))
                    (HyperpriorDensity.min_likelihood self)).
Proof.
  intros Hreg P S. unfold HyperpriorDensity.likelihood. rewrite S.
  rewrite (permute_1023 x N C H W S). cbn [rbind ok shape nth].
  erewrite reshape_flatten by (reflexivity || assumption).
  cbn [rbind ok shape].
  set (latents := Tensor [C; 1%nat; (N * H * W)%nat] _).
  destruct (cdf_logits_ordered self C (N * H * W) true
              (tsubs latents 0.5) (tadds latents 0.5) Hreg eq_refl eq_refl)
    as (cdf_lower & cdf_upper & El & Eu & Sl & Su & Hle).
  { intros c k _ _. cbn. lra. }
  rewrite Eu, El. cbn [rbind].
  destruct cdf_upper as [su fu], cdf_lower as [sl fl]. cbn [shape item] in Su, Sl, Hle.
  subst su sl.
  unfold tadd, tmul, tsub, detach, torch.sigmoid, torch.abs, torch.sign, tneg, tmap.
  rewrite map2_same_shape by reflexivity. cbn [rbind ok shape item].
  rewrite !map2_same_shape by reflexivity. cbn [rbind ok shape item].
  rewrite map2_same_shape by reflexivity. cbn [rbind ok shape item].
  rewrite reshape_numel by (cbn [shape numel fold_right]; ring).
  cbn [rbind ok].
  erewrite permute_1023 by reflexivity. cbn [rbind ok].
  eexists _, latents, (Tensor [C; 1%nat; (N * H * W)%nat] fu), (Tensor [C; 1%nat; (N * H * W)%nat] fl).
  split; [reflexivity|]. split; [reflexivity|]. split; [reflexivity|].
  split; [exact Eu|]. split; [exact El|].
  intros n c h w Hn Hc Hh Hw.
  set (j := [c; 0; (n * H + h) * W + w]%nat).
  pose proof (flat_position N H W n h w Hn Hh Hw) as Hj.
  assert (V : valid_index [C; 1; N * H * W]%nat j) by (apply valid3; lia).
  assert (R1 : ravel [C; N; H; W]%nat [c; n; h; w]%nat = ravel [C; 1; N * H * W]%nat j).
  { unfold ravel, j. cbn [combine fold_left fst snd]. ring. }
  assert (U1 : unravel [C; N; H; W]%nat (ravel [C; 1; N * H * W]%nat j) = [c; n; h; w]%nat)
    by (rewrite <- R1; apply unravel_ravel, valid4; assumption).
  assert (U2 : unravel [C; 1; N * H * W]%nat (ravel [C; N; H; W]%nat [c; n; h; w]%nat) = j)
    by (rewrite R1; apply unravel_ravel, V).
  match goal with |- _ /\ _ /\ item ?L _ = _ /\ _ =>
    assert (EL : item L [n; c; h; w]%nat
                 = Rmax (Spec.stabilized_difference (fu j) (fl j))
                        (HyperpriorDensity.min_likelihood self)) end.
  { cbn [lower_bound_toward maths.LowerBoundToward_apply tmap item shape nth].
    rewrite U2, !(expand_index_valid _ j V). reflexivity. }
  split; [|split; [|split]].
  - unfold latents. cbn [item shape]. rewrite U1. reflexivity.
  - cbn [item]. apply Hle; [assumption|exact Hj].
  - exact EL.
  - intros Ns. rewrite EL. cbn [item] in Ns |- *. f_equal.
    apply stabilized_is_naive; [apply Hle; assumption|exact Ns].
Qed.

(** X3 at the all-zero density, for four hyperlatents. *)
Lemma likelihood_of_logits_witness :
  exists L latents cdf_upper cdf_lower,
    HyperpriorDensity.likelihood Fixture.zero_density (torch.zeros [1; 1; 2; 2]%nat) = inr L
    /\ shape L = [1; 1; 2; 2]%nat
    /\ HyperpriorDensity.cdf_logits Fixture.zero_density (tadds latents 0.5) true
       = inr cdf_upper
    /\ HyperpriorDensity.cdf_logits Fixture.zero_density (tsubs latents 0.5) true
       = inr cdf_lower
    /\ item cdf_lower [0; 0; 3]%nat <= item cdf_upper [0; 0; 3]%nat
    /\ item L [0; 0; 1; 1]%nat
       = Rmax (Spec.stabilized_difference (item cdf_upper [0; 0; 3]%nat)
                                          (item cdf_lower [0; 0; 3]%nat))
              MIN_LIKELIHOOD.
Proof.
  destruct (likelihood_of_logits Fixture.zero_density 1 1 2 2 (torch.zeros [1; 1; 2; 2]%nat)
              zero_density_registered)
    as (L & la & cu & cl & E & SL & Sla & Eu & El & Hv); [lia|reflexivity|].
  exists L, la, cu, cl.
  destruct (Hv 0 0 1 1)%nat as (_ & Hle & EL & _); try lia.
  repeat split; assumption.
Defined.

(** ** The layout of the mixture parameters *)
Lemma get_num_mixtures_exact (C K : nat) :
  (0 < C)%nat ->
  get_num_mixtures (Z.of_nat (3 * C * K)) (Z.of_nat C) default_params = ok (Z.of_nat K).
Proof.
  intros P. unfold get_num_mixtures.
  change (Z.of_nat (length default_params)) with 3%Z.
  destruct (Z.eqb_spec (3 * Z.of_nat C) 0) as [Q|_]; [lia|].
  f_equal. replace (Z.of_nat (3 * C * K)) with (Z.of_nat K * (3 * Z.of_nat C))%Z by lia.
  apply Z.div_mul. lia.
Qed.

Lemma mixture_channel (C K j c k : nat) :
  (j < 3)%nat -> (c < C)%nat -> (k < K)%nat -> ((j * C + c) * K + k < 3 * C * K)%nat.
Proof.
  intros Hj Hc Hk.
  assert (A : (j * C + c + 1 <= 3 * C)%nat) by nia.
  assert (B : ((j * C + c + 1) * K <= 3 * C * K)%nat) by (apply Nat.mul_le_mono_r, A).
  lia.
Qed.

Lemma unpack_layout (x conv_out : tensor) (N C K H W : nat) :
  shape x = [N; C; H; W]%nat -> shape conv_out = [N; 3 * C * K; H; W]%nat ->
  (0 < C)%nat ->
  exists x' logit_pis means log_scales,
    unpack_likelihood_params x conv_out
      = inr (x', (logit_pis, means, log_scales), Z.of_nat K)
    /\ shape x' = [N; C; 1; H; W]%nat
    /\ shape logit_pis = [N; C; K; H; W]%nat
    /\ shape means = [N; C; K; H; W]%nat
    /\ shape log_scales = [N; C; K; H; W]%nat
    /\ forall n c h w, (n < N)%nat -> (c < C)%nat -> (h < H)%nat -> (w < W)%nat ->
         item x' [n; c; 0; h; w]%nat = item x [n; c; h; w]%nat
         /\ forall k, (k < K)%nat ->
              item logit_pis [n; c; k; h; w]%nat
              = item conv_out [n; c * K + k; h; w]%nat
              /\ item means [n; c; k; h; w]%nat
                 = item conv_out [n; (C + c) * K + k; h; w]%nat
              /\ item log_scales [n; c; k; h; w]%nat
                 = Rmax (item conv_out [n; (2 * C + c) * K + k; h; w]%nat) LOG_SCALES_MIN.
Proof.
  intros Sx Sc P. unfold unpack_likelihood_params. rewrite Sx, Sc.
  cbn [rbind ok]. rewrite get_num_mixtures_exact by assumption. cbn [rbind ok].
  change [Z.of_nat N; 3%Z; Z.of_nat C; Z.of_nat K; Z.of_nat H; Z.of_nat W]
    with (map Z.of_nat [N; 3; C; K; H; W]%nat).
  rewrite reshape_numel by (rewrite Sc; cbn [numel fold_right]; ring).
  cbn [rbind ok]. unfold select1. cbn [shape Nat.ltb Nat.leb rbind ok remove_at firstn skipn app].
  change [Z.of_nat N; Z.of_nat C; 1%Z; Z.of_nat H; Z.of_nat W]
    with (map Z.of_nat [N; C; 1; H; W]%nat).
  rewrite reshape_numel by (rewrite Sx; cbn [numel fold_right]; ring).
  cbn [rbind ok].
  do 4 eexists. split; [reflexivity|]. do 4 (split; [reflexivity|]).
  intros n c h w Hn Hc Hh Hw. split.
  - cbn [item]. rewrite Sx.
    replace (ravel [N; C; 1; H; W]%nat [n; c; 0; h; w]%nat)
      with (ravel [N; C; H; W]%nat [n; c; h; w]%nat)
      by (unfold ravel; cbn [combine fold_left fst snd]; ring).
    rewrite unravel_ravel by (apply valid4; assumption). reflexivity.
  - intros k Hk.
    assert (L : forall j, (j < 3)%nat ->
              unravel [N; 3 * C * K; H; W]%nat
                (ravel [N; 3; C; K; H; W]%nat [n; j; c; k; h; w]%nat)
              = [n; (j * C + c) * K + k; h; w]%nat).
    { intros j Hj.
      replace (ravel [N; 3; C; K; H; W]%nat [n; j; c; k; h; w]%nat)
        with (ravel [N; 3 * C * K; H; W]%nat [n; (j * C + c) * K + k; h; w]%nat)
        by (unfold ravel; cbn [combine fold_left fst snd]; ring).
      apply unravel_ravel, valid4; try assumption. apply mixture_channel; assumption. }
    cbn [item lower_bound_toward maths.LowerBoundToward_apply tmap insert_at firstn skipn app].
    rewrite Sc, !L by lia.
    repeat split; repeat f_equal; lia.
Qed.

(** X10.  For latents of shape [(N, C, H, W)], [C > 0], and a tensor
    [conv_out] of shape [(N, 3 * C * K, H, W)], [unpack_likelihood_params]
    returns [K] and tensors of the shapes [(N, C, 1, H, W)] (the latents)
    and [(N, C, K, H, W)] (logits, means, log-scales).  Component [k] of
    channel [c] reads channel [c * K + k] of [conv_out] for the logit,
    channel [(C + c) * K + k] for the mean and channel
    [(2 * C + c) * K + k] for the log-scale, which is floored at
    [LOG_SCALES_MIN]: the channels are grouped by kind of parameter first,
    then by latent channel. *)
Theorem unpack_likelihood_params_layout (x conv_out : tensor) (N C K H W : nat) :
  shape x = [N; C; H; W]%nat -> shape conv_out = [N; 3 * C * K; H; W]%nat ->
  (0 < C)%nat ->
  exists x' logit_pis means log_scales,
    unpack_likelihood_params x conv_out
      = inr (x', (logit_pis, means, log_scales), Z.of_nat K)
    /\ shape x' = [N; C; 1; H; W]%nat
    /\ shape logit_pis = [N; C; K; H; W]%nat
    /\ shape means = [N; C; K; H; W]%nat
    /\ shape log_scales = [N; C; K; H; W]%nat
    /\ forall n c h w, (n < N)%nat -> (c < C)%nat -> (h < H)%nat -> (w < W)%nat ->
         item x' [n; c; 0; h; w]%nat = item x [n; c; h; w]%nat
         /\ forall k, (k < K)%nat ->
              item logit_pis [n; c; k; h; w]%nat
              = item conv_out [n; c * K + k; h; w]%nat
              /\ item means [n; c; k; h; w]%nat
                 = item conv_out [n; (C + c) * K + k; h; w]%nat
              /\ item log_scales [n; c; k; h; w]%nat
                 = Rmax (item conv_out [n; (2 * C + c) * K + k; h; w]%nat) LOG_SCALES_MIN.
Proof. apply unpack_layout. Qed.

(** X10 for one latent channel and four components. *)
Lemma unpack_likelihood_params_layout_witness :
  exists x' logit_pis means log_scales,
    unpack_likelihood_params (torch.zeros [1; 1; 8; 8]%nat) (torch.ones [1; 12; 8; 8]%nat)
      = inr (x', (logit_pis, means, log_scales), 4%Z)
    /\ shape logit_pis = [1; 1; 4; 8; 8]%nat
    /\ item means [0; 0; 2; 0; 0]%nat = item (torch.ones [1; 12; 8; 8]%nat) [0; 6; 0; 0]%nat.
Proof.
  destruct (unpack_likelihood_params_layout (torch.zeros [1; 1; 8; 8]%nat)
              (torch.ones [1; 12; 8; 8]%nat) 1 1 4 8 8 eq_refl eq_refl)
    as (x' & lp & mu & ls & E & _ & Sl & _ & _ & Hv); [lia|].
  exists x', lp, mu, ls. split; [exact E|]. split; [exact Sl|].
  destruct (Hv 0 0 0 0)%nat as [_ Hk]; try lia.
  destruct (Hk 2%nat) as (_ & Em & _); [lia|]. exact Em.
Defined.

(** ** The discretized logistic mixture *)

(** A mixture with softmax weights of masses in [(0, 1]] is at most 1. *)
Lemma mixture_ceiling (K : nat) (logit p : nat -> R) :
  (0 < K)%nat -> (forall k, (k < K)%nat -> 0 < p k <= 1) ->
  ln (Rsum (fun k =>
        exp (logit k - ln (Rsum (fun k' => exp (logit k')) K) + ln (p k))) K) <= 0.
Proof.
  intros HK Hp.
  set (S := Rsum (fun k' => exp (logit k')) K).
  assert (HS : 0 < S) by (apply Rsum_pos; [assumption|intros k; apply exp_pos]).
  assert (term : forall k, (k < K)%nat ->
            exp (logit k - ln S + ln (p k)) = / S * (exp (logit k) * p k)).
  { intros k Hk. pose proof (Hp k Hk).
    rewrite exp_plus, exp_ln by lra.
    unfold Rminus. rewrite exp_plus, exp_Ropp, exp_ln by assumption. ring. }
  rewrite (Rsum_ext_in _ _ _ term), Rsum_scal.
  assert (0 < / S) by now apply Rinv_0_lt_compat.
  assert (up : Rsum (fun k => exp (logit k) * p k) K <= S).
  { unfold S. apply Rsum_le_in. intros k Hk.
    pose proof (exp_pos (logit k)). pose proof (Hp k Hk). nra. }
  assert (low : 0 < Rsum (fun k => exp (logit k) * p k) K).
  { destruct K as [|K]; [lia|]. rewrite Rsum_S.
    assert (0 <= Rsum (fun k => exp (logit k) * p k) K).
    { replace 0 with (Rsum (fun _ => 0) K) by (rewrite Rsum_const; ring).
      apply Rsum_le_in. intros k Hk.
      pose proof (exp_pos (logit k)). pose proof (Hp k (Nat.lt_lt_succ_r _ _ Hk)). nra. }
    pose proof (exp_pos (logit K)). pose proof (Hp K (Nat.lt_succ_diag_r K)). nra. }
  apply ln_nonpos.
  - apply Rmult_lt_0_compat; assumption.
  - replace 1 with (/ S * S) by (field; lra). apply Rmult_le_compat_l; lra.
Qed.

Lemma valid5 (N C K H W n c k h w : nat) :
  (n < N)%nat -> (c < C)%nat -> (k < K)%nat -> (h < H)%nat -> (w < W)%nat ->
  valid_index [N; C; K; H; W]%nat [n; c; k; h; w]%nat.
Proof. intros. repeat constructor; assumption. Qed.

Lemma expand_singleton (N C H W n c k h w : nat) :
  (n < N)%nat -> (c < C)%nat -> (h < H)%nat -> (w < W)%nat ->
  expand_index [N; C; 1; H; W]%nat [n; c; k; h; w]%nat = [n; c; 0; h; w]%nat.
Proof.
  intros Hn Hc Hh Hw. unfold expand_index. cbn.
  destruct (Nat.eqb_spec N 1), (Nat.eqb_spec C 1), (Nat.eqb_spec H 1), (Nat.eqb_spec W 1);
    repeat f_equal; lia.
Qed.

Lemma log_DLMM_entries (self : HyperpriorDLMM.t) (f : R -> R)
  (x DLMM_params : tensor) (N C K H W : nat) :
  CodingModel.standardized_CDF (HyperpriorDLMM.base self) = Some f ->
  shape x = [N; C; H; W]%nat -> shape DLMM_params = [N; 3 * C * K; H; W]%nat ->
  (0 < C)%nat ->
  exists log_DLMM,
    HyperpriorDLMM.latent_log_likelihood_DLMM self x DLMM_params = inr log_DLMM
    /\ shape log_DLMM = [N; C; H; W]%nat
    /\ forall n c h w, (n < N)%nat -> (c < C)%nat -> (h < H)%nat -> (w < W)%nat ->
         let logit k := item DLMM_params [n; c * K + k; h; w]%nat in
         let mean k := item DLMM_params [n; (C + c) * K + k; h; w]%nat in
         let log_scale k :=
           Rmax (item DLMM_params [n; (2 * C + c) * K + k; h; w]%nat) LOG_SCALES_MIN in
         let x_centered k := Rabs (item x [n; c; h; w]%nat - mean k) in
         let pmf k :=
           Rmax (f (exp (- log_scale k) * (0.5 - x_centered k))
                 - f (exp (- log_scale k) * (-0.5 - x_centered k))) MIN_LIKELIHOOD in
         item log_DLMM [n; c; h; w]%nat
         = ln (Rsum (fun k => exp (logit k - ln (Rsum (fun k' => exp (logit k')) K)
                                   + ln (pmf k))) K)
         /\ ((0 < K)%nat -> (forall v, 0 <= f v <= 1) ->
             item log_DLMM [n; c; h; w]%nat <= 0).
Proof.
  intros Ef Sx Sp P.
  destruct (unpack_layout x DLMM_params N C K H W Sx Sp P)
    as (x' & lp & mu & ls & EU & Sx' & Slp & Smu & Sls & Hv).
  unfold HyperpriorDLMM.latent_log_likelihood_DLMM, HyperpriorDLMM.pmf_mixture_component.
  rewrite EU, Ef. cbn [rbind ok].
  destruct x' as [sx' fx'], lp as [slp flp], mu as [smu fmu], ls as [sls fls].
  cbn [shape item] in Sx', Slp, Smu, Sls, Hv. subst sx' slp smu sls.
  unfold tsub, tmul, tadd, torch.abs, torch.exp, torch.log, tneg, rsubs,
    lower_bound_toward, maths.LowerBoundToward_apply, tmap.
  erewrite map2_shape by (cbn [shape]; apply broadcast_one).
  cbn [rbind ok shape item].
  rewrite !map2_same_shape by reflexivity. cbn [rbind ok shape item].
  rewrite map2_same_shape by reflexivity. cbn [rbind ok shape item].
  unfold F.log_softmax. cbn [shape length Nat.ltb Nat.leb rbind ok].
  rewrite map2_same_shape by reflexivity. cbn [rbind ok shape item].
  unfold torch.logsumexp. cbn [shape length Nat.ltb Nat.leb rbind ok remove_at firstn skipn app].
  eexists. split; [reflexivity|]. split; [reflexivity|].
  intros n c h w Hn Hc Hh Hw. cbv zeta.
  destruct (Hv n c h w Hn Hc Hh Hw) as [Ex Hk0].
  cbn [item nth insert_at firstn skipn app].
  match goal with |- ?lhs = ?rhs /\ _ => assert (EQ : lhs = rhs) end.
  { f_equal. apply Rsum_ext_in. intros k Hk.
    pose proof (valid5 N C K H W n c k h w Hn Hc Hk Hh Hw) as V.
    rewrite !(expand_index_valid _ _ V), expand_singleton by assumption.
    cbn [replace_at firstn skipn app].
    destruct (Hk0 k Hk) as (-> & -> & ->). rewrite Ex.
    do 3 f_equal. f_equal. apply Rsum_ext_in. intros k' Hk'.
    destruct (Hk0 k' Hk') as (-> & _). reflexivity. }
  split; [exact EQ|].
  intros HK Hf. rewrite EQ. apply mixture_ceiling; [assumption|].
  intros k Hk.
  match goal with |- 0 < Rmax (f ?a - f ?b) _ <= 1 =>
    pose proof (Hf a); pose proof (Hf b) end.
  unfold MIN_LIKELIHOOD. split.
  - eapply Rlt_le_trans; [|apply Rmax_r]. lra.
  - apply Rmax_lub; lra.
Qed.

(** X12.  For latents of shape [(N, C, H, W)], [C > 0], and mixture
    parameters of shape [(N, 3 * C * K, H, W)], [latent_log_likelihood_DLMM]
    returns a tensor of shape [(N, C, H, W)] whose entry at [(n, c, h, w)]
    is the logarithm of the mixture
    [sum_k softmax(logit)_k * pmf_k], where [pmf_k] is
    [CDF(exp(-log_scale_k) * (0.5 - |x - mean_k|))
     - CDF(exp(-log_scale_k) * (-0.5 - |x - mean_k|))] floored at
    [MIN_LIKELIHOOD]; with at least one component and a CDF with values in
    [[0, 1]], the entry is at most 0. *)
Theorem latent_log_likelihood_DLMM_value (self : HyperpriorDLMM.t) (f : R -> R)
  (x DLMM_params : tensor) (N C K H W : nat) :
  CodingModel.standardized_CDF (HyperpriorDLMM.base self) = Some f ->
  shape x = [N; C; H; W]%nat -> shape DLMM_params = [N; 3 * C * K; H; W]%nat ->
  (0 < C)%nat ->
  exists log_DLMM,
    HyperpriorDLMM.latent_log_likelihood_DLMM self x DLMM_params = inr log_DLMM
    /\ shape log_DLMM = [N; C; H; W]%nat
    /\ forall n c h w, (n < N)%nat -> (c < C)%nat -> (h < H)%nat -> (w < W)%nat ->
         let logit k := item DLMM_params [n; c * K + k; h; w]%nat in
         let mean k := item DLMM_params [n; (C + c) * K + k; h; w]%nat in
         let log_scale k :=
           Rmax (item DLMM_params [n; (2 * C + c) * K + k; h; w]%nat) LOG_SCALES_MIN in
         let x_centered k := Rabs (item x [n; c; h; w]%nat - mean k) in
         let pmf k :=
           Rmax (f (exp (- log_scale k) * (0.5 - x_centered k))
                 - f (exp (- log_scale k) * (-0.5 - x_centered k))) MIN_LIKELIHOOD in
         item log_DLMM [n; c; h; w]%nat
         = ln (Rsum (fun k => exp (logit k - ln (Rsum (fun k' => exp (logit k')) K)
                                   + ln (pmf k))) K)
         /\ ((0 < K)%nat -> (forall v, 0 <= f v <= 1) ->
             item log_DLMM [n; c; h; w]%nat <= 0).
Proof. apply log_DLMM_entries. Qed.

(** X12 at the fixture, for an [8 x 8] latent and four components. *)
Lemma latent_log_likelihood_DLMM_value_witness :
  exists log_DLMM,
    HyperpriorDLMM.latent_log_likelihood_DLMM (Fixture.hyperprior_DLMM true)
      (torch.zeros [1; 1; 8; 8]%nat) (torch.zeros [1; 12; 8; 8]%nat) = inr log_DLMM
    /\ shape log_DLMM = [1; 1; 8; 8]%nat
    /\ item log_DLMM [0; 0; 0; 0]%nat <= 0.
Proof.
  destruct (latent_log_likelihood_DLMM_value (Fixture.hyperprior_DLMM true) torch.sigmoid_
              (torch.zeros [1; 1; 8; 8]%nat) (torch.zeros [1; 12; 8; 8]%nat) 1 1 4 8 8
              eq_refl eq_refl eq_refl)
    as (L & E & S & Hv); [lia|].
  exists L. split; [exact E|]. split; [exact S|].
  destruct (Hv 0 0 0 0)%nat as [_ Hle]; try lia.
  apply Hle; [lia|]. intros v.
  pose proof (sigmoid_pos v). pose proof (sigmoid_lt_1 v). lra.
Defined.

(** ** The estimator on log-likelihoods *)
Lemma indices_valid (s i : list nat) : In i (indices s) -> valid_index s i.
Proof.
  revert i. induction s as [|d s IH]; intros i; cbn [indices].
  - intros [<-|[]]. constructor.
  - intros I. apply in_flat_map in I. destruct I as (k & Hk & I).
    apply in_map_iff in I. destruct I as (i' & <- & I).
    apply in_seq in Hk. constructor; [lia|]. apply IH, I.
Qed.

Lemma estimate_entropy_log_bounds (log_likelihood : tensor) (batch_size : nat)
  (rest : list nat) (height width : Z) :
  shape log_likelihood = batch_size :: rest ->
  (0 < batch_size)%nat ->
  (0 < height)%Z -> (0 < width)%Z -> (height * width < 2 ^ 63)%Z ->
  (forall i, valid_index (shape log_likelihood) i -> item log_likelihood i <= 0) ->
  exists n_bits bpp : R,
    CodingModel._estimate_entropy_log log_likelihood [height; width]
      = inr (Finite n_bits, Finite bpp)
    /\ 0 <= n_bits /\ 0 <= bpp.
Proof.
  intros Sh Hb Hh Hw Hp He.
  pose proof ln_2_pos as L2.
  assert (Bpos : 0 < INR batch_size) by (apply lt_0_INR; assumption).
  assert (Ppos : 0 < IZR (np.prod [height; width])).
  { rewrite np_prod_small by assumption. apply IZR_lt. nia. }
  assert (Ssum : torch.sum log_likelihood <= 0).
  { unfold torch.sum, entries. apply sum_nonpos, Forall_map, Forall_forall.
    intros i I. apply He, indices_valid, I. }
  unfold CodingModel._estimate_entropy_log, CodingModel.size0. rewrite Sh.
  cbn [rbind ok length Nat.eqb negb]. unfold np.log.
  set (S := torch.sum log_likelihood) in *.
  assert (Q : INR batch_size * - ln 2 < 0) by nra.
  rewrite !fdiv_finite by lra.
  do 2 eexists. split; [reflexivity|].
  assert (N : 0 <= S / (INR batch_size * - ln 2)).
  { replace (S / (INR batch_size * - ln 2)) with ((- S) / (INR batch_size * ln 2))
      by (field; lra).
    apply Rle_mult_inv_pos; [lra|nra]. }
  split; [exact N|]. apply Rle_mult_inv_pos; assumption.
Qed.

(** X8.  For log-likelihoods that are all at most 0, a non-empty batch and
    a [spatial_shape] of two positive integers whose product is below
    [2^63] (so that it does not wrap around), [_estimate_entropy_log]
    returns finite [n_bits >= 0] and [bpp >= 0]. *)
Theorem estimate_entropy_log_nonneg (log_likelihood : tensor) (batch_size : nat)
  (rest : list nat) (height width : Z) :
  shape log_likelihood = batch_size :: rest ->
  (0 < batch_size)%nat ->
  (0 < height)%Z -> (0 < width)%Z -> (height * width < 2 ^ 63)%Z ->
  (forall i, valid_index (shape log_likelihood) i -> item log_likelihood i <= 0) ->
  exists n_bits bpp : R,
    CodingModel._estimate_entropy_log log_likelihood [height; width]
      = inr (Finite n_bits, Finite bpp)
    /\ 0 <= n_bits /\ 0 <= bpp.
Proof. apply estimate_entropy_log_bounds. Qed.

Lemma valid4_inv (N C H W : nat) (i : list nat) :
  valid_index [N; C; H; W]%nat i ->
  exists n c h w, i = [n; c; h; w]%nat /\ (n < N /\ c < C /\ h < H /\ w < W)%nat.
Proof.
  unfold valid_index. intros V.
  inversion V as [|n ? ? ? Hn V1]; subst.
  inversion V1 as [|c ? ? ? Hc V2]; subst.
  inversion V2 as [|h ? ? ? Hh V3]; subst.
  inversion V3 as [|w ? ? ? Hw V4]; subst.
  inversion V4; subst. exists n, c, h, w. auto.
Qed.

(** X13.  The rate of the latents under the mixture model is non-negative:
    for a CDF with values in [[0, 1]], a non-empty batch, at least one
    channel and one component and a [spatial_shape] of two positive
    integers whose product is below [2^63], [_estimate_entropy_log]
    applied to the result of [latent_log_likelihood_DLMM] returns finite
    [n_bits >= 0] and [bpp >= 0]. *)
Theorem DLMM_latent_rate_nonneg (self : HyperpriorDLMM.t) (f : R -> R)
  (x DLMM_params : tensor) (N C K H W : nat) (height width : Z) :
  CodingModel.standardized_CDF (HyperpriorDLMM.base self) = Some f ->
  (forall v, 0 <= f v <= 1) ->
  shape x = [N; C; H; W]%nat -> shape DLMM_params = [N; 3 * C * K; H; W]%nat ->
  (0 < N)%nat -> (0 < C)%nat -> (0 < K)%nat ->
  (0 < height)%Z -> (0 < width)%Z -> (height * width < 2 ^ 63)%Z ->
  exists log_DLMM (n_bits bpp : R),
    HyperpriorDLMM.latent_log_likelihood_DLMM self x DLMM_params = inr log_DLMM
    /\ CodingModel._estimate_entropy_log log_DLMM [height; width]
       = inr (Finite n_bits, Finite bpp)
    /\ 0 <= n_bits /\ 0 <= bpp.
Proof.
  intros Ef Hf Sx Sp HN HC HK Hh Hw Hp.
  destruct (log_DLMM_entries self f x DLMM_params N C K H W Ef Sx Sp HC)
    as (L & E & SL & Hv).
  destruct (estimate_entropy_log_bounds L N [C; H; W]%nat height width SL HN Hh Hw Hp)
    as (n_bits & bpp & EE & B1 & B2).
  - intros i V. rewrite SL in V. apply valid4_inv in V.
    destruct V as (n & c & h & w & -> & Hn & Hc & Hh' & Hw').
    destruct (Hv n c h w Hn Hc Hh' Hw') as [_ Hle]. apply Hle; assumption.
  - exists L, n_bits, bpp. auto.
Qed.

(** X8 at the log-likelihood [[-1]]. *)
Lemma estimate_entropy_log_nonneg_witness :
  exists n_bits bpp : R,
    CodingModel._estimate_entropy_log (torch.full [1; 1; 1; 1]%nat (-1)) [1%Z; 1%Z]
      = inr (Finite n_bits, Finite bpp)
    /\ 0 <= n_bits /\ 0 <= bpp.
Proof.
  apply (estimate_entropy_log_nonneg (torch.full [1; 1; 1; 1]%nat (-1)) 1 [1; 1; 1]%nat 1 1).
  - reflexivity.
  - lia.
  - lia.
  - lia.
  - lia.
  - intros i _. cbn. lra.
Defined.

(** X13 at the fixture. *)
Lemma DLMM_latent_rate_nonneg_witness :
  exists log_DLMM (n_bits bpp : R),
    HyperpriorDLMM.latent_log_likelihood_DLMM (Fixture.hyperprior_DLMM false)
      (torch.zeros [1; 1; 8; 8]%nat) (torch.zeros [1; 12; 8; 8]%nat) = inr log_DLMM
    /\ CodingModel._estimate_entropy_log log_DLMM [8%Z; 8%Z]
       = inr (Finite n_bits, Finite bpp)
    /\ 0 <= n_bits /\ 0 <= bpp.
Proof.
  apply (DLMM_latent_rate_nonneg (Fixture.hyperprior_DLMM false) torch.sigmoid_
           (torch.zeros [1; 1; 8; 8]%nat) (torch.zeros [1; 12; 8; 8]%nat) 1 1 4 8 8 8 8);
    try reflexivity; try lia.
  intros v. pose proof (sigmoid_pos v). pose proof (sigmoid_lt_1 v). lra.
Defined.

(** ** The forward passes *)
Lemma estimate_entropy_spatial_shape (likelihood : tensor) (spatial_shape : list Z)
  (r : fscalar * fscalar) :
  CodingModel._estimate_entropy likelihood spatial_shape = inr r ->
  length spatial_shape = 2%nat.
Proof.
  unfold CodingModel._estimate_entropy. intros E. rinv E.
  match goal with Q : negb _ = false |- _ =>
    apply negb_false_iff, Nat.eqb_eq in Q; exact Q end.
Qed.

Section ForwardMore.
Context `{Backend}.

(** X14.  Neither forward pass returns for a [spatial_shape] that has not
    exactly two elements. *)
Theorem forward_spatial_shape :
  (forall (self : Hyperprior.t) (latents : tensor) (spatial_shape : list Z)
          (g g' : rng) (info : HyperInfo),
      Hyperprior.forward self latents spatial_shape g = (inr info, g') ->
      length spatial_shape = 2%nat)
  /\ (forall (self : HyperpriorDLMM.t) (latents : tensor) (spatial_shape : list Z)
             (g g' : rng) (info : HyperInfo),
      HyperpriorDLMM.forward self latents spatial_shape g = (inr info, g') ->
      length spatial_shape = 2%nat).
Proof.
  split; intros self latents ss g g' info E;
    [unfold Hyperprior.forward in E|unfold HyperpriorDLMM.forward in E];
    minv E;
    match goal with Q : CodingModel._estimate_entropy _ ss = inr _ |- _ =>
      exact (estimate_entropy_spatial_shape _ _ _ Q) end.
Qed.

Lemma quantize_hard_generator (x : tensor) (means : option tensor)
  (q1 q2 : tensor) (g1 g1' g2 g2' : rng) :
  CodingModel._quantize x "quantize" means g1 = (inr q1, g1') ->
  CodingModel._quantize x "quantize" means g2 = (inr q2, g2') ->
  q1 = q2 /\ g1' = g1 /\ g2' = g2.
Proof.
  unfold CodingModel._quantize, lift. cbn [String.eqb Ascii.eqb Bool.eqb].
  intros Q1 Q2. injection Q1 as Q1 <-. injection Q2 as Q2 <-.
  rewrite Q1 in Q2. injection Q2 as <-. auto.
Qed.

(** Two runs that took the same step on the same arguments got the same
    result. *)
Ltac same_run :=
  repeat match goal with
  | A : ?m = inr _, B : ?m = inr _ |- _ =>
      rewrite A in B; injection B as B; intros; subst
  | A : CodingModel._quantize ?x "quantize" ?mn _ = (inr _, _),
    B : CodingModel._quantize ?x "quantize" ?mn _ = (inr _, _) |- _ =>
      destruct (quantize_hard_generator _ _ _ _ _ _ _ _ A B) as (? & ? & ?);
      clear B; subst
  end.

(** X15.  What two returning runs of a forward pass on the same latents
    agree on, whatever the states of the generator.  [Hyperprior]: the
    quantized hyperlatent rate always; in inference mode also [decoded], the
    quantized latent rate and [total_qbpp] (in training mode these depend on
    the noise through the decoded hyperlatents).  [HyperpriorDLMM]:
    [decoded] and the quantized hyperlatent rate always; in inference mode
    also the quantized latent rate and [total_qbpp]. *)
Theorem forward_quantized_deterministic :
  (forall (self : Hyperprior.t) (latents : tensor) (spatial_shape : list Z)
          (g1 g1' g2 g2' : rng) (info1 info2 : HyperInfo),
      Hyperprior.forward self latents spatial_shape g1 = (inr info1, g1') ->
      Hyperprior.forward self latents spatial_shape g2 = (inr info2, g2') ->
      hyperlatent_qbpp info1 = hyperlatent_qbpp info2
      /\ (Hyperprior.training self = false ->
          decoded info1 = decoded info2
          /\ latent_qbpp info1 = latent_qbpp info2
          /\ total_qbpp info1 = total_qbpp info2))
  /\ (forall (self : HyperpriorDLMM.t) (latents : tensor) (spatial_shape : list Z)
             (g1 g1' g2 g2' : rng) (info1 info2 : HyperInfo),
      HyperpriorDLMM.forward self latents spatial_shape g1 = (inr info1, g1') ->
      HyperpriorDLMM.forward self latents spatial_shape g2 = (inr info2, g2') ->
      hyperlatent_qbpp info1 = hyperlatent_qbpp info2
      /\ decoded info1 = decoded info2
      /\ (HyperpriorDLMM.training self = false ->
          latent_qbpp info1 = latent_qbpp info2
          /\ total_qbpp info1 = total_qbpp info2)).
Proof.
  split.
  - intros self latents ss g1 g1' g2 g2' info1 info2 E1 E2.
    unfold Hyperprior.forward in E1, E2. minv E1. minv E2.
    injection E1 as <- _. injection E2 as <- _. cbn [hyperlatent_qbpp decoded latent_qbpp total_qbpp].
    same_run. split; [reflexivity|]. intros T.
    destruct (Hyperprior.training self); [discriminate T|].
    same_run. repeat split; reflexivity.
  - intros self latents ss g1 g1' g2 g2' info1 info2 E1 E2.
    unfold HyperpriorDLMM.forward in E1, E2. minv E1. minv E2.
    injection E1 as <- _. injection E2 as <- _.
    cbn [hyperlatent_qbpp decoded latent_qbpp total_qbpp].
    same_run. split; [reflexivity|]. split.
    + repeat match goal with
      | Q : (if HyperpriorDLMM.training self then _ else _) _ = _ |- _ => revert Q
      end.
      destruct (HyperpriorDLMM.training self); unfold lift, ret; congruence.
    + intros T. destruct (HyperpriorDLMM.training self); [discriminate T|].
      same_run. split; reflexivity.
Qed.

End ForwardMore.

(** The forward passes of the fixture return from every state of the
    generator. *)
Lemma hyperprior_forward_runs_at (training : bool) (g : nat) :
  exists info g',
    @Hyperprior.forward Fixture.backend (Fixture.hyperprior training)
      (torch.zeros [1; 1; 8; 8]%nat) [8%Z; 8%Z] g = (inr info, g').
Proof.
  unfold Hyperprior.forward, HyperpriorDensity.forward.
  cbn [Fixture.hyperprior Hyperprior.analysis_net Hyperprior.base Hyperprior.hyperlatent_likelihood
       Hyperprior.synthesis_mu Hyperprior.synthesis_std Hyperprior.training
       Hyperprior.scale_lower_bound].
  destruct training.
  - runM. do 2 eexists; reflexivity.
  - runM. do 2 eexists; reflexivity.
Qed.

Lemma hyperprior_DLMM_forward_runs_at (training : bool) (g : nat) :
  exists info g',
    @HyperpriorDLMM.forward Fixture.backend (Fixture.hyperprior_DLMM training)
      (torch.zeros [1; 1; 8; 8]%nat) [8%Z; 8%Z] g = (inr info, g').
Proof.
  unfold HyperpriorDLMM.forward, HyperpriorDensity.forward.
  cbn [HyperpriorDLMM.analysis_net HyperpriorDLMM.hyperlatent_likelihood
       HyperpriorDLMM.synthesis_DLMM_params HyperpriorDLMM.training].
  destruct training.
  - cbn [Fixture.hyperprior_DLMM HyperpriorDLMM.analysis_net HyperpriorDLMM.hyperlatent_likelihood
       HyperpriorDLMM.synthesis_DLMM_params HyperpriorDLMM.training].
    runM_DLMM. do 2 eexists; reflexivity.
  - cbn [Fixture.hyperprior_DLMM HyperpriorDLMM.analysis_net HyperpriorDLMM.hyperlatent_likelihood
       HyperpriorDLMM.synthesis_DLMM_params HyperpriorDLMM.training].
    runM_DLMM. do 2 eexists; reflexivity.
Qed.

(** X14 at the fixture, in training mode. *)
Lemma forward_spatial_shape_witness :
  (exists info g',
      @Hyperprior.forward Fixture.backend (Fixture.hyperprior true)
        (torch.zeros [1; 1; 8; 8]%nat) [8%Z; 8%Z] 0%nat = (inr info, g')
      /\ length [8%Z; 8%Z] = 2%nat)
  /\ (exists info g',
      @HyperpriorDLMM.forward Fixture.backend (Fixture.hyperprior_DLMM true)
        (torch.zeros [1; 1; 8; 8]%nat) [8%Z; 8%Z] 0%nat = (inr info, g')
      /\ length [8%Z; 8%Z] = 2%nat).
Proof.
  split.
  - destruct (hyperprior_forward_runs_at true 0) as (info & g' & E).
    exists info, g'. split; [exact E|].
    exact (proj1 (@forward_spatial_shape Fixture.backend) _ _ _ _ _ _ E).
  - destruct (hyperprior_DLMM_forward_runs_at true 0) as (info & g' & E).
    exists info, g'. split; [exact E|].
    exact (proj2 (@forward_spatial_shape Fixture.backend) _ _ _ _ _ _ E).
Defined.

(** X15 at the fixture, in inference mode, from two states of the
    generator. *)
Lemma forward_quantized_deterministic_witness :
  (exists info1 info2 g1' g2',
      @Hyperprior.forward Fixture.backend (Fixture.hyperprior false)
        (torch.zeros [1; 1; 8; 8]%nat) [8%Z; 8%Z] 0%nat = (inr info1, g1')
      /\ @Hyperprior.forward Fixture.backend (Fixture.hyperprior false)
           (torch.zeros [1; 1; 8; 8]%nat) [8%Z; 8%Z] 5%nat = (inr info2, g2')
      /\ decoded info1 = decoded info2
      /\ total_qbpp info1 = total_qbpp info2)
  /\ (exists info1 info2 g1' g2',
      @HyperpriorDLMM.forward Fixture.backend (Fixture.hyperprior_DLMM false)
        (torch.zeros [1; 1; 8; 8]%nat) [8%Z; 8%Z] 0%nat = (inr info1, g1')
      /\ @HyperpriorDLMM.forward Fixture.backend (Fixture.hyperprior_DLMM false)
           (torch.zeros [1; 1; 8; 8]%nat) [8%Z; 8%Z] 5%nat = (inr info2, g2')
      /\ decoded info1 = decoded info2
      /\ total_qbpp info1 = total_qbpp info2).
Proof.
  split.
  - destruct (hyperprior_forward_runs_at false 0) as (info1 & g1' & E1).
    destruct (hyperprior_forward_runs_at false 5) as (info2 & g2' & E2).
    exists info1, info2, g1', g2'. split; [exact E1|]. split; [exact E2|].
    destruct (proj1 (@forward_quantized_deterministic Fixture.backend)
                _ _ _ _ _ _ _ _ _ E1 E2) as [_ D].
    destruct (D eq_refl) as (D1 & _ & D3). split; assumption.
  - destruct (hyperprior_DLMM_forward_runs_at false 0) as (info1 & g1' & E1).
    destruct (hyperprior_DLMM_forward_runs_at false 5) as (info2 & g2' & E2).
    exists info1, info2, g1', g2'. split; [exact E1|]. split; [exact E2|].
    destruct (proj2 (@forward_quantized_deterministic Fixture.backend)
                _ _ _ _ _ _ _ _ _ E1 E2) as (_ & D1 & D).
    destruct (D eq_refl) as (_ & D3). split; assumption.
Defined.

(** ** The quantizer *)
Lemma Zfloor_integer_half (z : Z) : Zfloor (IZR z + 0.5) = z.
Proof.
  apply Zfloor_eq. lra.
Qed.

Section Quantizer.
Context `{Backend}.

(** X6.  For tensors of a binary floating-point type with a significand of
    [prec] bits (24 for [float32], 53 for [float64]), hard quantization
    without means is idempotent below [2^(prec-1)]: quantizing the result
    of [_quantize(x, mode='quantize')] again returns a tensor of the same
    shape, with the same entry wherever the magnitude of the quantized
    entry is below [2^(prec-1)]; the generator is left alone both times. *)
Theorem quantize_idempotent (prec emin : Z) (x : tensor) (g : rng) :
  (emin <= -1)%Z ->
  exists q q' : tensor,
    CodingModel._quantize_rounded (dtype.round prec emin) x "quantize" None g
    = (inr q, g)
    /\ CodingModel._quantize_rounded (dtype.round prec emin) q "quantize" None g
       = (inr q', g)
    /\ shape q' = shape q
    /\ forall i, Rabs (item q i) < IZR (2 ^ (prec - 1)) -> item q' i = item q i.
Proof.
  intros He. do 2 eexists. split; [reflexivity|]. split; [reflexivity|].
  split; [reflexivity|]. intros i. cbn [torch.floor tadds tmap item].
  intros Hq. rewrite <- abs_IZR in Hq. apply lt_IZR in Hq.
  rewrite round_integer_half by assumption.
  rewrite Zfloor_integer_half. reflexivity.
Qed.

(** X7.  In mode ['noise'], [_quantize] ignores [means]: it returns [x] plus
    one draw of [uniform_(zeros_like(x), -0.5, 0.5)], of the shape of [x],
    and leaves the generator where the draw left it.  In a mode other than
    ['noise'] and ['quantize'] it raises [NotImplementedError] and draws
    nothing. *)
Theorem quantize_modes (x : tensor) (mode : string) (means : option tensor) (g : rng) :
  (CodingModel._quantize x "noise" means g = CodingModel._quantize x "noise" None g
   /\ exists q : tensor,
        CodingModel._quantize x "noise" means g
        = (inr q, snd (uniform_ (torch.zeros_like x) (-0.5) 0.5 g))
        /\ shape q = shape x
        /\ forall i, valid_index (shape x) i ->
             item q i
             = item x i + item (fst (uniform_ (torch.zeros_like x) (-0.5) 0.5 g)) i)
  /\ (mode <> "noise"%string -> mode <> "quantize"%string ->
      CodingModel._quantize x mode means g = (inl NotImplementedError, g)).
Proof.
  split; [split; [reflexivity|]|].
  - unfold CodingModel._quantize. cbn [String.eqb Ascii.eqb Bool.eqb]. cbv iota.
    pose proof (uniform_shape (torch.zeros_like x) (-0.5) 0.5 g) as U.
    destruct (uniform_ (torch.zeros_like x) (-0.5) 0.5 g) as [noise g1].
    cbn [fst snd] in U |- *. cbn [torch.zeros_like torch.zeros torch.full shape] in U.
    unfold tadd. rewrite map2_same_shape by exact U.
    eexists. split; [reflexivity|]. split; [reflexivity|].
    intros i Hi. cbn [item]. rewrite U, !(expand_index_valid _ _ Hi). reflexivity.
  - intros N1 N2. unfold CodingModel._quantize.
    destruct (String.eqb_spec mode "noise"); [contradiction|].
    destruct (String.eqb_spec mode "quantize"); [contradiction|]. reflexivity.
Qed.

End Quantizer.

(** X6 for a tensor of [float32], at [x = [2.5, 2.5]]. *)
Lemma quantize_idempotent_witness :
  exists q q' : tensor,
    @CodingModel._quantize_rounded Fixture.backend dtype.float32
      (torch.full [2]%nat (5 / 2)) "quantize" None 0%nat = (inr q, 0%nat)
    /\ @CodingModel._quantize_rounded Fixture.backend dtype.float32 q
         "quantize" None 0%nat = (inr q', 0%nat)
    /\ shape q' = shape q
    /\ item q' [0%nat] = item q [0%nat].
Proof.
  destruct (@quantize_idempotent Fixture.backend 24 (-149)
              (torch.full [2]%nat (5 / 2)) 0%nat) as (q & q' & E1 & E2 & S & V); [lia|].
  exists q, q'. split; [exact E1|]. split; [exact E2|]. split; [exact S|].
  apply V.
  assert (Q : item q [0%nat] = 3).
  { unfold CodingModel._quantize_rounded, lift in E1.
    cbn [String.eqb Ascii.eqb Bool.eqb] in E1. cbv iota in E1.
    injection E1 as <-. cbn [torch.floor tadds tmap torch.full item].
    replace (5 / 2 + 0.5) with (IZR 3) by lra.
    rewrite round_integer by lia. rewrite ZfloorZ. reflexivity. }
  rewrite Q, Rabs_right by lra. apply IZR_lt. lia.
Defined.

(** X7 at the fixture, whose draws are the midpoint [0] of the interval. *)
Lemma quantize_modes_witness :
  (exists q : tensor,
      @CodingModel._quantize Fixture.backend (torch.ones [2]%nat) "noise"
        (Some (torch.full [2]%nat 7)) 0%nat = (inr q, 1%nat)
      /\ shape q = [2]%nat
      /\ item q [0%nat] = 1 + (-0.5 + 0.5) / 2)
  /\ @CodingModel._quantize Fixture.backend (torch.zeros [2]%nat) "round" None 0%nat
     = (inl NotImplementedError, 0%nat).
Proof.
  split.
  - destruct (proj1 (@quantize_modes Fixture.backend (torch.ones [2]%nat) "noise"
                       (Some (torch.full [2]%nat 7)) 0%nat))
      as (_ & q & E & S & Hv).
    exists q. split; [exact E|]. split; [exact S|].
    apply (Hv [0%nat]). repeat constructor.
  - apply (proj2 (@quantize_modes Fixture.backend (torch.zeros [2]%nat) "round" None 0%nat));
      discriminate.
Defined.

(** ** Counting mixture channels *)
(** X11.  [get_num_mixtures] inverts [get_num_DLMM_channels]: for [C <> 0]
    and a non-empty list of parameter names,
    [get_num_mixtures(get_num_DLMM_channels(C, K), C) = K]; for [C = 0] or
    no parameter names the division raises [ZeroDivisionError]. *)
Theorem get_num_mixtures_round_trip (C K : Z) (params : list string) :
  (C = 0%Z \/ params = [] ->
   get_num_mixtures (get_num_DLMM_channels C K params) C params = inl ZeroDivisionError)
  /\ (C <> 0%Z -> params <> [] ->
      get_num_mixtures (get_num_DLMM_channels C K params) C params = inr K).
Proof.
  unfold get_num_mixtures, get_num_DLMM_channels. split.
  - intros [-> | ->]; [rewrite Z.mul_0_r|]; reflexivity.
  - intros HC Hp.
    assert (0 < Z.of_nat (length params))%Z by (destruct params; [contradiction|cbn; lia]).
    destruct (Z.eqb_spec (Z.of_nat (length params) * C) 0) as [Q|_]; [nia|].
    replace (C * K * Z.of_nat (length params))%Z
      with (K * (Z.of_nat (length params) * C))%Z by ring.
    rewrite Z.div_mul by nia. reflexivity.
Qed.

(** X11 at [C = 0] and at [C = 8], [K = 4]. *)
Lemma get_num_mixtures_round_trip_witness :
  get_num_mixtures (get_num_DLMM_channels 0 4 default_params) 0 default_params
    = inl ZeroDivisionError
  /\ get_num_mixtures (get_num_DLMM_channels 8 4 default_params) 8 default_params
     = inr 4%Z.
Proof.
  split.
  - apply (proj1 (get_num_mixtures_round_trip 0 4 default_params)). left. reflexivity.
  - apply (proj2 (get_num_mixtures_round_trip 8 4 default_params)); discriminate.
Defined.

Section ConstructorsMore.
Context `{Backend}.

(** X18.  The argument [mixture_components] of [HyperpriorDLMM.__init__] is
    stored and has no other effect: two constructions that differ in it
    only raise the same error, or return models that differ in the stored
    attribute only; the generator ends in the same state. *)
Theorem HyperpriorDLMM_init_mixture_components
  (bottleneck_capacity hyperlatent_filters : Z) (mode likelihood_type : string)
  (scale_lower_bound : R) (K K' : Z) (g : rng) :
  match HyperpriorDLMM.__init__ bottleneck_capacity hyperlatent_filters mode
          likelihood_type scale_lower_bound K g,
        HyperpriorDLMM.__init__ bottleneck_capacity hyperlatent_filters mode
          likelihood_type scale_lower_bound K' g with
  | (inl e, g1), (inl e', g1') => e = e' /\ g1 = g1'
  | (inr hp, g1), (inr hp', g1') =>
      g1 = g1'
      /\ HyperpriorDLMM.mixture_components hp = K
      /\ HyperpriorDLMM.mixture_components hp' = K'
      /\ HyperpriorDLMM.synthesis_DLMM_params hp = HyperpriorDLMM.synthesis_DLMM_params hp'
      /\ HyperpriorDLMM.analysis_net hp = HyperpriorDLMM.analysis_net hp'
      /\ HyperpriorDLMM.hyperlatent_likelihood hp = HyperpriorDLMM.hyperlatent_likelihood hp'
      /\ HyperpriorDLMM.base hp = HyperpriorDLMM.base hp'
      /\ HyperpriorDLMM.bottleneck_capacity hp = HyperpriorDLMM.bottleneck_capacity hp'
      /\ HyperpriorDLMM.scale_lower_bound hp = HyperpriorDLMM.scale_lower_bound hp'
      /\ HyperpriorDLMM.training hp = HyperpriorDLMM.training hp'
  | _, _ => False
  end.
Proof.
  unfold HyperpriorDLMM.__init__.
  destruct (negb (bottleneck_capacity <=? 128)%Z); [unfold lift, raise; auto|].
  cbv zeta. unfold mbind, lift, ret.
  destruct (HyperpriorAnalysis.__init__ _ _ _ g) as [[e|an] g1]; [auto|].
  destruct (HyperpriorSynthesisDLMM.__init__ _ _ _ _ g1) as [[e|sy] g2]; [auto|].
  destruct (HyperpriorDensity.__init__ _ _ _ _ _ g2) as [[e|de] g3]; [auto|].
  destruct (if String.eqb likelihood_type "gaussian" then _ else _) as [e|f]; [auto|].
  cbn. repeat split; reflexivity.
Qed.

(** X17.  What a constructed model holds: it is in training mode, its
    [n_channels] is [bottleneck_capacity], its [standardized_CDF] is the
    Gaussian one for ['gaussian'] and the logistic one otherwise, and its
    hyperlatent density has [filters = (3, 3, 3)] and a well-formed
    registry for [hyperlatent_filters] channels, or for
    [SMALL_HYPERLATENT_FILTERS] channels in mode ['small'], whatever
    [hyperlatent_filters] was given.  A constructed [HyperpriorDLMM] has
    [bottleneck_capacity <= 128]. *)
Theorem init_attributes :
  (forall bottleneck_capacity hyperlatent_filters mode likelihood_type scale_lower_bound
          g hp g',
      Hyperprior.__init__ bottleneck_capacity hyperlatent_filters mode likelihood_type
        scale_lower_bound g = (inr hp, g') ->
      let N := if String.eqb mode "small" then SMALL_HYPERLATENT_FILTERS
               else hyperlatent_filters in
      Hyperprior.training hp = true
      /\ CodingModel.n_channels (Hyperprior.base hp) = bottleneck_capacity
      /\ CodingModel.standardized_CDF (Hyperprior.base hp)
         = Some (if String.eqb likelihood_type "gaussian"
                 then standardized_CDF_gaussian else standardized_CDF_logistic)
      /\ HyperpriorDensity.filters (Hyperprior.hyperlatent_likelihood hp) = [3%Z; 3%Z; 3%Z]
      /\ registered (Hyperprior.hyperlatent_likelihood hp) (Z.to_nat N))
  /\ (forall bottleneck_capacity hyperlatent_filters mode likelihood_type scale_lower_bound
             mixture_components g hp g',
      HyperpriorDLMM.__init__ bottleneck_capacity hyperlatent_filters mode likelihood_type
        scale_lower_bound mixture_components g = (inr hp, g') ->
      let N := if String.eqb mode "small" then SMALL_HYPERLATENT_FILTERS
               else hyperlatent_filters in
      HyperpriorDLMM.training hp = true
      /\ (bottleneck_capacity <= 128)%Z
      /\ CodingModel.n_channels (HyperpriorDLMM.base hp) = bottleneck_capacity
      /\ CodingModel.standardized_CDF (HyperpriorDLMM.base hp)
         = Some (if String.eqb likelihood_type "gaussian"
                 then standardized_CDF_gaussian else standardized_CDF_logistic)
      /\ HyperpriorDensity.filters (HyperpriorDLMM.hyperlatent_likelihood hp)
         = [3%Z; 3%Z; 3%Z]
      /\ registered (HyperpriorDLMM.hyperlatent_likelihood hp) (Z.to_nat N)).
Proof.
  split.
  - intros bc hf mode lt slb g hp g' E N. unfold Hyperprior.__init__ in E. minv E.
    injection E as <- _.
    cbn [Hyperprior.training Hyperprior.base Hyperprior.hyperlatent_likelihood
         CodingModel.n_channels CodingModel.standardized_CDF CodingModel.__init__].
    match goal with Q : HyperpriorDensity.__init__ _ _ _ _ _ _ = _ |- _ =>
      pose proof (density_init_attributes _ _ _ _ _ _ _ _ Q) as [_ Fd];
      pose proof (density_init_registry _ _ _ _ _ _ _ _ Q) as Rd end.
    repeat split; try assumption. unfold ok, raise in *.
    destruct (String.eqb lt "gaussian"); [congruence|].
    destruct (String.eqb lt "logistic"); [congruence|discriminate].
  - intros bc hf mode lt slb mc g hp g' E N. unfold HyperpriorDLMM.__init__ in E. minv E.
    injection E as <- _.
    cbn [HyperpriorDLMM.training HyperpriorDLMM.base HyperpriorDLMM.hyperlatent_likelihood
         CodingModel.n_channels CodingModel.standardized_CDF CodingModel.__init__].
    match goal with Q : HyperpriorDensity.__init__ _ _ _ _ _ _ = _ |- _ =>
      pose proof (density_init_attributes _ _ _ _ _ _ _ _ Q) as [_ Fd];
      pose proof (density_init_registry _ _ _ _ _ _ _ _ Q) as Rd end.
    match goal with Q : negb _ = false |- _ =>
      apply negb_false_iff, Z.leb_le in Q end.
    repeat split; try assumption. unfold ok, raise in *.
    destruct (String.eqb lt "gaussian"); [congruence|].
    destruct (String.eqb lt "logistic"); [congruence|discriminate].
Qed.

End ConstructorsMore.

(** X17 at the fixture. *)
Lemma init_attributes_witness :
  (exists hp g',
      @Hyperprior.__init__ Fixture.backend 1 1 "large" "logistic" MIN_SCALE 0%nat
      = (inr hp, g')
      /\ Hyperprior.training hp = true
      /\ registered (Hyperprior.hyperlatent_likelihood hp) 1)
  /\ (exists hp g',
      @HyperpriorDLMM.__init__ Fixture.backend 1 1 "large" "gaussian" MIN_SCALE 4 0%nat
      = (inr hp, g')
      /\ HyperpriorDLMM.training hp = true
      /\ registered (HyperpriorDLMM.hyperlatent_likelihood hp) 1).
Proof.
  split.
  - destruct Hyperprior_init_runs as (hp & g' & E). exists hp, g'. split; [exact E|].
    destruct (proj1 (@init_attributes Fixture.backend) _ _ _ _ _ _ _ _ E)
      as (T & _ & _ & _ & Rd).
    split; [exact T|exact Rd].
  - destruct HyperpriorDLMM_init_runs as (hp & g' & E). exists hp, g'. split; [exact E|].
    destruct (proj2 (@init_attributes Fixture.backend) _ _ _ _ _ _ _ _ _ E)
      as (T & _ & _ & _ & _ & Rd).
    split; [exact T|exact Rd].
Defined.

(** ** The conditional likelihood of the latents *)

(** The difference taken in the left tail is, for a CDF with
    [CDF(-v) = 1 - CDF(v)], the difference of the CDF at [d + 0.5] and
    [d - 0.5]. *)
Lemma left_tail_difference (f : R -> R) (d s : R) :
  (forall v, f (- v) = 1 - f v) ->
  f ((0.5 - Rabs d) / s) - f (- (0.5 + Rabs d) / s)
  = f ((d + 0.5) / s) - f ((d - 0.5) / s).
Proof.
  intros Sym. unfold Rabs. destruct (Rcase_abs d) as [Neg|Pos].
  - replace (0.5 - - d) with (d + 0.5) by ring.
    replace (- (0.5 + - d) / s) with ((d - 0.5) / s) by (unfold Rdiv; ring).
    reflexivity.
  - replace ((0.5 - d) / s) with (- ((d - 0.5) / s)) by (unfold Rdiv; ring).
    replace (- (0.5 + d) / s) with (- ((d + 0.5) / s)) by (unfold Rdiv; ring).
    rewrite !Sym. ring.
Qed.

(** X9.  For [x], [mean] and [scale] of one shape, [latent_likelihood]
    returns a tensor of that shape.  With [d = x - mean], and at a non-zero
    scale, its entry is
    [max(CDF((0.5 - |d|) / scale) - CDF(-(0.5 + |d|) / scale), min_likelihood)];
    if [CDF(-v) = 1 - CDF(v)], as the comment in the code assumes, this is
    the difference [CDF((d + 0.5) / scale) - CDF((d - 0.5) / scale)] that the
    comment calls naive, floored at [min_likelihood]; and if the CDF takes
    its values in [[0, 1]] no entry exceeds 1. *)
Theorem latent_likelihood_value (self : CodingModel.t) (f : R -> R)
  (x mean scale : tensor) :
  CodingModel.standardized_CDF self = Some f ->
  shape mean = shape x -> shape scale = shape x ->
  exists L,
    CodingModel.latent_likelihood self x mean scale = inr L
    /\ shape L = shape x
    /\ forall i, valid_index (shape x) i -> item scale i <> 0 ->
         let d := item x i - item mean i in
         item L i
         = Rmax (f ((0.5 - Rabs d) / item scale i) - f (- (0.5 + Rabs d) / item scale i))
                (CodingModel.min_likelihood self)
         /\ ((forall v, f (- v) = 1 - f v) ->
             item L i
             = Rmax (f ((d + 0.5) / item scale i) - f ((d - 0.5) / item scale i))
                    (CodingModel.min_likelihood self))
         /\ ((forall v, 0 <= f v <= 1) -> CodingModel.min_likelihood self <= 1 ->
             item L i <= 1).
Proof.
  intros Ef Sm Ss. unfold CodingModel.latent_likelihood. rewrite Ef.
  unfold tsub, tdiv, torch.abs, rsubs, radds, tneg, lower_bound_toward,
    maths.LowerBoundToward_apply, tmap.
  rewrite map2_same_shape by assumption. cbn [rbind ok shape item].
  rewrite !map2_same_shape by (cbn [shape]; assumption). cbn [rbind ok shape item].
  rewrite map2_same_shape by reflexivity. cbn [rbind ok shape item].
  eexists. split; [reflexivity|]. split; [reflexivity|].
  intros i Hi _. cbv zeta. cbn [item].
  rewrite Sm, Ss, !expand_index_idem, !(expand_index_valid _ _ Hi).
  set (d := item x i - item mean i).
  split; [reflexivity|]. split.
  - intros Sym. f_equal. apply left_tail_difference, Sym.
  - intros Hf Hm. apply Rmax_lub; [|assumption].
    match goal with |- f ?a - f ?b <= 1 => pose proof (Hf a); pose proof (Hf b) end. lra.
Qed.

(** X9 with the logistic CDF, at [x = 1], [mean = 0], [scale = 1]. *)
Lemma latent_likelihood_value_witness :
  exists L,
    CodingModel.latent_likelihood
      (CodingModel.Make 1 MIN_LIKELIHOOD MAX_LIKELIHOOD (Some torch.sigmoid_))
      (torch.ones [1; 1; 1; 1]%nat) (torch.zeros [1; 1; 1; 1]%nat)
      (torch.ones [1; 1; 1; 1]%nat) = inr L
    /\ shape L = [1; 1; 1; 1]%nat
    /\ item L [0; 0; 0; 0]%nat
       = Rmax (torch.sigmoid_ ((1 - 0 + 0.5) / 1) - torch.sigmoid_ ((1 - 0 - 0.5) / 1))
              MIN_LIKELIHOOD
    /\ item L [0; 0; 0; 0]%nat <= 1.
Proof.
  destruct (latent_likelihood_value
              (CodingModel.Make 1 MIN_LIKELIHOOD MAX_LIKELIHOOD (Some torch.sigmoid_))
              torch.sigmoid_ (torch.ones [1; 1; 1; 1]%nat) (torch.zeros [1; 1; 1; 1]%nat)
              (torch.ones [1; 1; 1; 1]%nat) eq_refl eq_refl eq_refl)
    as (L & E & S & Hv).
  exists L. split; [exact E|]. split; [exact S|].
  destruct (Hv [0; 0; 0; 0]%nat) as (_ & Hn & Hc).
  - repeat constructor.
  - cbn. lra.
  - split.
    + apply Hn. intros v. apply sigmoid_neg.
    + apply Hc.
      * intros v. pose proof (sigmoid_pos v). pose proof (sigmoid_lt_1 v). lra.
      * cbn. unfold MIN_LIKELIHOOD. lra.
Defined.

(** ** A registry that lacks a parameter *)
Lemma fold_stages_raised (self : HyperpriorDensity.t) (update_parameters : bool)
  (ks : list nat) (e : exn) :
  fold_left (fun logits k =>
               rbind logits (fun l => HyperpriorDensity.cdf_stage self update_parameters l k))
            ks (inl e) = inl e.
Proof. induction ks as [|k ks IH]; [reflexivity|]. cbn [fold_left rbind]. exact IH. Qed.

Lemma getattr_raises (self : HyperpriorDensity.t) (name : string) (e : exn) :
  HyperpriorDensity.getattr self name = inl e -> e = AttributeError name.
Proof.
  unfold HyperpriorDensity.getattr. destruct (find _ _); [discriminate|].
  intros Q. injection Q as <-. reflexivity.
Qed.

Lemma cdf_stage_missing (self : HyperpriorDensity.t) (update_parameters : bool)
  (l : tensor) (k : nat) (prefix : string) (e : exn) :
  In prefix ["H_"; "a_"; "b_"]%string ->
  HyperpriorDensity.getattr self (HyperpriorDensity.format prefix k) = inl e ->
  exists name,
    HyperpriorDensity.cdf_stage self update_parameters l k = inl (AttributeError name).
Proof.
  intros Hp E. unfold HyperpriorDensity.cdf_stage.
  destruct (HyperpriorDensity.getattr self (HyperpriorDensity.format "H_" k)) as [eH|H_k] eqn:EH.
  { apply getattr_raises in EH. subst. eexists. reflexivity. }
  destruct (HyperpriorDensity.getattr self (HyperpriorDensity.format "a_" k)) as [ea|a_k] eqn:Ea.
  { apply getattr_raises in Ea. subst. eexists. reflexivity. }
  destruct (HyperpriorDensity.getattr self (HyperpriorDensity.format "b_" k)) as [eb|b_k] eqn:Eb.
  { apply getattr_raises in Eb. subst. eexists. reflexivity. }
  cbn [In] in Hp. destruct Hp as [<-|[<-|[<-|[]]]]; congruence.
Qed.

(** X5.  If one of the parameters [H_k], [a_k], [b_k] of a stage
    [k <= len(filters)] is not an attribute of the density, [cdf_logits]
    raises on every input; when it is [H_0], the error is the
    [AttributeError] for [H_0]. *)
Theorem cdf_logits_missing_parameter (self : HyperpriorDensity.t) (x : tensor)
  (update_parameters : bool) (k : nat) (prefix : string) (e : exn) :
  (k <= length (HyperpriorDensity.filters self))%nat ->
  In prefix ["H_"; "a_"; "b_"]%string ->
  HyperpriorDensity.getattr self (HyperpriorDensity.format prefix k) = inl e ->
  (exists e', HyperpriorDensity.cdf_logits self x update_parameters = inl e')
  /\ (k = 0%nat -> prefix = "H_"%string ->
      HyperpriorDensity.cdf_logits self x update_parameters = inl (AttributeError "H_0")).
Proof.
  intros Hk Hp E. unfold HyperpriorDensity.cdf_logits.
  replace (length (HyperpriorDensity.filters self) + 1)%nat
    with (k + S (length (HyperpriorDensity.filters self) - k))%nat by lia.
  rewrite seq_app, fold_left_app. cbn [seq fold_left Nat.add].
  split.
  - destruct (fold_left _ (seq 0 k) (ok x)) as [e0|l].
    + cbn [rbind]. rewrite fold_stages_raised. eexists. reflexivity.
    + cbn [rbind].
      destruct (cdf_stage_missing self update_parameters l k prefix e Hp E) as (name & ->).
      rewrite fold_stages_raised. eexists. reflexivity.
  - intros -> ->. cbn [seq fold_left ok rbind].
    unfold HyperpriorDensity.cdf_stage. rewrite E. cbn [rbind].
    apply getattr_raises in E. subst e. apply fold_stages_raised.
Qed.

(** X5 for a density without parameters. *)
Lemma cdf_logits_missing_parameter_witness :
  HyperpriorDensity.cdf_logits
    (HyperpriorDensity.Make 10 [3%Z; 3%Z; 3%Z] MIN_LIKELIHOOD MAX_LIKELIHOOD [])
    (torch.zeros [1; 1; 1]%nat) true
  = inl (AttributeError "H_0").
Proof.
  refine (proj2 (cdf_logits_missing_parameter
                   (HyperpriorDensity.Make 10 [3%Z; 3%Z; 3%Z] MIN_LIKELIHOOD MAX_LIKELIHOOD [])
                   (torch.zeros [1; 1; 1]%nat) true 0 "H_" (AttributeError "H_0") _ _ _)
                eq_refl eq_refl).
  - cbn. lia.
  - cbn. auto.
  - reflexivity.
Defined.

(** ** The generator along a forward pass *)
Section ForwardGenerator.
Context `{Backend}.

Lemma quantize_noise_generator (x q : tensor) (means : option tensor) (g g' : rng) :
  CodingModel._quantize x "noise" means g = (inr q, g') ->
  g' = snd (uniform_ (torch.zeros_like x) (-0.5) 0.5 g).
Proof.
  unfold CodingModel._quantize. cbn [String.eqb Ascii.eqb Bool.eqb]. cbv iota.
  destruct (uniform_ (torch.zeros_like x) (-0.5) 0.5 g) as [noise g1].
  intros Q. injection Q as _ <-. reflexivity.
Qed.

Lemma quantize_hard_generator_same (x q : tensor) (means : option tensor) (g g' : rng) :
  CodingModel._quantize x "quantize" means g = (inr q, g') -> g' = g.
Proof.
  unfold CodingModel._quantize, lift. cbn [String.eqb Ascii.eqb Bool.eqb]. cbv iota.
  intros Q. injection Q as _ <-. reflexivity.
Qed.

(** X16.  A forward pass that returns has drawn from the generator exactly
    twice, in training as in inference mode: the noise of the hyperlatents,
    then the noise of the latents. *)
Theorem forward_generator :
  (forall (self : Hyperprior.t) (latents : tensor) (spatial_shape : list Z)
          (g g' : rng) (info : HyperInfo),
      Hyperprior.forward self latents spatial_shape g = (inr info, g') ->
      exists hyperlatents,
        HyperpriorAnalysis.forward (Hyperprior.analysis_net self) latents = inr hyperlatents
        /\ g' = snd (uniform_ (torch.zeros_like latents) (-0.5) 0.5
                       (snd (uniform_ (torch.zeros_like hyperlatents) (-0.5) 0.5 g))))
  /\ (forall (self : HyperpriorDLMM.t) (latents : tensor) (spatial_shape : list Z)
             (g g' : rng) (info : HyperInfo),
      HyperpriorDLMM.forward self latents spatial_shape g = (inr info, g') ->
      exists hyperlatents,
        HyperpriorAnalysis.forward (HyperpriorDLMM.analysis_net self) latents
          = inr hyperlatents
        /\ g' = snd (uniform_ (torch.zeros_like latents) (-0.5) 0.5
                       (snd (uniform_ (torch.zeros_like hyperlatents) (-0.5) 0.5 g)))).
Proof.
  split.
  - intros self latents ss g g' info E. unfold Hyperprior.forward in E. minv E.
    injection E as _ <-.
    repeat match goal with
    | Q : CodingModel._quantize _ "noise" _ _ = _ |- _ =>
        apply quantize_noise_generator in Q
    | Q : CodingModel._quantize _ "quantize" _ _ = _ |- _ =>
        apply quantize_hard_generator_same in Q
    end.
    subst. eexists. split; reflexivity.
  - intros self latents ss g g' info E. unfold HyperpriorDLMM.forward in E. minv E.
    injection E as _ <-.
    repeat match goal with
    | Q : CodingModel._quantize _ "noise" _ _ = _ |- _ =>
        apply quantize_noise_generator in Q
    | Q : CodingModel._quantize _ "quantize" _ _ = _ |- _ =>
        apply quantize_hard_generator_same in Q
    end.
    match goal with
    | Q : (if HyperpriorDLMM.training self then _ else _) _ = _ |- _ =>
        destruct (HyperpriorDLMM.training self); unfold lift, ret in Q;
        injection Q as _ Q
    end; subst; eexists; (split; reflexivity).
Qed.

End ForwardGenerator.

(** X16 at the fixture, whose generator counts the draws. *)
Lemma forward_generator_witness :
  (exists info,
      @Hyperprior.forward Fixture.backend (Fixture.hyperprior false)
        (torch.zeros [1; 1; 8; 8]%nat) [8%Z; 8%Z] 0%nat = (inr info, 2%nat))
  /\ (exists info,
      @HyperpriorDLMM.forward Fixture.backend (Fixture.hyperprior_DLMM false)
        (torch.zeros [1; 1; 8; 8]%nat) [8%Z; 8%Z] 0%nat = (inr info, 2%nat)).
Proof.
  split.
  - destruct (hyperprior_forward_runs_at false 0) as (info & g' & E).
    destruct (proj1 (@forward_generator Fixture.backend) _ _ _ _ _ _ E) as (h & _ & Eg).
    exists info. rewrite E. f_equal. exact Eg.
  - destruct (hyperprior_DLMM_forward_runs_at false 0) as (info & g' & E).
    destruct (proj2 (@forward_generator Fixture.backend) _ _ _ _ _ _ E) as (h & _ & Eg).
    exists info. rewrite E. f_equal. exact Eg.
Defined.

(** ** Padding to a multiple of the downsampling factor *)
Lemma pad_amount (n factor : Z) :
  (0 < factor)%Z ->
  let pad := ((factor - n mod factor) mod factor)%Z in
  (0 <= pad < factor)%Z
  /\ ((n + pad) mod factor = 0)%Z
  /\ (forall p, (0 <= p)%Z -> ((n + p) mod factor = 0)%Z -> (pad <= p)%Z).
Proof.
  intros P pad.
  pose proof (Z.mod_pos_bound n factor P) as Br.
  pose proof (Z.div_mod n factor ltac:(lia)) as En.
  assert (Ep : pad = if (n mod factor =? 0)%Z then 0%Z else (factor - n mod factor)%Z).
  { unfold pad. destruct (Z.eqb_spec (n mod factor) 0) as [Q|Q].
    - rewrite Q, Z.sub_0_r. apply Z.mod_same. lia.
    - apply Z.mod_small. lia. }
  split; [|split].
  - apply Z.mod_pos_bound, P.
  - rewrite Ep. destruct (Z.eqb_spec (n mod factor) 0) as [Q|Q].
    + rewrite Z.add_0_r. exact Q.
    + replace (n + (factor - n mod factor))%Z with ((n / factor + 1) * factor)%Z by lia.
      apply Z.mod_mul. lia.
  - intros p Hp Hz. rewrite Ep. destruct (Z.eqb_spec (n mod factor) 0) as [Q|Q]; [lia|].
    apply Z.mod_divide in Hz; [|lia]. destruct Hz as (k & Ek).
    assert (n mod factor + p = (k - n / factor) * factor)%Z by lia.
    assert (0 < k - n / factor)%Z by nia.
    nia.
Qed.

Section PadFactorProperties.
Variable F_pad : tensor -> Z * Z * Z * Z -> string -> result tensor.

(** X19.  For a positive [factor], [pad_factor] hands [F.pad] the pads
    [(0, pad_W, 0, pad_H)] in mode ['reflect'], where [pad_H] and [pad_W]
    are the least non-negative integers that make [H + pad_H] and
    [W + pad_W] divisible by [factor] (so both are below [factor]); for
    [factor = 0] it raises [ZeroDivisionError] and [F.pad] is not called. *)
Theorem pad_factor_divisible (input_image : tensor) (H W : Z) (rest : list Z)
  (factor : Z) :
  (factor = 0%Z ->
   pad_factor F_pad input_image (H :: W :: rest) factor = inl ZeroDivisionError)
  /\ ((0 < factor)%Z ->
      exists pad_H pad_W : Z,
        pad_factor F_pad input_image (H :: W :: rest) factor
        = F_pad input_image (0, pad_W, 0, pad_H)%Z "reflect"
        /\ (0 <= pad_H < factor)%Z /\ (0 <= pad_W < factor)%Z
        /\ ((H + pad_H) mod factor = 0)%Z /\ ((W + pad_W) mod factor = 0)%Z
        /\ (forall p, (0 <= p)%Z -> ((H + p) mod factor = 0)%Z -> (pad_H <= p)%Z)
        /\ (forall p, (0 <= p)%Z -> ((W + p) mod factor = 0)%Z -> (pad_W <= p)%Z)).
Proof.
  unfold pad_factor, pymod. split.
  - intros ->. reflexivity.
  - intros P. destruct (Z.eqb_spec factor 0) as [Q|_]; [lia|]. cbn [rbind ok].
    destruct (pad_amount H factor P) as (B1 & D1 & M1).
    destruct (pad_amount W factor P) as (B2 & D2 & M2).
    do 2 eexists. split; [reflexivity|]. auto 10.
Qed.

End PadFactorProperties.

(** X19 for a [126 x 95] image and the factors 0 and 4. *)
Lemma pad_factor_divisible_witness :
  pad_factor (fun t _ _ => ok t) (torch.zeros [1; 1; 126; 95]%nat) [126%Z; 95%Z] 0
    = inl ZeroDivisionError
  /\ exists pad_H pad_W : Z,
       pad_factor (fun t _ _ => ok t) (torch.zeros [1; 1; 126; 95]%nat) [126%Z; 95%Z] 4
       = ok (torch.zeros [1; 1; 126; 95]%nat)
       /\ ((126 + pad_H) mod 4 = 0)%Z /\ ((95 + pad_W) mod 4 = 0)%Z
       /\ (0 <= pad_H < 4)%Z /\ (0 <= pad_W < 4)%Z.
Proof.
  split.
  - apply (proj1 (pad_factor_divisible (fun t _ _ => ok t)
                    (torch.zeros [1; 1; 126; 95]%nat) 126 95 [] 0)).
    reflexivity.
  - destruct (proj2 (pad_factor_divisible (fun t _ _ => ok t)
                       (torch.zeros [1; 1; 126; 95]%nat) 126 95 [] 4))
      as (pH & pW & E & B1 & B2 & D1 & D2 & _); [lia|].
    exists pH, pW. auto.
Defined.

(** ** The cost of a symbol under the likelihood floor *)
Lemma length_indices (s : list nat) : length (indices s) = numel s.
Proof.
  induction s as [|d s IH]; [reflexivity|].
  cbn [indices numel fold_right]. fold (numel s). rewrite <- IH.
  generalize 0%nat. induction d as [|d IHd]; intros a; [reflexivity|].
  cbn [seq flat_map]. rewrite length_app, length_map, IHd. reflexivity.
Qed.

Lemma sum_lower (c : R) (l : list R) :
  Forall (fun v => c <= v) l -> INR (length l) * c <= fold_right Rplus 0 l.
Proof.
  induction 1 as [|v l Hv _ IH].
  - cbn. lra.
  - cbn [length fold_right]. rewrite S_INR. lra.
Qed.

(** X20.  The floor bounds the cost of a symbol: for a likelihood tensor
    with a non-empty batch whose entries are all at least [m > 0] and a
    [spatial_shape] of two positive integers whose product is below
    [2^63], [_estimate_entropy] returns finite values with [n_bits] at
    most [-log2(m + 1e-9)] per element of one batch item, and
    [bpp = n_bits / (height * width)]. *)
Theorem estimate_entropy_ceiling (likelihood : tensor) (batch_size : nat)
  (rest : list nat) (height width : Z) (m : R) :
  shape likelihood = batch_size :: rest ->
  (0 < batch_size)%nat ->
  (0 < height)%Z -> (0 < width)%Z -> (height * width < 2 ^ 63)%Z ->
  0 < m ->
  (forall i, valid_index (shape likelihood) i -> m <= item likelihood i) ->
  exists n_bits bpp : R,
    CodingModel._estimate_entropy likelihood [height; width]
      = inr (Finite n_bits, Finite bpp)
    /\ n_bits <= INR (numel rest) * (- ln (m + 1e-9) / ln 2)
    /\ bpp = n_bits / IZR (height * width).
Proof.
  intros Sh Hb Hh Hw Hp Hm He.
  pose proof ln_2_pos as L2.
  assert (Bpos : 0 < INR batch_size) by (apply lt_0_INR; assumption).
  assert (Ppos : 0 < IZR (np.prod [height; width])).
  { rewrite np_prod_small by assumption. apply IZR_lt. nia. }
  assert (Ssum : INR (batch_size * numel rest) * ln (m + 1e-9)
                 <= torch.sum (torch.log (tadds likelihood 1e-9))).
  { unfold torch.sum, entries. cbn [torch.log tadds tmap shape item].
    replace (batch_size * numel rest)%nat with (length (indices (shape likelihood)))
      by (rewrite length_indices, Sh; reflexivity).
    rewrite <- (length_map (fun i => ln (item likelihood i + 1e-9))).
    apply sum_lower, Forall_map, Forall_forall. intros i I.
    pose proof (He i (indices_valid _ _ I)) as Lo.
    destruct Lo as [Lo|Lo]; [|rewrite Lo; lra].
    left. apply ln_increasing; lra. }
  unfold CodingModel._estimate_entropy, CodingModel.size0. rewrite Sh.
  cbn [rbind ok length Nat.eqb negb]. unfold np.log.
  set (S := torch.sum (torch.log (tadds likelihood 1e-9))) in *.
  assert (Q : INR batch_size * - ln 2 < 0) by nra.
  rewrite !fdiv_finite by lra.
  do 2 eexists. split; [reflexivity|]. split.
  - rewrite mult_INR in Ssum.
    apply (Rmult_le_reg_r (INR batch_size * ln 2)); [nra|].
    replace (S / (INR batch_size * - ln 2) * (INR batch_size * ln 2)) with (- S)
      by (field; lra).
    replace (INR (numel rest) * (- ln (m + 1e-9) / ln 2) * (INR batch_size * ln 2))
      with (- (INR batch_size * INR (numel rest) * ln (m + 1e-9))) by (field; lra).
    lra.
  - rewrite np_prod_small by assumption. reflexivity.
Qed.

(** X20 for four symbols at the floor [MIN_LIKELIHOOD]. *)
Lemma estimate_entropy_ceiling_witness :
  exists n_bits bpp : R,
    CodingModel._estimate_entropy (torch.full [1; 1; 2; 2]%nat MIN_LIKELIHOOD) [2%Z; 2%Z]
      = inr (Finite n_bits, Finite bpp)
    /\ n_bits <= INR 4 * (- ln (MIN_LIKELIHOOD + 1e-9) / ln 2)
    /\ bpp = n_bits / IZR (2 * 2).
Proof.
  apply (estimate_entropy_ceiling (torch.full [1; 1; 2; 2]%nat MIN_LIKELIHOOD) 1
           [1; 2; 2]%nat 2 2 MIN_LIKELIHOOD).
  - reflexivity.
  - lia.
  - lia.
  - lia.
  - lia.
  - unfold MIN_LIKELIHOOD. lra.
  - intros i _. cbn. lra.
Defined.
